(** * WranglingWorkshop: the employee cleaner and the database loader

  A shallow embedding of [src/cleaning.py] (class [EmployeeCleaner]) and of
  the insert routines of [src/db.py] (class [DatabaseClient]), with the
  properties of the two that the specification talks about.

  Conventions of the embedding.
  - A DataFrame is a list of rows, one record per row; a column operation
    of pandas is a map over the rows, a column statistic (median, mode) is
    computed once from the whole list.
  - Numeric cells hold integers, as the generator and the INTEGER columns
    of the schema do.  A float64 column of such values is exact, so the
    only fractional number that appears is the median of an even number of
    values; it is kept as a rational.
  - Date cells hold calendar dates (the column is a DATE; [pd.to_datetime]
    turns them into midnight timestamps, which are compared and counted
    like the dates themselves).
  - The text of the position column, the one whose characters the code
    reads, is a list of Unicode code points; the case functions of Python
    take the rows of the Unicode database above Basic Latin as an
    argument.  The other text cells are only compared and copied, and are
    kept as strings.
  - psycopg2 and PostgreSQL are modelled by a connection with a committed
    and a working copy of the tables, and the SQL statements of [db.py] by
    functions on the tables that follow the text of each statement and the
    constraints that [create_tables] declares.  The parameters of a
    statement are the values that the frame holds when its tuples are
    taken: a null of a numeric column is NaN there, a null of a date
    column is None, or NaT when the whole column is null. *)

From Stdlib Require Import ZArith QArith List Ascii String Bool Lia Permutation Sorted Qround.
From stdpp Require Import gmap strings list sorting.

Local Open Scope Z_scope.

(** ** Python text functions used by the cleaner *)

Module PyStr.
Local Open Scope N_scope.

(** A [str]: its Unicode code points. *)
Definition str : Type := list N.

(** The [str] written as an ASCII literal. *)
Definition of_string (s : string) : str :=
  map N_of_ascii (list_ascii_of_string s).

(** *** White space

    [Py_UNICODE_ISSPACE], that is [_Py_ascii_whitespace] below 128 and
    [_PyUnicode_IsWhitespace] above: TAB..CR, FS..US, the blank, NEL,
    the no-break space and the space separators. *)
Definition is_space (c : N) : bool :=
  (9 <=? c) && (c <=? 13) || (28 <=? c) && (c <=? 32)
  || (c =? 0x85) || (c =? 0xA0) || (c =? 0x1680)
  || (0x2000 <=? c) && (c <=? 0x200A)
  || (c =? 0x2028) || (c =? 0x2029) || (c =? 0x202F) || (c =? 0x205F)
  || (c =? 0x3000).

(** [str.lstrip()], [str.rstrip()] and [str.strip()] without argument. *)
Fixpoint lstrip (s : str) : str :=
  match s with
  | [] => []
  | c :: s' => if is_space c then lstrip s' else s
  end.

Fixpoint rstrip (s : str) : str :=
  match s with
  | [] => []
  | c :: s' =>
      match rstrip s' with
      | [] => if is_space c then [] else [c]
      | t => c :: t
      end
  end.

Definition strip (s : str) : str := rstrip (lstrip s).

(** *** Case

    The rows of Basic Latin in the Unicode character database: the
    letters A..Z and a..z are cased and map to each other, the other
    characters are uncased and map to themselves. *)
Definition is_upper (c : N) : bool := (65 <=? c) && (c <=? 90).
Definition is_lower (c : N) : bool := (97 <=? c) && (c <=? 122).
Definition lower (c : N) : N := if is_upper c then c + 32 else c.
Definition upper (c : N) : N := if is_lower c then c - 32 else c.

(** The rows of the database above Basic Latin, as CPython reads them
    ([Objects/unicodectype.c]): [_PyUnicode_IsCased],
    [_PyUnicode_IsCaseIgnorable], and the full mappings
    [_PyUnicode_ToLowerFull] and [_PyUnicode_ToTitleFull], which give one
    to three code points.  The text functions take these rows as an
    argument: what is proved of them holds for every database, or names
    the rows it relies on. *)
Record Ucd : Type := {
  is_cased : N -> bool;
  is_case_ignorable : N -> bool;
  to_lower_full : N -> list N;
  to_title_full : N -> list N
}.

Definition cased (u : Ucd) (c : N) : bool :=
  if c <? 128 then is_upper c || is_lower c else is_cased u c.

(** Below 128 the case-ignorable characters are ' . : ^ and `. *)
Definition case_ignorable (u : Ucd) (c : N) : bool :=
  if c <? 128
  then (c =? 0x27) || (c =? 0x2E) || (c =? 0x3A) || (c =? 0x5E) || (c =? 0x60)
  else is_case_ignorable u c.

Definition lower_full (u : Ucd) (c : N) : list N :=
  if c <? 128 then [lower c] else to_lower_full u c.

Definition title_full (u : Ucd) (c : N) : list N :=
  if c <? 128 then [upper c] else to_title_full u c.

(** GREEK CAPITAL LETTER SIGMA, the one character whose lower case
    depends on its place in the text. *)
Definition capital_sigma : N := 0x3A3.

(** The first character of [s] that is not case-ignorable. *)
Fixpoint skip_ignorable (u : Ucd) (s : str) : option N :=
  match s with
  | [] => None
  | c :: s' => if case_ignorable u c then skip_ignorable u s' else Some c
  end.

(** [handle_capital_sigma]: the sigma is final when a cased character
    comes before it and none after it, case-ignorable ones skipped.
    [before] is the text before the sigma, last character first. *)
Definition final_sigma (u : Ucd) (before after : str) : bool :=
  match skip_ignorable u before with
  | Some c =>
      cased u c
      && match skip_ignorable u after with
         | Some c' => negb (cased u c')
         | None => true
         end
  | None => false
  end.

(** [lower_ucs4] *)
Definition lower_ucs4 (u : Ucd) (before : str) (c : N) (after : str) : list N :=
  if c =? capital_sigma
  then [if final_sigma u before after then 0x3C2 else 0x3C3]
  else lower_full u c.

(** [str.title()], CPython's [do_title]: the text is walked with the flag
    [previous_is_cased]; a character that follows a cased one is lowered,
    any other one is put in title case; the flag is then set from the
    character read, not from what was written. *)
Fixpoint title_from (u : Ucd) (before : str) (previous_is_cased : bool) (s : str)
  : str :=
  match s with
  | [] => []
  | c :: s' =>
      (if previous_is_cased then lower_ucs4 u before c s' else title_full u c)
      ++ title_from u (c :: before) (cased u c) s'
  end.

Definition title (u : Ucd) (s : str) : str := title_from u [] false s.

(** The rows that the examples read above Basic Latin: Ö (U+00D6),
    ö (U+00F6), İ (U+0130, whose lower case is i followed by a combining
    dot) and the combining dot above (U+0307).  The other rows are filled
    in as those of an uncased character that maps to itself; no example
    reads them. *)
Definition excerpt : Ucd :=
  {| is_cased c := (c =? 0xD6) || (c =? 0xF6) || (c =? 0x130);
     is_case_ignorable c := c =? 0x307;
     to_lower_full c :=
       if c =? 0x130 then [0x69; 0x307]
       else if c =? 0xD6 then [0xF6] else [c];
     to_title_full c := if c =? 0xF6 then [0xD6] else [c] |}.

End PyStr.

(** ** Values of a DataFrame cell and the pandas functions on them *)

Module Pandas.

(** A cell of a numeric column as the caller hands it over: a missing
    value ([None], [NaN], [pd.NA]), a number, or an object on which
    [pd.to_numeric] fails.  [NumText raw] stands for the last kind only (a
    text that parses, such as "70000", is the [NumVal] it parses to); its
    argument just tells such cells apart. *)
Inductive NumCell : Type :=
| NumNull
| NumVal (z : Z)
| NumText (raw : string).

(** [datetime.date(year, month, day)]. *)
Record date : Type := Date { year : Z; month : Z; day : Z }.

(** A cell of a date column: missing, a date, or an object on which
    [pd.to_datetime] fails (a text that is no date, a date that a
    timestamp cannot hold). *)
Inductive DateCell : Type :=
| DateNull
| DateVal (d : date)
| DateText (raw : string).

#[global] Instance NumCell_eq_dec : EqDecision NumCell.
Proof. solve_decision. Defined.
#[global] Instance date_eq_dec : EqDecision date.
Proof. solve_decision. Defined.
#[global] Instance DateCell_eq_dec : EqDecision DateCell.
Proof. solve_decision. Defined.

(** Python exceptions that the modelled code can raise.  The errors of
    the server are the classes of [psycopg2.errors]; the two violations
    name their column (as [diag.column_name] and the name of the
    constraint do), "integer out of range" and the refusal of a text
    that is no timestamp name none. *)
Inductive PgError : Type :=
| NotNullViolation (column : string)
| ForeignKeyViolation (column : string)
| NumericValueOutOfRange
| InvalidDatetimeFormat
| InFailedSqlTransaction.

Inductive exn : Type :=
| IntCastingNaNError            (* a ValueError of [astype(int)] *)
| DatabaseError (e : PgError).  (* psycopg2.Error *)

Inductive result (A : Type) : Type :=
| Ok (a : A)
| Raise (e : exn).
Arguments Ok {A} a.
Arguments Raise {A} e.

Definition rbind {A B} (m : result A) (k : A -> result B) : result B :=
  match m with
  | Ok a => k a
  | Raise e => Raise e
  end.

(** A column operation that can raise is run on the rows in order. *)
Fixpoint rmap {A B} (f : A -> result B) (l : list A) : result (list B) :=
  match l with
  | [] => Ok []
  | x :: l' => rbind (f x) (fun y => rbind (rmap f l') (fun ys => Ok (y :: ys)))
  end.

(** [Series.isna()] before any coercion: only the missing value is NA. *)
Definition num_isna (c : NumCell) : bool :=
  match c with NumNull => true | _ => false end.

Definition date_isna (c : DateCell) : bool :=
  match c with DateNull => true | _ => false end.

Definition isna {A} (c : option A) : bool :=
  match c with None => true | Some _ => false end.

(** [pd.to_numeric(col, errors="coerce")]. *)
Definition to_numeric (c : NumCell) : option Z :=
  match c with NumVal z => Some z | NumNull | NumText _ => None end.

(** [pd.to_datetime(col, errors="coerce")]. *)
Definition to_datetime (c : DateCell) : option date :=
  match c with DateVal d => Some d | DateNull | DateText _ => None end.

(** [Series.fillna(value)]; the value itself may be NaN, and then nothing
    is filled. *)
Definition fillna {A} (value : option A) (c : option A) : option A :=
  match c with Some _ => c | None => value end.

(** [Series.dropna()]. *)
Definition dropna {A} (col : list (option A)) : list A := omap id col.

(** Order of [datetime.date]: year, then month, then day. *)
Definition date_ltb (a b : date) : bool :=
  (year a <? year b)
  || (year a =? year b)
     && ((month a <? month b) || (month a =? month b) && (day a <? day b)).

Definition date_leb (a b : date) : bool := negb (date_ltb b a).

(** *** Median of a column, NaN skipped *)

Fixpoint insert_sorted (x : Z) (l : list Z) : list Z :=
  match l with
  | [] => [x]
  | y :: l' => if x <=? y then x :: l else y :: insert_sorted x l'
  end.

Definition sort_values (l : list Z) : list Z := foldr insert_sorted [] l.

(** [Series.median()]: NaN when no value is left, the middle value of the
    sorted values, or the mean of the two middle ones. *)
Definition median (col : list (option Z)) : option Q :=
  let v := sort_values (dropna col) in
  let n := length v in
  match n with
  | O => None
  | _ =>
      if Nat.odd n then Some (inject_Z (nth (n / 2) v 0))
      else Some (Qmake (nth (n / 2 - 1) v 0 + nth (n / 2) v 0) 2)
  end.

(** A float cast to [int] drops its fraction (rounds toward zero). *)
Definition trunc (q : Q) : Z := Z.quot (Qnum q) (Zpos (Qden q)).

(** [Series.astype(int)] on a float column: a NaN cannot be cast. *)
Definition astype_int (c : option Q) : result Z :=
  match c with
  | Some q => Ok (trunc q)
  | None => Raise IntCastingNaNError
  end.

(** *** Mode of a column, NaT skipped *)

Fixpoint count (d : date) (l : list date) : nat :=
  match l with
  | [] => O
  | x :: l' => if decide (x = d) then S (count d l') else count d l'
  end.

Definition max_count (l : list date) : nat :=
  foldr (fun d acc => Nat.max (count d l) acc) O l.

Fixpoint insert_date (x : date) (l : list date) : list date :=
  match l with
  | [] => [x]
  | y :: l' => if date_leb x y then x :: l else y :: insert_date x l'
  end.

Definition sort_dates (l : list date) : list date := foldr insert_date [] l.

(** [Series.mode()]: the values that occur most often, each once, in
    ascending order (pandas sorts the modes). *)
Definition mode (col : list (option date)) : list date :=
  let v := dropna col in
  sort_dates
    (remove_dups (List.filter (fun d => Nat.eqb (count d v) (max_count v)) v)).

End Pandas.

(** ** [EmployeeCleaner.clean] *)

Module Cleaning.
Import Pandas.

(** One row of the frame given to [clean].  The name is only tested for
    null and copied; the position is stripped and put in title case, so
    its code points are kept. *)
Record RawEmployee : Type := {
  raw_employee_id : NumCell;
  raw_name : option string;
  raw_position : option PyStr.str;
  raw_start_date : DateCell;
  raw_salary : NumCell;
  raw_department_id : NumCell;
  raw_is_dirty : option bool
}.

(** One row of the frame that [clean] returns. *)
Record CleanEmployee : Type := {
  employee_id : NumCell;
  name : option string;
  position : option PyStr.str;
  start_date : option date;
  salary : Z;
  department_id : NumCell;
  is_dirty : option bool;
  issue_missing_name : bool;
  issue_missing_position : bool;
  issue_missing_start_date : bool;
  issue_missing_salary : bool;
  issue_invalid_salary : bool;
  issue_invalid_start_date : bool;
  has_any_issue : bool
}.

(** [(out["salary"] < 60000) | (out["salary"] > 200000)]; a comparison
    with NaN is false. *)
Definition invalid_salary (s : option Z) : bool :=
  match s with
  | Some z => (z <? 60000) || (z >? 200000)
  | None => false
  end.

(** The salary cell after lines 28-30: coerced, the invalid ones set to NA. *)
Definition masked_salary (r : RawEmployee) : option Z :=
  let s := to_numeric (raw_salary r) in
  if invalid_salary s then None else s.

(** [(d < date(2015,1,1)) | (d > date(2024,12,31))]; false on NaT. *)
Definition invalid_start_date (d : option date) : bool :=
  match d with
  | Some d => date_ltb d (Date 2015 1 1) || date_ltb (Date 2024 12 31) d
  | None => false
  end.

(** The date cell after lines 35-40. *)
Definition masked_start_date (r : RawEmployee) : option date :=
  let d := to_datetime (raw_start_date r) in
  if invalid_start_date d then None else d.

(** Lines 42-45: the date that fills the holes. *)
Definition fill_dt (df : list RawEmployee) : date :=
  let col := map masked_start_date df in
  match dropna col with
  | [] => Date 2019 1 1
  | _ :: _ => hd (Date 2019 1 1) (mode col)      (* [.mode().iloc[0]] *)
  end.

(** The statements of [clean] on one row, given the two column
    statistics; [u] holds the rows of the Unicode database that
    [str.title] reads. *)
Definition clean_row (u : PyStr.Ucd) (med : option Q) (fill : date)
    (r : RawEmployee)
  : result CleanEmployee :=
  let missing_name := isna (raw_name r) in
  let missing_position := isna (raw_position r) in
  let missing_start_date := date_isna (raw_start_date r) in
  let missing_salary := num_isna (raw_salary r) in
  let name1 := fillna (Some "Unknown"%string) (raw_name r) in
  let position1 := fillna (Some (PyStr.of_string "Unknown")) (raw_position r) in
  let salary1 := to_numeric (raw_salary r) in
  let inv_salary := invalid_salary salary1 in
  let salary2 := if inv_salary then None else salary1 in
  rbind (astype_int (fillna med (inject_Z <$> salary2))) (fun salary3 =>
  let date1 := to_datetime (raw_start_date r) in
  let inv_date := invalid_start_date date1 in
  let date2 := if inv_date then None else date1 in
  let date3 := fillna (Some fill) date2 in
  let position2 := (fun s => PyStr.title u (PyStr.strip s)) <$> position1 in
  Ok {| employee_id := raw_employee_id r;
        name := name1;
        position := position2;
        start_date := date3;
        salary := salary3;
        department_id := raw_department_id r;
        is_dirty := raw_is_dirty r;
        issue_missing_name := missing_name;
        issue_missing_position := missing_position;
        issue_missing_start_date := missing_start_date;
        issue_missing_salary := missing_salary;
        issue_invalid_salary := inv_salary;
        issue_invalid_start_date := inv_date;
        has_any_issue :=
          missing_name || missing_position || missing_start_date
          || missing_salary || inv_salary || inv_date |}).

Definition clean (u : PyStr.Ucd) (df : list RawEmployee)
  : result (list CleanEmployee) :=
  let med := median (map masked_salary df) in
  let fill := fill_dt df in
  rmap (clean_row u med fill) df.

(** The frame returned by [clean], given to [clean] again: the four
    cleaned columns are read back as cells; the [issue_*] columns and
    [has_any_issue] are overwritten by the second run, so they are not
    part of what it reads. *)
Definition as_input (c : CleanEmployee) : RawEmployee :=
  {| raw_employee_id := employee_id c;
     raw_name := name c;
     raw_position := position c;
     raw_start_date :=
       match start_date c with Some d => DateVal d | None => DateNull end;
     raw_salary := NumVal (salary c);
     raw_department_id := department_id c;
     raw_is_dirty := is_dirty c |}.

(** A small frame builder for examples: name, position (an ASCII
    literal), date, salary. *)
Definition row (n p : option string) (d : DateCell) (s : NumCell) : RawEmployee :=
  {| raw_employee_id := NumNull; raw_name := n;
     raw_position := PyStr.of_string <$> p;
     raw_start_date := d; raw_salary := s;
     raw_department_id := NumNull; raw_is_dirty := Some false |}.

End Cleaning.

(** ** [DatabaseClient]: tables, statements, connection *)

Module Db.
Import Pandas.

Definition PG_INT_MIN : Z := -2147483648.
Definition PG_INT_MAX : Z := 2147483647.

(** *** The parameters of a statement

    [insert_employees_df], [insert_projects_df] and
    [insert_employee_projects_df] take their tuples from a frame after
    [df2 = df2.where(pd.notnull(df2), None)].  A column that
    [pd.to_numeric] has made is numeric and cannot hold [None]: its nulls
    stay NaN.  A column made by [pd.to_datetime(...).dt.date] holds date
    objects and its nulls become [None], unless no cell of it is a date:
    the column is then a datetime64 column, which cannot hold [None]
    either, and its nulls stay NaT.  The text columns and [is_dirty] are
    object columns, where a null becomes [None]. *)

Inductive NumParam : Type :=
| PNum (z : Z)
| PNaN.

Inductive DateParam : Type :=
| PDate (d : date)
| PNone
| PNaT.

#[global] Instance NumParam_eq_dec : EqDecision NumParam.
Proof. solve_decision. Defined.

(** The tuple that [insert_employees_df] binds to the seven [%s] of its
    statement: employee_id, name, position, start_date, salary,
    department_id, is_dirty. *)
Record EmployeeTuple : Type := {
  t_employee_id : NumParam;
  t_name : option string;
  t_position : option PyStr.str;
  t_start_date : DateParam;
  t_salary : NumParam;
  t_department_id : NumParam;
  t_is_dirty : option bool
}.

(** (department_name, location, budget), as [seed_departments] takes it
    from its caller. *)
Definition DepartmentTuple : Type := option string * option string * option Z.

(** (project_name, project_type, start_date, end_date, budget). *)
Definition ProjectTuple : Type :=
  option string * option string * DateParam * DateParam * NumParam.

(** (employee_id, project_id, role_on_project). *)
Definition AssignmentTuple : Type := NumParam * NumParam * option string.

(** *** The tables of [create_tables]

    Each table is a finite map from the columns of its uniqueness
    constraint (the conflict target of the INSERT statements) to the
    other columns. *)

(** A row of employees; all columns but the key are nullable. *)
Record EmployeeRow : Type := {
  employee_id : option Z;
  name : option string;
  position : option PyStr.str;
  start_date : option date;
  salary : option Z;
  department_id : option Z;
  is_dirty : option bool
}.

(** department_name |-> (department_id, location, budget). *)
Definition DepartmentRow : Type := Z * string * Z.

(** project_name |-> (project_id, project_type, start_date, end_date, budget). *)
Definition ProjectRow : Type := Z * string * date * option date * Z.

Record Tables : Type := {
  departments : gmap string DepartmentRow;
  employees : gmap Z EmployeeRow;
  projects : gmap string ProjectRow;
  employee_projects : gmap (Z * Z) (option string)
}.

Definition empty_tables : Tables :=
  {| departments := ∅; employees := ∅; projects := ∅; employee_projects := ∅ |}.

(** INTEGER is a 32-bit column. *)
Definition in_int4 (z : Z) : bool := (PG_INT_MIN <=? z) && (z <=? PG_INT_MAX).

Definition int4_ok (c : option Z) : bool :=
  match c with Some z => in_int4 z | None => true end.

(** The INTEGER that the server makes of a numeric parameter: none of
    NaN and none of a number out of the range, which are both refused
    as "integer out of range". *)
Definition int4 (p : NumParam) : option Z :=
  match p with
  | PNum z => if in_int4 z then Some z else None
  | PNaN => None
  end.

(** NaT is sent as ['NaT'::timestamp], which the server cannot read. *)
Definition is_nat (p : DateParam) : bool :=
  match p with PNaT => true | PDate _ | PNone => false end.

(** The DATE of a date parameter that is not NaT. *)
Definition date_of (p : DateParam) : option date :=
  match p with PDate d => Some d | PNone | PNaT => None end.

Definition has_department_id (t : Tables) (d : Z) : bool :=
  existsb (fun kv => fst (fst (snd kv)) =? d) (map_to_list (departments t)).

Definition has_project_id (t : Tables) (p : Z) : bool :=
  existsb (fun kv => fst (fst (fst (fst (snd kv)))) =? p) (map_to_list (projects t)).

(** *** The four INSERT statements

    The server refuses a statement in this order: a parameter that is no
    timestamp, when it parses the statement; an integer out of range,
    when it plans it; then, when it runs it, a null in a NOT NULL column,
    and after the conflict clause has been applied, a foreign key without
    its row. *)

Inductive Sql : Type :=
| InsertEmployee (r : EmployeeTuple)
| UpsertDepartment (r : DepartmentTuple)
| UpsertProject (r : ProjectTuple)
| InsertEmployeeProject (r : AssignmentTuple).

(** The row that an accepted tuple is stored as. *)
Definition employee_row (id s d : Z) (r : EmployeeTuple) : EmployeeRow :=
  {| employee_id := Some id;
     name := t_name r;
     position := t_position r;
     start_date := date_of (t_start_date r);
     salary := Some s;
     department_id := Some d;
     is_dirty := t_is_dirty r |}.

(** INSERT INTO employees ... ON CONFLICT (employee_id) DO NOTHING *)
Definition insert_employee (t : Tables) (r : EmployeeTuple) : PgError + Tables :=
  if is_nat (t_start_date r) then inl InvalidDatetimeFormat
  else
    match int4 (t_employee_id r), int4 (t_salary r), int4 (t_department_id r) with
    | Some id, Some s, Some d =>
        match employees t !! id with
        | Some _ => inr t                                  (* DO NOTHING *)
        | None =>
            if has_department_id t d
            then inr {| departments := departments t;
                        employees := <[id := employee_row id s d r]> (employees t);
                        projects := projects t;
                        employee_projects := employee_projects t |}
            else inl (ForeignKeyViolation "department_id")
        end
    | _, _, _ => inl NumericValueOutOfRange
    end.

(** INSERT INTO departments ... ON CONFLICT (department_name) DO UPDATE
    SET location = EXCLUDED.location, budget = EXCLUDED.budget;
    [nextval] is the value drawn from the sequence of department_id. *)
Definition upsert_department (nextval : Z) (t : Tables) (r : DepartmentTuple)
  : PgError + Tables :=
  let '(department_name, location, budget) := r in
  if negb (int4_ok budget) then inl NumericValueOutOfRange
  else
    match department_name, location, budget with
    | None, _, _ => inl (NotNullViolation "department_name")
    | _, None, _ => inl (NotNullViolation "location")
    | _, _, None => inl (NotNullViolation "budget")
    | Some dn, Some loc, Some b =>
        let id := match departments t !! dn with
                  | Some (id, _, _) => id                  (* DO UPDATE *)
                  | None => nextval
                  end in
        inr {| departments := <[dn := (id, loc, b)]> (departments t);
               employees := employees t;
               projects := projects t;
               employee_projects := employee_projects t |}
    end.

(** INSERT INTO projects ... ON CONFLICT (project_name) DO UPDATE
    SET project_type, start_date, end_date, budget = EXCLUDED.* *)
Definition upsert_project (nextval : Z) (t : Tables) (r : ProjectTuple)
  : PgError + Tables :=
  let '(project_name, project_type, start, end_date, budget) := r in
  if is_nat start || is_nat end_date then inl InvalidDatetimeFormat
  else
    match int4 budget with
    | None => inl NumericValueOutOfRange
    | Some b =>
        match project_name, project_type, date_of start with
        | None, _, _ => inl (NotNullViolation "project_name")
        | _, None, _ => inl (NotNullViolation "project_type")
        | _, _, None => inl (NotNullViolation "start_date")
        | Some pn, Some ty, Some sd =>
            let id := match projects t !! pn with
                      | Some (id, _, _, _, _) => id        (* DO UPDATE *)
                      | None => nextval
                      end in
            inr {| departments := departments t;
                   employees := employees t;
                   projects :=
                     <[pn := (id, ty, sd, date_of end_date, b)]> (projects t);
                   employee_projects := employee_projects t |}
        end
    end.

(** INSERT INTO employee_projects ...
    ON CONFLICT (employee_id, project_id) DO NOTHING *)
Definition insert_employee_project (t : Tables) (r : AssignmentTuple)
  : PgError + Tables :=
  let '(eid, pid, role) := r in
  match int4 eid, int4 pid with
  | Some e, Some p =>
      match employee_projects t !! (e, p) with
      | Some _ => inr t                                    (* DO NOTHING *)
      | None =>
          if negb (bool_decide (is_Some (employees t !! e)))
          then inl (ForeignKeyViolation "employee_id")
          else if negb (has_project_id t p)
          then inl (ForeignKeyViolation "project_id")
          else inr {| departments := departments t;
                      employees := employees t;
                      projects := projects t;
                      employee_projects := <[(e, p) := role]> (employee_projects t) |}
      end
  | _, _ => inl NumericValueOutOfRange
  end.

(** *** The connection

    psycopg2 opens a transaction with the first statement and keeps it
    open until [commit] or [rollback].  [committed] is what the server has
    made durable, [working] what the open transaction sees, [failed] says
    that a statement of the open transaction has raised (the server then
    refuses every statement until the rollback).  The two sequences are not
    transactional.  [trace] records, in order, what the client sent and
    printed; it is only read by the theorems. *)

Inductive Line : Type :=
| BadRowIndex (i : nat)               (* print("Bad row at index:", i) *)
| BadRowValues (r : EmployeeTuple).   (* print("Values:", r) *)

Inductive Event : Type :=
| Execute (q : Sql)
| Rollback
| Commit
| Print (l : Line).

Record Conn : Type := {
  committed : Tables;
  working : Tables;
  failed : bool;
  departments_seq : Z;
  projects_seq : Z;
  trace : list Event
}.

(** A method of [DatabaseClient]: it reads and changes the connection and
    returns or raises. *)
Definition M (A : Type) : Type := Conn -> result A * Conn.

Definition ret {A} (a : A) : M A := fun c => (Ok a, c).
Definition raise {A} (e : exn) : M A := fun c => (Raise e, c).
Definition bind {A B} (m : M A) (k : A -> M B) : M B :=
  fun c => match m c with
           | (Ok a, c') => k a c'
           | (Raise e, c') => (Raise e, c')
           end.
Definition try_except {A} (m : M A) (handler : exn -> M A) : M A :=
  fun c => match m c with
           | (Ok a, c') => (Ok a, c')
           | (Raise e, c') => handler e c'
           end.

Declare Scope db_scope.
Notation "m ;; k" := (bind m (fun _ => k))
  (at level 100, k at level 200, right associativity) : db_scope.
Local Open Scope db_scope.

Definition emit (ev : Event) (c : Conn) : Conn :=
  {| committed := committed c; working := working c; failed := failed c;
     departments_seq := departments_seq c; projects_seq := projects_seq c;
     trace := trace c ++ [ev] |}.

(** A statement that the server refuses while it parses or plans it
    never runs; one that runs has drawn its id from the sequence before
    the constraints are checked. *)
Definition runs (res : PgError + Tables) : bool :=
  match res with
  | inl InvalidDatetimeFormat | inl NumericValueOutOfRange => false
  | _ => true
  end.

(** The statement on the working tables, with the sequence it draws from
    advanced. *)
Definition run_sql (q : Sql) (c : Conn) : (PgError + Tables) * Conn :=
  match q with
  | InsertEmployee r => (insert_employee (working c) r, c)
  | UpsertDepartment r =>
      let res := upsert_department (departments_seq c) (working c) r in
      (res,
       {| committed := committed c; working := working c; failed := failed c;
          departments_seq :=
            if runs res then departments_seq c + 1 else departments_seq c;
          projects_seq := projects_seq c; trace := trace c |})
  | UpsertProject r =>
      let res := upsert_project (projects_seq c) (working c) r in
      (res,
       {| committed := committed c; working := working c; failed := failed c;
          departments_seq := departments_seq c;
          projects_seq :=
            if runs res then projects_seq c + 1 else projects_seq c;
          trace := trace c |})
  | InsertEmployeeProject r => (insert_employee_project (working c) r, c)
  end.

(** [cur.execute(sql, r)] *)
Definition execute (q : Sql) : M unit :=
  fun c =>
    let c := emit (Execute q) c in
    if failed c then (Raise (DatabaseError InFailedSqlTransaction), c)
    else
      match run_sql q c with
      | (inr t', c') =>
          (Ok tt,
           {| committed := committed c'; working := t'; failed := false;
              departments_seq := departments_seq c';
              projects_seq := projects_seq c'; trace := trace c' |})
      | (inl e, c') =>
          (Raise (DatabaseError e),
           {| committed := committed c'; working := working c'; failed := true;
              departments_seq := departments_seq c';
              projects_seq := projects_seq c'; trace := trace c' |})
      end.

(** [cur.executemany(sql, rows)]: the statement once per tuple, in order. *)
Fixpoint executemany {R} (sql : R -> Sql) (rows : list R) : M unit :=
  match rows with
  | [] => ret tt
  | r :: rows' => execute (sql r) ;; executemany sql rows'
  end.

(** [self.conn.rollback()] *)
Definition rollback : M unit :=
  fun c =>
    (Ok tt,
     {| committed := committed c; working := committed c; failed := false;
        departments_seq := departments_seq c; projects_seq := projects_seq c;
        trace := trace c ++ [Rollback] |}).

(** [self.conn.commit()]; the server answers the COMMIT of a failed
    transaction with a rollback. *)
Definition commit : M unit :=
  fun c =>
    let t := if failed c then committed c else working c in
    (Ok tt,
     {| committed := t; working := t; failed := false;
        departments_seq := departments_seq c; projects_seq := projects_seq c;
        trace := trace c ++ [Commit] |}).

Definition print (l : Line) : M unit := fun c => (Ok tt, emit (Print l) c).

(** [for i, r in enumerate(rows): body], counting from [i]. *)
Fixpoint for_enumerate {R} (i : nat) (rows : list R) (body : nat -> R -> M unit)
  : M unit :=
  match rows with
  | [] => ret tt
  | r :: rows' => body i r ;; for_enumerate (S i) rows' body
  end.

(** *** [seed_departments] *)

Definition seed_departments (departments : list DepartmentTuple) : M unit :=
  executemany UpsertDepartment departments ;;
  commit.

(** *** [insert_employees_df]

    The frame has the seven required columns by its type, so the check of
    the required columns passes. *)

Record EmployeeFrameRow : Type := {
  df_employee_id : NumCell;
  df_name : option string;
  df_position : option PyStr.str;
  df_start_date : DateCell;
  df_salary : NumCell;
  df_department_id : NumCell;
  df_is_dirty : option bool
}.

(** [df2.loc[df2[col] > PG_INT_MAX, col] = PG_INT_MAX] and the same for
    [PG_INT_MIN], on one cell; NaN compares false and stays. *)
Definition clamp (c : option Z) : option Z :=
  let c1 := match c with
            | Some z => if z >? PG_INT_MAX then Some PG_INT_MAX else c
            | None => None
            end in
  match c1 with
  | Some z => if z <? PG_INT_MIN then Some PG_INT_MIN else c1
  | None => None
  end.

(** A cell of a numeric column when the tuples are taken. *)
Definition num_param (c : option Z) : NumParam :=
  match c with Some z => PNum z | None => PNaN end.

(** No cell of the date column is a date. *)
Definition all_nat (col : list DateCell) : bool :=
  forallb (fun c => isna (to_datetime c)) col.

(** A cell of a date column when the tuples are taken; [nat] says that no
    cell of the column is a date. *)
Definition date_param (nat : bool) (c : DateCell) : DateParam :=
  match to_datetime c with
  | Some d => PDate d
  | None => if nat then PNaT else PNone
  end.

(** Lines 169-193 on one row: the tuple bound to the statement. *)
Definition employee_tuple (nat : bool) (r : EmployeeFrameRow) : EmployeeTuple :=
  {| t_employee_id := num_param (clamp (to_numeric (df_employee_id r)));
     t_name := df_name r;
     t_position := df_position r;
     t_start_date := date_param nat (df_start_date r);
     t_salary := num_param (clamp (to_numeric (df_salary r)));
     t_department_id := num_param (clamp (to_numeric (df_department_id r)));
     t_is_dirty := df_is_dirty r |}.

(** [rows]: the tuples of the frame. *)
Definition employee_tuples (df : list EmployeeFrameRow) : list EmployeeTuple :=
  map (employee_tuple (all_nat (map df_start_date df))) df.

Definition insert_employees_df (df : list EmployeeFrameRow) : M unit :=
  let rows := employee_tuples df in
  try_except (executemany InsertEmployee rows)
    (fun e =>
       rollback ;;
       for_enumerate 0 rows (fun i r =>
         try_except (execute (InsertEmployee r))
           (fun e' =>
              rollback ;;
              print (BadRowIndex i) ;;
              print (BadRowValues r) ;;
              raise e')) ;;
       raise e) ;;
  commit.

(** *** [insert_projects_df] *)

(** project_name, project_type, start_date, end_date, budget *)
Definition ProjectFrameRow : Type :=
  option string * option string * DateCell * DateCell * NumCell.

Definition project_start (r : ProjectFrameRow) : DateCell := r.1.1.2.
Definition project_end (r : ProjectFrameRow) : DateCell := r.1.2.

(** Lines 242-246 on one row; the two flags say that the column of
    start dates, or of end dates, holds no date. *)
Definition project_tuple (nat_start nat_end : bool) (r : ProjectFrameRow)
  : ProjectTuple :=
  let '(project_name, project_type, start, end_date, budget) := r in
  (project_name, project_type, date_param nat_start start,
   date_param nat_end end_date, num_param (to_numeric budget)).

Definition project_tuples (df : list ProjectFrameRow) : list ProjectTuple :=
  map (project_tuple (all_nat (map project_start df))
                     (all_nat (map project_end df))) df.

Definition insert_projects_df (df : list ProjectFrameRow) : M unit :=
  let rows := project_tuples df in
  try_except (executemany UpsertProject rows)
    (fun e => rollback ;; raise e) ;;
  commit.

(** *** [insert_employee_projects_df] *)

(** employee_id, project_id, role_on_project *)
Definition AssignmentFrameRow : Type := NumCell * NumCell * option string.

Definition assignment_tuple (r : AssignmentFrameRow) : AssignmentTuple :=
  let '(eid, pid, role) := r in
  (num_param (to_numeric eid), num_param (to_numeric pid), role).

Definition insert_employee_projects_df (df : list AssignmentFrameRow) : M unit :=
  let rows := map assignment_tuple df in
  try_except (executemany InsertEmployeeProject rows)
    (fun e => rollback ;; raise e) ;;
  commit.

(** [count_employees]: SELECT COUNT( * ) FROM employees, on what is
    durable. *)
Definition count_employees (c : Conn) : nat := size (employees (committed c)).

(** A connection that has just been opened on the given tables. *)
Definition connect (t : Tables) : Conn :=
  {| committed := t; working := t; failed := false;
     departments_seq := 1; projects_seq := 1; trace := [] |}.

End Db.

(** ** [DatabaseClient]: the SELECT statements of the read accessors

    Each accessor hands one SELECT to [pd.read_sql]; it is modelled by the
    rows that the statement returns on given tables. *)

Module Queries.
Import Pandas Db.

(** Ascending order on the first column. *)
Definition by_id {A} (a b : Z * A) : Prop := a.1 <= b.1.

#[global] Instance by_id_dec {A} (a b : Z * A) : Decision (by_id a b).
Proof. unfold by_id. apply _. Defined.

(** [fetch_departments]:
    SELECT department_id, department_name, location, budget
    FROM departments ORDER BY department_id *)
Definition fetch_departments (t : Tables) : list (Z * (string * string * Z)) :=
  merge_sort by_id
    (map (fun kv : string * DepartmentRow =>
            let '(n, (id, l, b)) := kv in (id, (n, l, b)))
         (map_to_list (departments t))).

(** A row of [load_employees_joined]. *)
Record JoinedEmployee : Type := {
  j_employee_id : Z;
  j_name : option string;
  j_position : option PyStr.str;
  j_start_date : option date;
  j_salary : option Z;
  j_is_dirty : option bool;
  j_department_name : option string;
  j_location : option string;
  j_budget : option Z
}.

(** The departments that [ON e.department_id = d.department_id] matches;
    a null department_id matches none. *)
Definition departments_of (t : Tables) (d : option Z) : list (string * DepartmentRow) :=
  match d with
  | None => []
  | Some d => List.filter (fun kv => kv.2.1.1 =? d) (map_to_list (departments t))
  end.

Definition joined (id : Z) (e : EmployeeRow) (d : option (string * DepartmentRow))
  : JoinedEmployee :=
  {| j_employee_id := id; j_name := name e; j_position := position e;
     j_start_date := start_date e; j_salary := salary e;
     j_is_dirty := is_dirty e;
     j_department_name := (fun kv => kv.1) <$> d;
     j_location := (fun kv => kv.2.1.2) <$> d;
     j_budget := (fun kv => kv.2.2) <$> d |}.

(** LEFT JOIN: an employee without a matching department gives one row
    with nulls. *)
Definition join_employee (t : Tables) (kv : Z * EmployeeRow) : list JoinedEmployee :=
  match departments_of t (department_id kv.2) with
  | [] => [joined kv.1 kv.2 None]
  | ds => map (fun d => joined kv.1 kv.2 (Some d)) ds
  end.

(** [load_employees_joined]:
    SELECT e.employee_id, e.name, e.position, e.start_date, e.salary,
           e.is_dirty, d.department_name, d.location, d.budget
    FROM employees e LEFT JOIN departments d
         ON e.department_id = d.department_id
    ORDER BY e.employee_id *)
Definition load_employees_joined (t : Tables) : list JoinedEmployee :=
  flat_map (join_employee t) (merge_sort by_id (map_to_list (employees t))).

(** A row of [load_employee_projects_joined]. *)
Record JoinedAssignment : Type := {
  a_employee_id : Z;
  a_name : option string;
  a_position : option PyStr.str;
  a_start_date : option date;
  a_salary : option Z;
  a_is_dirty : option bool;
  a_department_name : option string;
  a_project_name : string;
  a_project_type : string;
  a_project_budget : Z;
  a_role_on_project : option string
}.

Definition projects_with_id (t : Tables) (p : Z) : list (string * ProjectRow) :=
  List.filter (fun kv => kv.2.1.1.1.1 =? p) (map_to_list (projects t)).

(** The department names that the LEFT JOIN gives an employee: those of
    the matching departments, or one null. *)
Definition department_names (t : Tables) (d : option Z) : list (option string) :=
  match departments_of t d with
  | [] => [None]
  | ds => map (fun kv => Some kv.1) ds
  end.

(** The rows that one assignment gives: JOIN employees (inner), LEFT JOIN
    departments, JOIN projects (inner). *)
Definition join_assignment (t : Tables) (kv : Z * Z * option string)
  : list JoinedAssignment :=
  let '(e, p, role) := kv in
  match employees t !! e with
  | None => []
  | Some emp =>
      flat_map
        (fun dn =>
           map (fun pr : string * ProjectRow =>
                  {| a_employee_id := e; a_name := name emp;
                     a_position := position emp;
                     a_start_date := start_date emp;
                     a_salary := salary emp; a_is_dirty := is_dirty emp;
                     a_department_name := dn;
                     a_project_name := pr.1;
                     a_project_type := pr.2.1.1.1.2;
                     a_project_budget := pr.2.2;
                     a_role_on_project := role |})
               (projects_with_id t p))
        (department_names t (department_id emp))
  end.

(** [load_employee_projects_joined]:
    SELECT e.employee_id, e.name, e.position, e.start_date, e.salary,
           e.is_dirty, d.department_name, p.project_name, p.project_type,
           p.budget AS project_budget, ep.role_on_project
    FROM employee_projects ep
    JOIN employees e ON ep.employee_id = e.employee_id
    LEFT JOIN departments d ON e.department_id = d.department_id
    JOIN projects p ON ep.project_id = p.project_id
    The SELECT has no ORDER BY, so the order of this list is one of the
    orders the server may choose; the theorems only speak of the rows it
    contains. *)
Definition load_employee_projects_joined (t : Tables) : list JoinedAssignment :=
  flat_map (join_assignment t) (map_to_list (employee_projects t)).

End Queries.

(** ** Facts on the text functions *)

Module PyStrFacts.
Import PyStr.
Local Open Scope N_scope.

(** *** The first and the last character *)

Definition head_ok (s : str) : bool :=
  match s with
  | [] => true
  | c :: _ => negb (is_space c)
  end.

(** The last character of a text is no white space (or there is none). *)
Fixpoint last_ok (s : str) : bool :=
  match s with
  | [] => true
  | c :: s' =>
      match s' with
      | [] => negb (is_space c)
      | _ :: _ => last_ok s'
      end
  end.

Lemma head_ok_lstrip s : head_ok (lstrip s) = true.
Proof.
  induction s as [|c s IH]; [reflexivity|].
  cbn [lstrip]. destruct (is_space c) eqn:Hc; [exact IH|].
  cbn. rewrite Hc. reflexivity.
Qed.

Lemma head_ok_rstrip s : head_ok s = true -> head_ok (rstrip s) = true.
Proof.
  destruct s as [|c s]; [reflexivity|].
  cbn [head_ok rstrip]. intros Hc.
  destruct (rstrip s); [|exact Hc].
  destruct (is_space c) eqn:E; [discriminate|].
  cbn. rewrite E. reflexivity.
Qed.

Lemma last_ok_rstrip s : last_ok (rstrip s) = true.
Proof.
  induction s as [|c s IH]; [reflexivity|].
  cbn [rstrip]. destruct (rstrip s) as [|d t] eqn:Hr.
  - destruct (is_space c) eqn:Hc; [reflexivity|].
    cbn. rewrite Hc. reflexivity.
  - exact IH.
Qed.

Lemma lstrip_head_ok s : head_ok s = true -> lstrip s = s.
Proof.
  destruct s as [|c s]; [reflexivity|].
  cbn. destruct (is_space c); [discriminate | reflexivity].
Qed.

Lemma rstrip_last_ok s : last_ok s = true -> rstrip s = s.
Proof.
  induction s as [|c s IH]; [reflexivity|].
  destruct s as [|d s].
  - cbn. destruct (is_space c); [discriminate | reflexivity].
  - intros H. change (last_ok (d :: s) = true) in H.
    cbn [rstrip] in IH |- *. rewrite (IH H). reflexivity.
Qed.

Lemma strip_ok s : head_ok s = true -> last_ok s = true -> strip s = s.
Proof.
  intros Hh Hl. unfold strip. rewrite (lstrip_head_ok s Hh).
  exact (rstrip_last_ok s Hl).
Qed.

Lemma head_ok_strip s : head_ok (strip s) = true.
Proof. apply head_ok_rstrip, head_ok_lstrip. Qed.

Lemma last_ok_strip s : last_ok (strip s) = true.
Proof. apply last_ok_rstrip. Qed.

Lemma strip_idem s : strip (strip s) = strip s.
Proof. apply strip_ok; [apply head_ok_strip | apply last_ok_strip]. Qed.

Lemma Forall_lstrip (P : N -> Prop) s : Forall P s -> Forall P (lstrip s).
Proof.
  induction 1 as [|c s Hc Hs IH]; [constructor|].
  cbn. destruct (is_space c); [exact IH | constructor; assumption].
Qed.

Lemma Forall_rstrip (P : N -> Prop) s : Forall P s -> Forall P (rstrip s).
Proof.
  induction 1 as [|c s Hc Hs IH]; [constructor|].
  cbn. destruct (rstrip s) as [|d t].
  - destruct (is_space c); repeat constructor. exact Hc.
  - constructor; assumption.
Qed.

Lemma Forall_strip (P : N -> Prop) s : Forall P s -> Forall P (strip s).
Proof. intros H. apply Forall_rstrip, Forall_lstrip, H. Qed.

(** *** Characters with a simple case

    A character is simple when its lower case and its title case are one
    character each, which [title] leaves as it finds them, and which are
    cased and white space exactly when the character is.  The capital
    sigma is set apart. *)

Section Table.

Variable u : Ucd.

Definition simple (c : N) : Prop :=
  c <> capital_sigma
  /\ exists l t,
       lower_full u c = [l] /\ title_full u c = [t]
       /\ l <> capital_sigma
       /\ lower_full u l = [l] /\ title_full u t = [t]
       /\ cased u l = cased u c /\ cased u t = cased u c
       /\ is_space l = is_space c /\ is_space t = is_space c.

(** What [title] writes for a simple character depends on the flag only,
    and is written again as it is by a second run. *)
Lemma title_from_simple c p :
  simple c ->
  exists x,
    (forall before s,
       title_from u before p (c :: s)
       = x :: title_from u (c :: before) (cased u c) s)
    /\ (forall before s,
          title_from u before p (x :: s)
          = x :: title_from u (x :: before) (cased u c) s)
    /\ is_space x = is_space c.
Proof.
  intros (Hc & l & t & El & Et & Hl & Ell & Ett & Cl & Ct & Sl & St).
  apply N.eqb_neq in Hc, Hl.
  destruct p.
  - exists l. split; [|split; [|exact Sl]]; intros before s;
      cbn [title_from]; unfold lower_ucs4.
    + rewrite Hc, El. reflexivity.
    + rewrite Hl, Ell, Cl. reflexivity.
  - exists t. split; [|split; [|exact St]]; intros before s;
      cbn [title_from].
    + rewrite Et. reflexivity.
    + rewrite Ett, Ct. reflexivity.
Qed.

Lemma title_from_idem s :
  Forall simple s ->
  forall before before' p,
    title_from u before' p (title_from u before p s) = title_from u before p s.
Proof.
  induction 1 as [|c s Hc _ IH]; intros before before' p; [reflexivity|].
  destruct (title_from_simple c p Hc) as (x & E1 & E2 & _).
  rewrite E1, E2, IH. reflexivity.
Qed.

Lemma head_ok_title_from s :
  Forall simple s ->
  forall before p, head_ok (title_from u before p s) = head_ok s.
Proof.
  destruct 1 as [|c s Hc _]; intros before p; [reflexivity|].
  destruct (title_from_simple c p Hc) as (x & E1 & _ & Hx).
  rewrite E1. cbn. rewrite Hx. reflexivity.
Qed.

Lemma last_ok_title_from s :
  Forall simple s ->
  forall before p, last_ok (title_from u before p s) = last_ok s.
Proof.
  induction 1 as [|c s Hc Hs IH]; intros before p; [reflexivity|].
  destruct (title_from_simple c p Hc) as (x & E1 & _ & Hx).
  rewrite E1. destruct Hs as [|d s Hd Hs].
  - cbn. rewrite Hx. reflexivity.
  - specialize (IH (c :: before) (cased u c)).
    destruct (title_from_simple d (cased u c) Hd) as (y & E2 & _).
    rewrite E2 in IH |- *. exact IH.
Qed.

(** On a text of simple characters, [.str.strip().str.title()] is a
    projection: its result is stripped and in title case already. *)
Lemma strip_title_strip s :
  Forall simple s -> strip (title u (strip s)) = title u (strip s).
Proof.
  intros H. apply (Forall_strip simple) in H. unfold title.
  apply strip_ok.
  - rewrite (head_ok_title_from _ H). apply head_ok_strip.
  - rewrite (last_ok_title_from _ H). apply last_ok_strip.
Qed.

Lemma title_title_strip s :
  Forall simple s -> title u (title u (strip s)) = title u (strip s).
Proof.
  intros H. apply (Forall_strip simple) in H. unfold title.
  apply title_from_idem, H.
Qed.

Lemma title_strip_idem s :
  Forall simple s ->
  title u (strip (title u (strip s))) = title u (strip s).
Proof.
  intros H. rewrite (strip_title_strip s H). apply title_title_strip, H.
Qed.

End Table.

(** *** Basic Latin *)

(** A property that holds of the 128 code points of Basic Latin, by
    enumeration. *)
Lemma below_128 (P : N -> bool) :
  forallb P (map N.of_nat (seq 0 128)) = true ->
  forall c, c < 128 -> P c = true.
Proof.
  intros H c Hc. rewrite forallb_forall in H. apply H.
  apply in_map_iff. exists (N.to_nat c). split; [apply N2Nat.id|].
  apply in_seq. lia.
Qed.

Definition simple_row (c : N) : bool :=
  (lower c <? 128) && (upper c <? 128)
  && (lower (lower c) =? lower c) && (upper (upper c) =? upper c)
  && Bool.eqb (is_upper (lower c) || is_lower (lower c)) (is_upper c || is_lower c)
  && Bool.eqb (is_upper (upper c) || is_lower (upper c)) (is_upper c || is_lower c)
  && Bool.eqb (is_space (lower c)) (is_space c)
  && Bool.eqb (is_space (upper c)) (is_space c).

(** Every character of Basic Latin is simple, whatever the rest of the
    database is. *)
Lemma basic_latin_simple u c : c < 128 -> simple u c.
Proof.
  intros Hc.
  pose proof (below_128 simple_row eq_refl c Hc) as H.
  unfold simple_row in H.
  repeat (apply andb_true_iff in H as [H ?]).
  repeat match goal with
         | E : Bool.eqb _ _ = true |- _ => apply Bool.eqb_prop in E
         | E : (_ =? _) = true |- _ => apply N.eqb_eq in E
         end.
  assert (Hl : lower c < 128) by (apply N.ltb_lt; assumption).
  assert (Ht : upper c < 128) by (apply N.ltb_lt; assumption).
  split; [unfold capital_sigma; lia|].
  exists (lower c), (upper c).
  unfold lower_full, title_full, cased.
  apply N.ltb_lt in Hc, Hl, Ht. rewrite Hc, Hl, Ht.
  apply N.ltb_lt in Hl.
  repeat split; try congruence.
  unfold capital_sigma. lia.
Qed.

Lemma of_string_simple u s :
  forallb (fun c => c <? 128) (of_string s) = true ->
  Forall (simple u) (of_string s).
Proof.
  intros H. apply Forall_forall. intros c Hc.
  rewrite forallb_forall in H.
  apply basic_latin_simple, N.ltb_lt, H, list_elem_of_In, Hc.
Qed.

End PyStrFacts.

(** ** Facts on the column functions *)

Module PandasFacts.
Import Pandas.

(** *** Errors in a column operation *)

Lemma rmap_Ok {A B} (f : A -> result B) l out :
  rmap f l = Ok out -> Forall2 (fun x y => f x = Ok y) l out.
Proof.
  revert out. induction l as [|x l IH]; intros out H; cbn in H.
  - injection H as <-. constructor.
  - destruct (f x) as [y|e] eqn:Hx; cbn in H; [|discriminate].
    destruct (rmap f l) as [ys|e] eqn:Hl; cbn in H; [|discriminate].
    injection H as <-. constructor; [exact Hx | apply IH; reflexivity].
Qed.

Lemma rmap_Forall2 {A B} (f : A -> result B) l out :
  Forall2 (fun x y => f x = Ok y) l out -> rmap f l = Ok out.
Proof.
  induction 1 as [|x y l out Hx _ IH]; cbn; [reflexivity|].
  rewrite Hx, IH. reflexivity.
Qed.


Lemma rmap_Raise {A B} (f : A -> result B) l e :
  l <> [] -> (forall x, x ∈ l -> f x = Raise e) -> rmap f l = Raise e.
Proof.
  destruct l as [|x l]; [congruence|]. intros _ H. cbn.
  rewrite (H x) by left. reflexivity.
Qed.


(** *** Sorting integers *)

Lemma insert_sorted_perm x l : Permutation (insert_sorted x l) (x :: l).
Proof.
  induction l as [|y l IH]; cbn; [reflexivity|].
  destruct (x <=? y); [reflexivity|].
  rewrite IH. apply perm_swap.
Qed.

Lemma sort_values_perm l : Permutation (sort_values l) l.
Proof.
  induction l as [|x l IH]; cbn; [reflexivity|].
  rewrite insert_sorted_perm, IH. reflexivity.
Qed.

Lemma insert_sorted_sorted x l :
  StronglySorted Z.le l -> StronglySorted Z.le (insert_sorted x l).
Proof.
  induction 1 as [|y l Hs IH Hy]; cbn.
  - repeat constructor.
  - destruct (x <=? y) eqn:Hxy.
    + constructor; [constructor; assumption|].
      constructor; [lia|].
      eapply Forall_impl; [exact Hy|]. cbn. intros z Hz. lia.
    + constructor; [exact IH|].
      rewrite insert_sorted_perm. constructor; [lia | exact Hy].
Qed.

Lemma sort_values_sorted l : StronglySorted Z.le (sort_values l).
Proof.
  induction l as [|x l IH]; cbn; [constructor|].
  apply insert_sorted_sorted, IH.
Qed.

Lemma sort_values_length l : length (sort_values l) = length l.
Proof. apply Permutation_length, sort_values_perm. Qed.

Lemma sort_values_Forall (P : Z -> Prop) l :
  Forall P l -> Forall P (sort_values l).
Proof. intros H. rewrite sort_values_perm. exact H. Qed.

(** *** The median *)

Lemma median_None col : median col = None <-> dropna col = [].
Proof.
  unfold median. rewrite sort_values_length.
  destruct (dropna col) as [|z v]; cbn [length].
  - split; reflexivity.
  - split; [|discriminate]. destruct (Nat.odd _); discriminate.
Qed.

Lemma trunc_inject_Z z : trunc (inject_Z z) = z.
Proof. unfold trunc, inject_Z. cbn. apply Z.quot_1_r. Qed.

Lemma trunc_half lo hi a b :
  lo <= a <= hi -> lo <= b <= hi -> lo <= trunc (Qmake (a + b) 2) <= hi.
Proof.
  intros Ha Hb. unfold trunc. cbn.
  pose proof (Z.quot_rem' (a + b) 2) as E.
  destruct (Z_le_gt_dec 0 (a + b)) as [Hs|Hs].
  - pose proof (Z.rem_bound_pos_pos (a + b) 2 ltac:(lia) Hs). lia.
  - pose proof (Z.rem_bound_pos_neg (a + b) 2 ltac:(lia) ltac:(lia)). lia.
Qed.

(** The median of values of an interval with integer ends, cast to int,
    is in the interval. *)
Lemma median_bounds lo hi col q :
  Forall (fun z => lo <= z <= hi) (dropna col) ->
  median col = Some q -> lo <= trunc q <= hi.
Proof.
  intros Hall. unfold median.
  pose proof (sort_values_Forall _ _ Hall) as Hs.
  pose proof (sort_values_length (dropna col)) as Hlen.
  set (v := sort_values (dropna col)) in *.
  rewrite Forall_forall in Hs.
  assert (Hnth : forall i, (i < length v)%nat -> lo <= nth i v 0 <= hi).
  { intros i Hi. apply Hs, list_elem_of_In, nth_In, Hi. }
  destruct (length v) as [|n] eqn:Hn; [discriminate|].
  assert (Hmid : (S n / 2 < S n)%nat) by (apply Nat.div_lt; lia).
  revert Hmid. generalize (S n / 2)%nat. intros m Hmid.
  destruct (Nat.odd (S n)); intros [= <-].
  - rewrite trunc_inject_Z. apply Hnth. try rewrite Hn. exact Hmid.
  - apply trunc_half; apply Hnth; try rewrite Hn; lia.
Qed.

(** The median is the middle of the sorted valid values. *)
Lemma median_Some col q :
  median col = Some q ->
  exists v, Permutation v (dropna col) /\ StronglySorted Z.le v /\
    q = if Nat.odd (length v) then inject_Z (nth (length v / 2) v 0)
        else Qmake (nth (length v / 2 - 1) v 0 + nth (length v / 2) v 0) 2.
Proof.
  unfold median. intros H.
  exists (sort_values (dropna col)).
  split; [apply sort_values_perm|]. split; [apply sort_values_sorted|].
  destruct (length (sort_values (dropna col))) as [|n]; [discriminate|].
  destruct (Nat.odd (S n)); injection H as <-; reflexivity.
Qed.

(** *** Order of dates *)

Lemma date_leb_refl a : date_leb a a = true.
Proof. unfold date_leb, date_ltb. destruct a; cbn. lia. Qed.

Lemma date_leb_total a b : date_leb a b = false -> date_leb b a = true.
Proof. unfold date_leb, date_ltb. destruct a, b; cbn. lia. Qed.

Lemma date_leb_trans a b c :
  date_leb a b = true -> date_leb b c = true -> date_leb a c = true.
Proof. unfold date_leb, date_ltb. destruct a, b, c; cbn. lia. Qed.

Lemma date_leb_antisym a b :
  date_leb a b = true -> date_leb b a = true -> a = b.
Proof.
  unfold date_leb, date_ltb. destruct a as [y m d], b as [y' m' d']; cbn.
  intros H1 H2.
  assert (y = y' /\ m = m' /\ d = d') as (-> & -> & ->) by lia.
  reflexivity.
Qed.

Definition date_le (a b : date) : Prop := date_leb a b = true.

(** *** Sorting dates *)

Lemma insert_date_perm x l : Permutation (insert_date x l) (x :: l).
Proof.
  induction l as [|y l IH]; cbn; [reflexivity|].
  destruct (date_leb x y); [reflexivity|].
  rewrite IH. apply perm_swap.
Qed.

Lemma sort_dates_perm l : Permutation (sort_dates l) l.
Proof.
  induction l as [|x l IH]; cbn; [reflexivity|].
  rewrite insert_date_perm, IH. reflexivity.
Qed.

Lemma insert_date_sorted x l :
  StronglySorted date_le l -> StronglySorted date_le (insert_date x l).
Proof.
  induction 1 as [|y l Hs IH Hy]; cbn.
  - repeat constructor.
  - destruct (date_leb x y) eqn:Hxy.
    + constructor; [constructor; assumption|].
      constructor; [exact Hxy|].
      eapply Forall_impl; [exact Hy|]. cbn. intros z Hz.
      exact (date_leb_trans _ _ _ Hxy Hz).
    + constructor; [exact IH|].
      rewrite insert_date_perm. constructor; [|exact Hy].
      apply date_leb_total, Hxy.
Qed.

Lemma sort_dates_sorted l : StronglySorted date_le (sort_dates l).
Proof.
  induction l as [|x l IH]; cbn; [constructor|].
  apply insert_date_sorted, IH.
Qed.

(** The first of the sorted dates is one of them and the earliest. *)
Lemma sort_dates_hd d0 l :
  l <> [] ->
  hd d0 (sort_dates l) ∈ l /\ forall x, x ∈ l -> date_le (hd d0 (sort_dates l)) x.
Proof.
  intros Hne.
  pose proof (sort_dates_perm l) as Hp.
  pose proof (sort_dates_sorted l) as Hs.
  destruct (sort_dates l) as [|m s].
  - apply Permutation_nil in Hp. congruence.
  - cbn. split.
    + rewrite <- Hp. left.
    + intros x Hx. rewrite <- Hp in Hx.
      apply StronglySorted_inv in Hs as [_ Hall].
      rewrite Forall_forall in Hall.
      apply elem_of_cons in Hx as [->|Hx]; [apply date_leb_refl | apply Hall, Hx].
Qed.

(** *** The mode *)

Lemma max_over_ge (l0 l : list date) x :
  x ∈ l -> (count x l0 <= foldr (fun d acc => Nat.max (count d l0) acc) O l)%nat.
Proof.
  induction l as [|y l IH]; intros Hx.
  - apply elem_of_nil in Hx as [].
  - cbn. apply elem_of_cons in Hx as [->|Hx]; [lia|].
    specialize (IH Hx). lia.
Qed.

Lemma max_over_attained (l0 l : list date) :
  l <> [] ->
  exists y, y ∈ l /\ count y l0 = foldr (fun d acc => Nat.max (count d l0) acc) O l.
Proof.
  induction l as [|y l IH]; intros Hne; [congruence|].
  cbn. destruct l as [|z l].
  - exists y. split; [left|]. cbn. lia.
  - destruct IH as (w & Hw & Ew); [discriminate|].
    destruct (Nat.max_spec (count y l0)
                (foldr (fun d acc => Nat.max (count d l0) acc) O (z :: l)))
      as [[_ E]|[_ E]]; rewrite E.
    + exists w. split; [right; exact Hw | exact Ew].
    + exists y. split; [left | reflexivity].
Qed.

(** [Series.mode().iloc[0]] on a column with a valid date: a valid date,
    none occurs more often, and among those that occur as often it is the
    earliest. *)
Lemma mode_iloc0 d0 col :
  dropna col <> [] ->
  let m := hd d0 (mode col) in
  let v := dropna col in
  m ∈ v
  /\ (forall x, x ∈ v -> (count x v <= count m v)%nat)
  /\ (forall x, x ∈ v -> count x v = count m v -> date_le m x).
Proof.
  intros Hne m v. subst m. unfold mode. fold v.
  set (cands := List.filter (fun d => Nat.eqb (count d v) (max_count v)) v).
  assert (Hc : forall x, x ∈ remove_dups cands <-> x ∈ v /\ count x v = max_count v).
  { intros x. rewrite elem_of_remove_dups. unfold cands.
    rewrite list_elem_of_In, filter_In, <- list_elem_of_In, Nat.eqb_eq.
    reflexivity. }
  assert (Hcne : remove_dups cands <> []).
  { destruct (max_over_attained v v Hne) as (y & Hy & Ey).
    intros E. assert (Hin : y ∈ remove_dups cands) by (apply Hc; split; assumption).
    rewrite E in Hin. apply elem_of_nil in Hin as []. }
  destruct (sort_dates_hd d0 _ Hcne) as [Hin Hmin].
  apply Hc in Hin as [Hv Hmax].
  split; [exact Hv|]. split.
  - intros x Hx. rewrite Hmax. apply max_over_ge, Hx.
  - intros x Hx Ex. apply Hmin, Hc. split; [exact Hx | congruence].
Qed.

End PandasFacts.

(** ** Properties of [EmployeeCleaner.clean] *)

Module CleaningSpec.
Import Pandas PandasFacts Cleaning.

Definition salary_ok (z : Z) : Prop := 60000 <= z <= 200000.

Definition date_ok (d : date) : Prop :=
  date_le (Date 2015 1 1) d /\ date_le d (Date 2024 12 31).

(** *** The two masked columns *)

Lemma masked_salary_Some r z :
  masked_salary r = Some z <-> raw_salary r = NumVal z /\ salary_ok z.
Proof.
  unfold masked_salary, salary_ok. destruct (raw_salary r) as [|z'|s]; cbn.
  - split; [discriminate | intros [? _]; discriminate].
  - destruct (z' <? 60000) eqn:E1; destruct (z' >? 200000) eqn:E2; cbn;
      (split; [intros [= <-] | intros [[= <-] ?]]); try split; try reflexivity; lia.
  - split; [discriminate | intros [? _]; discriminate].
Qed.

Lemma masked_salary_None r :
  masked_salary r = None <->
  raw_salary r = NumNull \/ (exists s, raw_salary r = NumText s)
  \/ (exists z, raw_salary r = NumVal z /\ (z < 60000 \/ 200000 < z)).
Proof.
  unfold masked_salary. destruct (raw_salary r) as [|z|s]; cbn.
  - split; [left; reflexivity | reflexivity].
  - destruct (z <? 60000) eqn:E1; destruct (z >? 200000) eqn:E2; cbn; split;
      try reflexivity; try discriminate;
      try (intros _; right; right; exists z; split; [reflexivity | lia]).
    intros [H|[[s H]|(z' & [= <-] & H)]]; [discriminate | discriminate | lia].
  - split; [right; left; eexists; reflexivity | reflexivity].
Qed.

Lemma masked_start_date_Some r d :
  masked_start_date r = Some d <-> raw_start_date r = DateVal d /\ date_ok d.
Proof.
  unfold masked_start_date, date_ok, date_le, date_leb.
  destruct (raw_start_date r) as [|d'|s]; cbn.
  - split; [discriminate | intros [? _]; discriminate].
  - destruct (date_ltb d' (Date 2015 1 1)) eqn:E1;
      destruct (date_ltb (Date 2024 12 31) d') eqn:E2; cbn;
      (split; [intros [= <-] | intros [[= <-] [H1 H2]]]);
      rewrite ?E1, ?E2 in *; cbn in *; try discriminate; auto.
  - split; [discriminate | intros [? _]; discriminate].
Qed.

Lemma elem_of_dropna {A} (col : list (option A)) x :
  x ∈ dropna col <-> Some x ∈ col.
Proof.
  unfold dropna. rewrite list_elem_of_omap. split.
  - intros (o & Ho & E). cbn in E. subst o. exact Ho.
  - intros H. exists (Some x). split; [exact H | reflexivity].
Qed.

Lemma elem_of_map {A B} (f : A -> B) l y :
  y ∈ map f l <-> exists x, y = f x /\ x ∈ l.
Proof.
  rewrite list_elem_of_In, in_map_iff. split; intros (x & H1 & H2); exists x.
  - split; [congruence | apply list_elem_of_In, H2].
  - split; [congruence | apply list_elem_of_In, H2].
Qed.

Lemma valid_salaries_ok df :
  Forall (fun z => 60000 <= z <= 200000) (dropna (map masked_salary df)).
Proof.
  apply Forall_forall. intros z Hz.
  apply elem_of_dropna, elem_of_map in Hz as (r & E & _).
  symmetry in E. apply masked_salary_Some in E as [_ H]. exact H.
Qed.

(** The median used by [clean], cast to int, is a valid salary. *)
Lemma median_ok df q :
  median (map masked_salary df) = Some q -> salary_ok (trunc q).
Proof. apply median_bounds, valid_salaries_ok. Qed.


(** The date that fills the holes is in range. *)
Lemma fill_dt_ok df : date_ok (fill_dt df).
Proof.
  unfold fill_dt.
  destruct (dropna (map masked_start_date df)) as [|d v] eqn:E.
  - split; reflexivity.
  - destruct (mode_iloc0 (Date 2019 1 1) (map masked_start_date df)) as [Hin _].
    { rewrite E. discriminate. }
    apply elem_of_dropna, elem_of_map in Hin as (r & Er & _).
    symmetry in Er. apply masked_start_date_Some in Er as [_ H]. exact H.
Qed.

(** *** One row

    What [clean_row] returns, column by column. *)
Lemma clean_row_Ok {u : PyStr.Ucd} med fill r c :
  clean_row u med fill r = Ok c ->
  employee_id c = raw_employee_id r
  /\ department_id c = raw_department_id r
  /\ is_dirty c = raw_is_dirty r
  /\ name c = fillna (Some "Unknown"%string) (raw_name r)
  /\ position c
     = (fun s => PyStr.title u (PyStr.strip s))
         <$> fillna (Some (PyStr.of_string "Unknown")) (raw_position r)
  /\ start_date c = Some (default fill (masked_start_date r))
  /\ match masked_salary r with
     | Some z => salary c = z
     | None => exists q, med = Some q /\ salary c = trunc q
     end
  /\ issue_missing_name c = isna (raw_name r)
  /\ issue_missing_position c = isna (raw_position r)
  /\ issue_missing_start_date c = date_isna (raw_start_date r)
  /\ issue_missing_salary c = num_isna (raw_salary r)
  /\ issue_invalid_salary c = invalid_salary (to_numeric (raw_salary r))
  /\ issue_invalid_start_date c = invalid_start_date (to_datetime (raw_start_date r))
  /\ has_any_issue c
     = issue_missing_name c || issue_missing_position c
       || issue_missing_start_date c || issue_missing_salary c
       || issue_invalid_salary c || issue_invalid_start_date c.
Proof.
  unfold clean_row, masked_salary, masked_start_date.
  destruct (astype_int _) as [s|e] eqn:Hs; cbn [rbind]; [|discriminate].
  intros [= <-]. cbn.
  repeat (split; [reflexivity|]).
  split; [|split; [|repeat split]].
  - destruct (invalid_start_date _); [reflexivity|].
    destruct (to_datetime _); reflexivity.
  - destruct (invalid_salary _).
    + cbn in Hs. destruct med as [q|]; cbn in Hs; [|discriminate].
      injection Hs as <-. eexists; split; reflexivity.
    + destruct (to_numeric _) as [z|]; cbn in Hs.
      * injection Hs as <-. apply trunc_inject_Z.
      * destruct med as [q|]; cbn in Hs; [|discriminate].
        injection Hs as <-. eexists; split; reflexivity.
Qed.


Lemma clean_row_Raise {u : PyStr.Ucd} fill r :
  masked_salary r = None -> clean_row u None fill r = Raise IntCastingNaNError.
Proof.
  unfold clean_row, masked_salary.
  destruct (invalid_salary _); [reflexivity|].
  destruct (to_numeric _); [discriminate | reflexivity].
Qed.

Lemma clean_rows {u : PyStr.Ucd} df out :
  clean u df = Ok out ->
  Forall2 (fun r c => clean_row u (median (map masked_salary df)) (fill_dt df) r = Ok c)
          df out.
Proof. apply rmap_Ok. Qed.


(** *** The cleaned record *)

Lemma clean_length {u : PyStr.Ucd} df out : clean u df = Ok out -> length out = length df.
Proof. intros H. apply clean_rows, Forall2_length in H. congruence. Qed.

Lemma clean_lookup {u : PyStr.Ucd} df out i r c :
  clean u df = Ok out -> df !! i = Some r -> out !! i = Some c ->
  clean_row u (median (map masked_salary df)) (fill_dt df) r = Ok c.
Proof.
  intros H Hr Hc. apply clean_rows in H.
  exact (Forall2_lookup_lr _ _ _ _ _ _ H Hr Hc).
Qed.

Lemma cleaned_salary_ok {u : PyStr.Ucd} df out i r c :
  clean u df = Ok out -> df !! i = Some r -> out !! i = Some c ->
  salary_ok (salary c).
Proof.
  intros H Hr Hc. pose proof (clean_lookup _ _ _ _ _ H Hr Hc) as Hrow.
  apply clean_row_Ok in Hrow as (_ & _ & _ & _ & _ & _ & Hs & _).
  destruct (masked_salary r) as [z|] eqn:E.
  - apply masked_salary_Some in E as [_ Hz]. rewrite Hs. exact Hz.
  - destruct Hs as (q & Hq & ->). apply (median_ok df), Hq.
Qed.

Lemma cleaned_start_date_ok {u : PyStr.Ucd} df out i r c :
  clean u df = Ok out -> df !! i = Some r -> out !! i = Some c ->
  exists d, start_date c = Some d /\ date_ok d.
Proof.
  intros H Hr Hc. pose proof (clean_lookup _ _ _ _ _ H Hr Hc) as Hrow.
  apply clean_row_Ok in Hrow as (_ & _ & _ & _ & _ & Hd & _).
  eexists; split; [exact Hd|].
  destruct (masked_start_date r) as [d|] eqn:E; cbn.
  - apply masked_start_date_Some in E as [_ Hok]. exact Hok.
  - apply fill_dt_ok.
Qed.





(** *** Salaries *)

(** The middle of a sorted list of values, as [Series.median] takes it. *)
Definition middle (v : list Z) : Q :=
  let n := length v in
  if Nat.odd n then inject_Z (nth (n / 2) v 0)
  else Qmake (nth (n / 2 - 1) v 0 + nth (n / 2) v 0) 2.

(** C4 (as amended).  In every frame that [clean] returns, a salary that
    coerces to a number of [60000, 200000] is kept, and every other salary
    (null, unparseable, or out of range) is replaced by the median of the
    valid salaries of the batch, the middle of their sorted list, with its
    fraction dropped when it has one (a cast to int, not a rounding). *)
Theorem C4_median_imputation (u : PyStr.Ucd) (df : list RawEmployee) (out : list CleanEmployee)
    (i : nat) (r : RawEmployee) (c : CleanEmployee) :
  clean u df = Ok out -> df !! i = Some r -> out !! i = Some c ->
  (forall z, raw_salary r = NumVal z -> 60000 <= z <= 200000 -> salary c = z)
  /\ (raw_salary r = NumNull
      \/ (exists s, raw_salary r = NumText s)
      \/ (exists z, raw_salary r = NumVal z /\ (z < 60000 \/ 200000 < z)) ->
      exists v,
        Permutation v (dropna (map masked_salary df))
        /\ StronglySorted Z.le v
        /\ v <> []
        /\ salary c = Z.quot (Qnum (middle v)) (Zpos (Qden (middle v)))).
Proof.
  intros Hout Hr Hc.
  pose proof (clean_lookup _ _ _ _ _ Hout Hr Hc) as Hrow.
  apply clean_row_Ok in Hrow as (_ & _ & _ & _ & _ & _ & Hs & _).
  split.
  - intros z Hraw Hz.
    assert (E : masked_salary r = Some z)
      by (apply masked_salary_Some; split; assumption).
    rewrite E in Hs. exact Hs.
  - intros Hhole. apply masked_salary_None in Hhole. rewrite Hhole in Hs.
    destruct Hs as (q & Hq & Hsal).
    destruct (median_Some _ _ Hq) as (v & Hperm & Hsorted & Eq).
    exists v. split; [exact Hperm|]. split; [exact Hsorted|]. split.
    + intros ->. apply Permutation_nil in Hperm.
      apply median_None in Hperm. congruence.
    + rewrite Hsal. unfold trunc, middle. rewrite Eq. reflexivity.
Qed.

(** The batch of the specification: 70000, 80000, 500000 and a missing
    salary. *)
Definition frame_C4 : list RawEmployee :=
  map (row (Some "Ada"%string) (Some "Data Analyst"%string)
           (DateVal (Date 2016 1 1)))
      [NumVal 70000; NumVal 80000; NumVal 500000; NumNull].

Example clean_frame_C4 :
  exists out, clean PyStr.excerpt frame_C4 = Ok out
              /\ map salary out = [70000; 80000; 75000; 75000]
              /\ map issue_invalid_salary out = [false; false; true; false]
              /\ map issue_missing_salary out = [false; false; false; true].
Proof. eexists. split; [vm_compute; reflexivity|]. repeat split. Qed.

(** The frame that [clean] returns, for the examples. *)
Definition cleaned (df : list RawEmployee) : list CleanEmployee :=
  match clean PyStr.excerpt df with Ok out => out | Raise _ => [] end.

Lemma C4_median_imputation_witness :
  exists c v,
    cleaned frame_C4 !! 3%nat = Some c
    /\ Permutation v (dropna (map masked_salary frame_C4))
    /\ StronglySorted Z.le v
    /\ v <> []
    /\ salary c = Z.quot (Qnum (middle v)) (Zpos (Qden (middle v))).
Proof.
  pose proof (C4_median_imputation PyStr.excerpt frame_C4 (cleaned frame_C4) 3
                (row (Some "Ada"%string) (Some "Data Analyst"%string)
                     (DateVal (Date 2016 1 1)) NumNull)) as H.
  eexists.
  edestruct H as [_ (v & Hv)];
    [vm_compute; reflexivity | reflexivity | reflexivity | left; reflexivity |].
  exists v. split; [reflexivity | exact Hv].
Defined.

(** The words of the specification, "rounded to the nearest integer", in
    the two usual readings of a tie: to the even neighbour (Python's
    [round], numpy, pandas) and upwards. *)
Definition round_half_up (q : Q) : Z := Qfloor (q + (1 # 2)).

Definition round_half_even (q : Q) : Z :=
  let f := Qfloor q in
  match Qcompare (q - inject_Z f) (1 # 2) with
  | Lt => f
  | Gt => f + 1
  | Eq => if Z.even f then f else f + 1
  end.

(** C4 as stated fails: with the valid salaries 70001 and 80002 the median
    is 75001.5; the missing salary becomes 75001, and both roundings of
    the median give 75002. *)
Lemma C4_counterexample_truncation :
  let df := map (row (Some "Ada"%string) (Some "Data Analyst"%string)
                     (DateVal (Date 2016 1 1)))
                [NumVal 70001; NumVal 80002; NumNull] in
  median (map masked_salary df) = Some (150003 # 2)
  /\ (exists out, clean PyStr.excerpt df = Ok out /\ map salary out = [70001; 80002; 75001])
  /\ round_half_even (150003 # 2) = 75002
  /\ round_half_up (150003 # 2) = 75002.
Proof.
  split; [reflexivity|]. split; [|split; reflexivity].
  eexists. split; [vm_compute; reflexivity | reflexivity].
Qed.

(** *** Start dates *)



(** The batch of the specification: 2016-01-01 twice, 2020-05-05 and a
    missing date. *)
Definition frame_C5 : list RawEmployee :=
  map (fun d => row (Some "Ada"%string) (Some "Data Analyst"%string) d (NumVal 70000))
      [DateVal (Date 2016 1 1); DateVal (Date 2016 1 1);
       DateVal (Date 2020 5 5); DateNull].

Example clean_frame_C5 :
  map start_date (cleaned frame_C5)
  = [Some (Date 2016 1 1); Some (Date 2016 1 1);
     Some (Date 2020 5 5); Some (Date 2016 1 1)]
  /\ clean PyStr.excerpt frame_C5 = Ok (cleaned frame_C5).
Proof. split; vm_compute; reflexivity. Qed.




(** *** Salary flags *)

(** C8 (as amended).  In every frame that [clean] returns,
    [issue_missing_salary] is true exactly for the salaries that are null
    before the coercion, and [issue_invalid_salary] exactly for those that
    coerce to a number below 60000 or above 200000 (the range is checked on
    the coerced value); a salary that fails the coercion carries neither
    flag, and is filled with the median like the flagged ones. *)
Theorem C8_missing_versus_invalid (u : PyStr.Ucd) (df : list RawEmployee)
    (out : list CleanEmployee) (i : nat) (r : RawEmployee) (c : CleanEmployee) :
  clean u df = Ok out -> df !! i = Some r -> out !! i = Some c ->
  (issue_missing_salary c = true <-> raw_salary r = NumNull)
  /\ (issue_invalid_salary c = true <->
      exists z, raw_salary r = NumVal z /\ (z < 60000 \/ 200000 < z))
  /\ (forall s, raw_salary r = NumText s ->
        issue_missing_salary c = false /\ issue_invalid_salary c = false
        /\ exists q, median (map masked_salary df) = Some q
                     /\ salary c = trunc q).
Proof.
  intros Hout Hr Hc.
  pose proof (clean_lookup _ _ _ _ _ Hout Hr Hc) as Hrow.
  apply clean_row_Ok in Hrow
    as (_ & _ & _ & _ & _ & _ & Hs & _ & _ & _ & Hm & Hi & _).
  rewrite Hm, Hi. unfold masked_salary in Hs.
  destruct (raw_salary r) as [|z|s]; cbn in *.
  - split; [split; reflexivity|]. split; [|discriminate].
    split; [discriminate | intros (z & [=] & _)].
  - split; [split; discriminate|]. split; [|discriminate].
    split.
    + intros H. exists z. split; [reflexivity | lia].
    + intros (z' & [= <-] & H). lia.
  - split; [split; discriminate|]. split.
    + split; [discriminate | intros (z & [=] & _)].
    + intros s' _. split; [reflexivity|]. split; [reflexivity | exact Hs].
Qed.

Definition frame_C8 : list RawEmployee :=
  map (row (Some "Ada"%string) (Some "Data Analyst"%string)
           (DateVal (Date 2016 1 1)))
      [NumVal 70000; NumText "abc"; NumVal 500000; NumNull].

Lemma C8_missing_versus_invalid_witness :
  exists c,
    cleaned frame_C8 !! 2%nat = Some c
    /\ issue_invalid_salary c = true /\ issue_missing_salary c <> true.
Proof.
  pose proof (C8_missing_versus_invalid PyStr.excerpt frame_C8 (cleaned frame_C8) 2
                (row (Some "Ada"%string) (Some "Data Analyst"%string)
                     (DateVal (Date 2016 1 1)) (NumVal 500000))) as H.
  eexists.
  edestruct H as (Hmiss & Hinv & _);
    [vm_compute; reflexivity | reflexivity | reflexivity |].
  split; [reflexivity|]. split.
  - apply Hinv. exists 500000. split; [reflexivity | right; lia].
  - intros E. apply Hmiss in E. discriminate E.
Defined.

(** C8 as stated fails: the salary "abc" fails the coercion, yet
    [issue_missing_salary] is false for it (and so is every other flag of
    the row), while its salary is filled with the median. *)
Lemma C8_counterexample_unparseable :
  let df := map (row (Some "Ada"%string) (Some "Data Analyst"%string)
                     (DateVal (Date 2016 1 1)))
                [NumVal 70000; NumText "abc"] in
  clean PyStr.excerpt df = Ok (cleaned df)
  /\ map issue_missing_salary (cleaned df) = [false; false]
  /\ map has_any_issue (cleaned df) = [false; false]
  /\ map salary (cleaned df) = [70000; 70000].
Proof. repeat split; vm_compute; reflexivity. Qed.

(** *** No valid salary *)

Definition no_valid_salary (df : list RawEmployee) : Prop :=
  forall r z, r ∈ df -> raw_salary r = NumVal z -> ~ (60000 <= z <= 200000).

Lemma no_valid_salary_masked df :
  no_valid_salary df <-> forall r, r ∈ df -> masked_salary r = None.
Proof.
  split.
  - intros H r Hr. destruct (masked_salary r) as [z|] eqn:E; [|reflexivity].
    apply masked_salary_Some in E as [Hraw Hz]. destruct (H r z Hr Hraw Hz).
  - intros H r z Hr Hraw Hz.
    assert (E : masked_salary r = Some z)
      by (apply masked_salary_Some; split; assumption).
    rewrite (H r Hr) in E. discriminate.
Qed.

Lemma median_no_valid df :
  (forall r, r ∈ df -> masked_salary r = None) ->
  median (map masked_salary df) = None.
Proof.
  intros H. apply median_None.
  destruct (dropna (map masked_salary df)) as [|z v] eqn:E; [reflexivity|].
  assert (Hz : z ∈ dropna (map masked_salary df)) by (rewrite E; left).
  apply elem_of_dropna, elem_of_map in Hz as (r & Er & Hr).
  rewrite (H r Hr) in Er. discriminate.
Qed.

(** C9.  If a batch (with a row to clean) contains no salary of
    [60000, 200000], [clean] does not fill the missing and invalid
    salaries with a constant: it raises, the cast to int refusing the NaN
    that the median of no value is. *)
Theorem C9_no_valid_salary_raises (u : PyStr.Ucd) (df : list RawEmployee) :
  df <> [] ->
  (forall r z, r ∈ df -> raw_salary r = NumVal z -> ~ (60000 <= z <= 200000)) ->
  clean u df = Raise IntCastingNaNError.
Proof.
  intros Hne Hno.
  pose proof (proj1 (no_valid_salary_masked df) Hno) as Hm.
  unfold clean. rewrite (median_no_valid df Hm).
  apply rmap_Raise; [exact Hne|].
  intros r Hr. apply clean_row_Raise, Hm, Hr.
Qed.

Definition frame_C9 : list RawEmployee :=
  map (row (Some "Ada"%string) (Some "Data Analyst"%string)
           (DateVal (Date 2016 1 1)))
      [NumVal 500000; NumNull; NumText "abc"].

Lemma C9_no_valid_salary_raises_witness :
  clean PyStr.excerpt frame_C9 = Raise IntCastingNaNError.
Proof.
  apply (C9_no_valid_salary_raises PyStr.excerpt frame_C9); [discriminate|].
  intros r z Hr Hraw.
  apply elem_of_cons in Hr as [->|Hr]; [injection Hraw as <-; lia|].
  apply elem_of_cons in Hr as [->|Hr]; [discriminate Hraw|].
  apply elem_of_cons in Hr as [->|Hr]; [discriminate Hraw|].
  apply elem_of_nil in Hr as [].
Defined.



(** A frame without rows has nothing to fill, and is returned as it
    is. *)
Example clean_no_rows : clean PyStr.excerpt [] = Ok [].
Proof. reflexivity. Qed.

(** *** A second run *)

Definition same_fields (c c' : CleanEmployee) : Prop :=
  employee_id c' = employee_id c /\ name c' = name c
  /\ position c' = position c /\ start_date c' = start_date c
  /\ salary c' = salary c /\ department_id c' = department_id c
  /\ is_dirty c' = is_dirty c.

Definition no_issue (c : CleanEmployee) : Prop :=
  issue_missing_name c = false /\ issue_missing_position c = false
  /\ issue_missing_start_date c = false /\ issue_missing_salary c = false
  /\ issue_invalid_salary c = false /\ issue_invalid_start_date c = false
  /\ has_any_issue c = false.

(** The positions of the batch are made of simple characters. *)
Definition simple_positions (u : PyStr.Ucd) (df : list RawEmployee) : Prop :=
  forall r p, r ∈ df -> raw_position r = Some p ->
              Forall (PyStrFacts.simple u) p.

(** A cleaned row, read again, is returned as it is with its flags down,
    whatever the statistics of the second run are, when its position is
    made of simple characters. *)
Lemma clean_row_again {u : PyStr.Ucd} med fill r c med' fill' :
  clean_row u med fill r = Ok c ->
  (forall p, raw_position r = Some p -> Forall (PyStrFacts.simple u) p) ->
  salary_ok (salary c) -> (exists d, start_date c = Some d /\ date_ok d) ->
  exists c', clean_row u med' fill' (as_input c) = Ok c'
             /\ same_fields c c' /\ no_issue c'.
Proof.
  intros Hrow Hsimple Hs (d & Hd & Hd1 & Hd2).
  apply clean_row_Ok in Hrow as (_ & _ & _ & Hn & Hp & _).
  unfold clean_row, as_input. cbn.
  assert (Ei : invalid_salary (Some (salary c)) = false).
  { unfold salary_ok in Hs. cbn. lia. }
  cbn in Ei. rewrite Ei. cbn. rewrite trunc_inject_Z.
  rewrite Hd. cbn.
  unfold date_le, date_leb in Hd1, Hd2.
  apply negb_true_iff in Hd1, Hd2. rewrite Hd1, Hd2. cbn.
  eexists. split; [reflexivity|].
  unfold same_fields, no_issue. cbn.
  assert (En : exists s, name c = Some s).
  { rewrite Hn. destruct (raw_name r); eexists; reflexivity. }
  assert (Ep : exists s, position c = Some (PyStr.title u (PyStr.strip s))
                         /\ Forall (PyStrFacts.simple u) s).
  { rewrite Hp. destruct (raw_position r) as [p|].
    - exists p. split; [reflexivity | apply Hsimple; reflexivity].
    - exists (PyStr.of_string "Unknown"). split; [reflexivity|].
      apply PyStrFacts.of_string_simple. reflexivity. }
  destruct En as [n En], Ep as (p & Ep & Hsp). rewrite En, Ep. cbn.
  rewrite (PyStrFacts.title_strip_idem u p Hsp).
  repeat split; first [reflexivity | symmetry; assumption].
Qed.

(** C10 (as amended).  For every batch that [clean] cleans and whose
    positions are made of simple characters (characters, such as those of
    ASCII text, whose lower case and title case are single characters
    that [str.title] writes back unchanged), a second run on the returned
    frame succeeds and returns, row by row, the same values of all seven
    fields, with every [issue_*] flag and [has_any_issue] false. *)
Theorem C10_idempotence (u : PyStr.Ucd) (df : list RawEmployee)
    (out : list CleanEmployee) :
  clean u df = Ok out ->
  simple_positions u df ->
  exists out2,
    clean u (map as_input out) = Ok out2
    /\ Forall2 (fun c c2 => same_fields c c2 /\ no_issue c2) out out2.
Proof.
  intros Hout Hsimple.
  assert (Hall : forall i c, out !! i = Some c ->
            exists c', clean_row u (median (map masked_salary (map as_input out)))
                                 (fill_dt (map as_input out)) (as_input c) = Ok c'
                       /\ same_fields c c' /\ no_issue c').
  { intros i c Hc.
    pose proof (clean_length _ _ Hout) as Hlen.
    destruct (df !! i) as [r|] eqn:Hr.
    - eapply clean_row_again.
      + exact (clean_lookup _ _ _ _ _ Hout Hr Hc).
      + intros p Hp. apply (Hsimple r p); [|exact Hp].
        apply list_elem_of_lookup. eauto.
      + exact (cleaned_salary_ok _ _ _ _ _ Hout Hr Hc).
      + exact (cleaned_start_date_ok _ _ _ _ _ Hout Hr Hc).
    - apply lookup_ge_None in Hr. apply lookup_lt_Some in Hc. lia. }
  clear Hout. unfold clean.
  generalize dependent (median (map masked_salary (map as_input out))).
  generalize (fill_dt (map as_input out)).
  intros fill med Hall.
  induction out as [|c out IH].
  - exists []. split; [reflexivity | constructor].
  - destruct (Hall O c eq_refl) as (c' & Hc' & Hsame & Hno).
    destruct IH as (out2 & Hout2 & HF).
    { intros i x Hx. exact (Hall (S i) x Hx). }
    exists (c' :: out2). split.
    + cbn. rewrite Hc'. cbn. rewrite Hout2. reflexivity.
    + constructor; [split; assumption | exact HF].
Qed.

Lemma frame_C8_simple : simple_positions PyStr.excerpt frame_C8.
Proof.
  intros r p Hr Hp.
  repeat (apply elem_of_cons in Hr as [->|Hr];
          [injection Hp as <-; apply PyStrFacts.of_string_simple; reflexivity|]).
  apply elem_of_nil in Hr as [].
Defined.

Lemma C10_idempotence_witness :
  exists out2,
    clean PyStr.excerpt (map as_input (cleaned frame_C8)) = Ok out2
    /\ Forall2 (fun c c2 => same_fields c c2 /\ no_issue c2)
               (cleaned frame_C8) out2.
Proof.
  apply (C10_idempotence PyStr.excerpt frame_C8 (cleaned frame_C8)).
  - vm_compute. reflexivity.
  - exact frame_C8_simple.
Defined.

(** The position DİREKTÖR: D, I WITH DOT ABOVE (U+0130), R, E, K, T,
    O WITH DIAERESIS (U+00D6), R. *)
Definition frame_C10 : list RawEmployee :=
  [ {| raw_employee_id := NumVal 100; raw_name := Some "Ada"%string;
       raw_position := Some [0x44; 0x130; 0x52; 0x45; 0x4B; 0x54; 0xD6; 0x52]%N;
       raw_start_date := DateVal (Date 2016 1 1);
       raw_salary := NumVal 70000;
       raw_department_id := NumVal 1; raw_is_dirty := Some false |} ].

(** C10 as stated fails on text outside ASCII.  The lower case of İ is i
    followed by the combining dot above (U+0307), which is not cased: the
    first run returns Di̇rektör, and the second run, reading the dot as the
    end of a word, puts the r that follows it in upper case and returns
    Di̇Rektör. *)
Lemma C10_counterexample_dotted_capital :
  exists c c2,
    clean PyStr.excerpt frame_C10 = Ok [c]
    /\ clean PyStr.excerpt (map as_input [c]) = Ok [c2]
    /\ position c
       = Some [0x44; 0x69; 0x307; 0x72; 0x65; 0x6B; 0x74; 0xF6; 0x72]%N
    /\ position c2
       = Some [0x44; 0x69; 0x307; 0x52; 0x65; 0x6B; 0x74; 0xF6; 0x72]%N
    /\ position c2 <> position c.
Proof.
  eexists _, _. split; [vm_compute; reflexivity|].
  split; [vm_compute; reflexivity|].
  split; [reflexivity|]. split; [reflexivity|]. discriminate.
Qed.

End CleaningSpec.

(** ** Facts on the connection and the loaders *)

Module DbFacts.
Import Pandas Db.
Local Open Scope db_scope.

(** The connection is idle: no transaction is open. *)
Definition idle (c : Conn) : Prop := failed c = false /\ working c = committed c.

Definition exec_employee (r : EmployeeTuple) : Event := Execute (InsertEmployee r).

(** The lines printed so far. *)
Definition printed (tr : list Event) : list Line :=
  omap (fun ev => match ev with Print l => Some l | _ => None end) tr.

(** The first tuple, in order, whose statement raises, with its index and
    the error, when the statements run one after the other from [t]. *)
Fixpoint first_failure (i : nat) (t : Tables) (rows : list EmployeeTuple)
  : option (nat * EmployeeTuple * PgError) :=
  match rows with
  | [] => None
  | r :: rows' =>
      match insert_employee t r with
      | inl e => Some (i, r, e)
      | inr t' => first_failure (S i) t' rows'
      end
  end.

(** The tables after the statements of [rows] have all run from [t]
    (used when none of them raises). *)
Fixpoint run_employees (t : Tables) (rows : list EmployeeTuple) : Tables :=
  match rows with
  | [] => t
  | r :: rows' =>
      match insert_employee t r with
      | inr t' => run_employees t' rows'
      | inl _ => t
      end
  end.

(** The row that a tuple is stored as, when its three integers are
    accepted. *)
Definition stored (r : EmployeeTuple) : option EmployeeRow :=
  match int4 (t_employee_id r), int4 (t_salary r), int4 (t_department_id r) with
  | Some id, Some s, Some d => Some (employee_row id s d r)
  | _, _, _ => None
  end.

(** The row of the first tuple of the batch with the key [id]. *)
Definition first_with_id (id : Z) (rows : list EmployeeTuple) : option EmployeeRow :=
  List.find (fun r => bool_decide (t_employee_id r = PNum id)) rows ≫= stored.

(** The first statement of [qs], in order, that raises when they are
    sent one after the other on [c], with its index and the error. *)
Fixpoint first_error (i : nat) (qs : list Sql) (c : Conn)
  : option (nat * Sql * PgError) :=
  match qs with
  | [] => None
  | q :: qs' =>
      match execute q c with
      | (Ok _, c') => first_error (S i) qs' c'
      | (Raise (DatabaseError e), _) => Some (i, q, e)
      | (Raise IntCastingNaNError, _) => None
      end
  end.

(** The body of the loop of [insert_employees_df]. *)
Definition retry_row (i : nat) (r : EmployeeTuple) : M unit :=
  try_except (execute (InsertEmployee r))
    (fun e' =>
       rollback ;;
       print (BadRowIndex i) ;;
       print (BadRowValues r) ;;
       raise e').

(** The shape shared by [insert_projects_df] and
    [insert_employee_projects_df]. *)
Definition guarded {R} (sql : R -> Sql) (rows : list R) : M unit :=
  try_except (executemany sql rows) (fun e => rollback ;; raise e) ;;
  commit.

(** *** Data for the examples *)

(** Tables with one department and nothing else. *)
Definition seeded : Tables :=
  {| departments := {[ "Security"%string := (1, "Toronto"%string, 1800000) ]};
     employees := ∅; projects := ∅; employee_projects := ∅ |}.

(** An employee row: its key and its department. *)
Definition employee (id dept : NumCell) : EmployeeFrameRow :=
  {| df_employee_id := id; df_name := Some "Ada"%string;
     df_position := Some (PyStr.of_string "Data Analyst");
     df_start_date := DateVal (Date 2016 1 1);
     df_salary := NumVal 70000; df_department_id := dept;
     df_is_dirty := Some false |}.

(** The row that [employee (NumVal id) (NumVal dept)] is stored as. *)
Definition ada (id dept : Z) : EmployeeRow :=
  {| employee_id := Some id; name := Some "Ada"%string;
     position := Some (PyStr.of_string "Data Analyst");
     start_date := Some (Date 2016 1 1);
     salary := Some 70000; department_id := Some dept;
     is_dirty := Some false |}.

(** A project row: its name and its budget. *)
Definition project (n : string) (budget : NumCell) : ProjectFrameRow :=
  (Some n, Some "Internal"%string, DateVal (Date 2020 1 1),
   DateVal (Date 2021 6 30), budget).

(** Tables with one row in each table. *)
Definition tables1 : Tables :=
  {| departments := {[ "Security"%string := (1, "Toronto"%string, 1800000) ]};
     employees := {[ 100 := ada 100 1 ]};
     projects := {[ "Atlas"%string
                    := (1, "Internal"%string, Date 2020 1 1, None, 1000) ]};
     employee_projects := {[ (100, 1) := Some "Lead"%string ]} |}.

(** A row with the stored key 100, and the key 101 twice. *)
Definition batch_dup : list EmployeeFrameRow :=
  [ {| df_employee_id := NumVal 100; df_name := Some "Eve"%string;
       df_position := None; df_start_date := DateNull;
       df_salary := NumVal 90000; df_department_id := NumVal 1;
       df_is_dirty := Some true |};
    employee (NumVal 101) (NumVal 1);
    {| df_employee_id := NumVal 101; df_name := Some "Bob"%string;
       df_position := None; df_start_date := DateNull;
       df_salary := NumVal 90000; df_department_id := NumVal 1;
       df_is_dirty := Some true |} ].

(** *** One statement *)

Definition after_ok (c : Conn) (r : EmployeeTuple) (t' : Tables) : Conn :=
  {| committed := committed c; working := t'; failed := false;
     departments_seq := departments_seq c;
     projects_seq := projects_seq c;
     trace := trace c ++ [exec_employee r] |}.

Lemma execute_employee_ok c r t' :
  failed c = false -> insert_employee (working c) r = inr t' ->
  execute (InsertEmployee r) c = (Ok tt, after_ok c r t').
Proof.
  intros Hf Hi. unfold execute, emit. cbn. rewrite Hf, Hi. reflexivity.
Qed.

Lemma execute_employee_fail c r e :
  failed c = false -> insert_employee (working c) r = inl e ->
  execute (InsertEmployee r) c
  = (Raise (DatabaseError e),
     {| committed := committed c; working := working c; failed := true;
        departments_seq := departments_seq c;
        projects_seq := projects_seq c;
        trace := trace c ++ [exec_employee r] |}).
Proof.
  intros Hf Hi. unfold execute, emit. cbn. rewrite Hf, Hi. reflexivity.
Qed.

(** [execute] never touches what is committed. *)
Lemma execute_committed q c :
  committed (snd (execute q c)) = committed c.
Proof.
  unfold execute, emit. cbn. destruct (failed c); [reflexivity|].
  destruct q; cbn;
    match goal with |- context [match ?x with inl _ => _ | inr _ => _ end] =>
      destruct x end; reflexivity.
Qed.

Lemma executemany_committed {R} (sql : R -> Sql) rows :
  forall c, committed (snd (executemany sql rows c)) = committed c.
Proof.
  induction rows as [|r rows IH]; intros c; [reflexivity|].
  cbn. unfold bind.
  pose proof (execute_committed (sql r) c) as H.
  destruct (execute (sql r) c) as [[[]|e] c1]; cbn in *.
  - rewrite IH. exact H.
  - exact H.
Qed.

(** [execute] raises errors of the server only. *)
Lemma execute_raise q c x c' :
  execute q c = (Raise x, c') -> exists e, x = DatabaseError e.
Proof.
  unfold execute. cbn. destruct (failed c).
  - intros [= <- _]. eauto.
  - destruct (run_sql q _) as [[e|t'] c1]; intros [= <- _]. eauto.
Qed.

Lemma execute_trace q c : trace (snd (execute q c)) = trace c ++ [Execute q].
Proof.
  unfold execute, emit. cbn. destruct (failed c); [reflexivity|].
  destruct q; cbn;
    match goal with |- context [match ?x with inl _ => _ | inr _ => _ end] =>
      destruct x end; reflexivity.
Qed.

Lemma executemany_trace {R} (sql : R -> Sql) rows :
  forall c, exists k,
    trace (snd (executemany sql rows c))
    = trace c ++ map (fun r => Execute (sql r)) (take k rows).
Proof.
  induction rows as [|r rows IH]; intros c.
  - exists O. cbn. rewrite app_nil_r. reflexivity.
  - cbn [executemany]. unfold bind.
    pose proof (execute_trace (sql r) c) as H.
    destruct (execute (sql r) c) as [[[]|e] c1]; cbn in H.
    + destruct (IH c1) as [k Hk]. exists (S k).
      rewrite Hk, H, <- app_assoc. reflexivity.
    + exists 1%nat. cbn. rewrite take_0. exact H.
Qed.

Lemma execute_raise_failed q c e c' :
  execute q c = (Raise e, c') -> failed c' = true.
Proof.
  unfold execute, emit. cbn. destruct (failed c) eqn:Hf.
  - intros [= _ <-]. reflexivity.
  - destruct (run_sql q _) as [[err|t'] c1]; intros [= _ <-]; reflexivity.
Qed.

Lemma execute_ok_failed q c c' :
  execute q c = (Ok tt, c') -> failed c' = false.
Proof.
  unfold execute, emit. cbn. destruct (failed c) eqn:Hf; [discriminate|].
  destruct (run_sql q _) as [[err|t'] c1]; [discriminate|].
  intros [= <-]. reflexivity.
Qed.

Lemma executemany_raise_failed {R} (sql : R -> Sql) rows :
  forall c e c', executemany sql rows c = (Raise e, c') -> failed c' = true.
Proof.
  induction rows as [|r rows IH]; intros c e c'; cbn; [discriminate|].
  unfold bind. destruct (execute (sql r) c) as [[[]|e1] c1] eqn:Hx.
  - apply IH.
  - intros [= _ <-]. exact (execute_raise_failed _ _ _ _ Hx).
Qed.

Lemma executemany_on_failed {R} (sql : R -> Sql) r rows c :
  failed c = true ->
  executemany sql (r :: rows) c
  = (Raise (DatabaseError InFailedSqlTransaction), emit (Execute (sql r)) c).
Proof.
  intros Hf. cbn. unfold bind, execute. cbn. rewrite Hf. reflexivity.
Qed.

(** *** The first statement that raises *)


Lemma executemany_no_error {R} (sql : R -> Sql) rows :
  forall c i0,
    first_error i0 (map sql rows) c = None ->
    exists c', executemany sql rows c = (Ok tt, c').
Proof.
  induction rows as [|r rows IH]; intros c i0 H; cbn in H.
  - exists c. reflexivity.
  - cbn [executemany]. unfold bind.
    destruct (execute (sql r) c) as [[[]|x] c1] eqn:Hx.
    + exact (IH c1 (S i0) H).
    + destruct (execute_raise _ _ _ _ Hx) as [e ->]. discriminate.
Qed.

Lemma guarded_raise {R} (sql : R -> Sql) rows c e c' :
  guarded sql rows c = (Raise e, c') ->
  committed c' = committed c /\ working c' = committed c /\ failed c' = false
  /\ exists k, trace c'
               = trace c ++ map (fun r => Execute (sql r)) (take k rows)
                 ++ [Rollback].
Proof.
  unfold guarded, bind at 1, try_except.
  pose proof (executemany_committed sql rows c) as Hc.
  destruct (executemany_trace sql rows c) as [k Hk].
  destruct (executemany sql rows c) as [[[]|e1] c1]; cbn in Hc, Hk.
  - unfold commit. discriminate.
  - unfold bind, rollback, raise. intros [= _ <-]. cbn.
    rewrite Hc, Hk, <- app_assoc. repeat split. exists k. reflexivity.
Qed.


(** *** The multi-row statement on employees *)

Lemma executemany_employee_ok rows :
  forall c i0, failed c = false ->
    first_failure i0 (working c) rows = None ->
    exists c', executemany InsertEmployee rows c = (Ok tt, c')
               /\ committed c' = committed c
               /\ working c' = run_employees (working c) rows
               /\ failed c' = false
               /\ trace c' = trace c ++ map exec_employee rows.
Proof.
  induction rows as [|r rows IH]; intros c i0 Hf Hff; cbn in *.
  - exists c. rewrite app_nil_r. repeat split; assumption.
  - destruct (insert_employee (working c) r) as [e|t'] eqn:Hi; [discriminate|].
    unfold bind. rewrite (execute_employee_ok c r t' Hf Hi).
    destruct (IH (after_ok c r t') (S i0) eq_refl Hff)
      as (c' & Hc' & H1 & H2 & H3 & H4).
    exists c'. cbn in *. rewrite <- app_assoc in H4.
    repeat split; assumption.
Qed.

Lemma executemany_employee_fail rows :
  forall c i0 i r e, failed c = false ->
    first_failure i0 (working c) rows = Some (i, r, e) ->
    exists c', executemany InsertEmployee rows c = (Raise (DatabaseError e), c')
               /\ committed c' = committed c
               /\ failed c' = true
               /\ (i0 <= i)%nat
               /\ rows !! (i - i0)%nat = Some r
               /\ trace c'
                  = trace c ++ map exec_employee (take (S (i - i0)) rows).
Proof.
  induction rows as [|x rows IH]; intros c i0 i r e Hf Hff; cbn in Hff.
  - discriminate.
  - cbn [executemany]. unfold bind.
    destruct (insert_employee (working c) x) as [e0|t'] eqn:Hi.
    + injection Hff as <- <- <-.
      rewrite (execute_employee_fail c x e0 Hf Hi).
      eexists. split; [reflexivity|]. cbn.
      rewrite Nat.sub_diag. cbn. rewrite take_0. repeat split; lia || reflexivity.
    + rewrite (execute_employee_ok c x t' Hf Hi).
      destruct (IH (after_ok c x t') (S i0) i r e eq_refl Hff)
        as (c' & Hc' & H1 & H2 & H3 & H4 & H5).
      exists c'. cbn in *.
      replace (i - i0)%nat with (S (i - S i0)) by lia.
      cbn. rewrite <- app_assoc in H5.
      repeat split; try assumption; lia.
Qed.

(** *** The row-by-row loop *)

Lemma retry_loop_fail rows :
  forall c i0 i r e, failed c = false ->
    first_failure i0 (working c) rows = Some (i, r, e) ->
    exists c', for_enumerate i0 rows retry_row c = (Raise (DatabaseError e), c')
               /\ committed c' = committed c
               /\ working c' = committed c
               /\ failed c' = false
               /\ trace c'
                  = trace c ++ map exec_employee (take (S (i - i0)) rows)
                    ++ [Rollback; Print (BadRowIndex i); Print (BadRowValues r)].
Proof.
  induction rows as [|x rows IH]; intros c i0 i r e Hf Hff; cbn in Hff.
  - discriminate.
  - cbn [for_enumerate]. unfold bind, retry_row at 1, try_except.
    destruct (insert_employee (working c) x) as [e0|t'] eqn:Hi.
    + injection Hff as <- <- <-.
      rewrite (execute_employee_fail c x e0 Hf Hi).
      eexists. split; [reflexivity|]. cbn.
      rewrite Nat.sub_diag. cbn. rewrite take_0. cbn.
      rewrite <- !app_assoc. repeat split.
    + rewrite (execute_employee_ok c x t' Hf Hi).
      destruct (IH (after_ok c x t') (S i0) i r e eq_refl Hff)
        as (c' & Hc' & H1 & H2 & H3 & H4).
      exists c'. cbn in *.
      assert (Hle : (S i0 <= i)%nat).
      { clear -Hff. revert Hff. generalize (S i0). revert t'.
        induction rows as [|y rows IHr]; intros t n H; cbn in H; [discriminate|].
        destruct (insert_employee t y); [injection H as <- _ _; lia|].
        specialize (IHr _ _ H). lia. }
      replace (i - i0)%nat with (S (i - S i0)) by lia.
      cbn. rewrite <- app_assoc in H4.
      repeat split; assumption.
Qed.

Lemma retry_loop_ok rows :
  forall c i0, failed c = false ->
    first_failure i0 (working c) rows = None ->
    exists c', for_enumerate i0 rows retry_row c = (Ok tt, c')
               /\ committed c' = committed c
               /\ working c' = run_employees (working c) rows
               /\ failed c' = false
               /\ trace c' = trace c ++ map exec_employee rows.
Proof.
  induction rows as [|r rows IH]; intros c i0 Hf Hff; cbn in *.
  - exists c. rewrite app_nil_r. repeat split; assumption.
  - destruct (insert_employee (working c) r) as [e|t'] eqn:Hi; [discriminate|].
    unfold bind, retry_row at 1, try_except.
    rewrite (execute_employee_ok c r t' Hf Hi).
    destruct (IH (after_ok c r t') (S i0) eq_refl Hff)
      as (c' & Hc' & H1 & H2 & H3 & H4).
    exists c'. cbn in *. rewrite <- app_assoc in H4.
    repeat split; assumption.
Qed.

(** *** [insert_employees_df] *)

Lemma insert_employees_df_unfold df :
  insert_employees_df df
  = (try_except (executemany InsertEmployee (employee_tuples df))
       (fun e =>
          rollback ;;
          for_enumerate 0 (employee_tuples df) retry_row ;;
          raise e) ;;
     commit).
Proof. reflexivity. Qed.

(** A batch with a failing row, from an idle connection. *)
Lemma insert_employees_df_fail df c i r e :
  idle c ->
  first_failure 0 (committed c) (employee_tuples df) = Some (i, r, e) ->
  exists c',
    insert_employees_df df c = (Raise (DatabaseError e), c')
    /\ committed c' = committed c
    /\ working c' = committed c
    /\ failed c' = false
    /\ employee_tuples df !! i = Some r
    /\ trace c'
       = trace c
         ++ map exec_employee (take (S i) (employee_tuples df))
         ++ [Rollback]
         ++ map exec_employee (take (S i) (employee_tuples df))
         ++ [Rollback; Print (BadRowIndex i); Print (BadRowValues r)].
Proof.
  intros [Hf Hw] Hff. rewrite insert_employees_df_unfold.
  set (rows := employee_tuples df) in *.
  rewrite <- Hw in Hff.
  destruct (executemany_employee_fail rows c 0 i r e Hf Hff)
    as (c1 & E1 & Hc1 & Hf1 & _ & Hr & Ht1).
  rewrite Nat.sub_0_r in Hr, Ht1.
  unfold bind at 1, try_except. rewrite E1.
  unfold bind at 2. unfold rollback at 1. cbn.
  set (c2 := {| committed := committed c1; working := committed c1;
                failed := false; departments_seq := departments_seq c1;
                projects_seq := projects_seq c1;
                trace := trace c1 ++ [Rollback] |}).
  assert (Hff2 : first_failure 0 (working c2) rows = Some (i, r, e)).
  { cbn. rewrite Hc1, <- Hw. exact Hff. }
  destruct (retry_loop_fail rows c2 0 i r e eq_refl Hff2)
    as (c3 & E3 & Hc3 & Hw3 & Hf3 & Ht3).
  rewrite Nat.sub_0_r in Ht3.
  unfold bind. rewrite E3.
  exists c3. cbn in *. split; [reflexivity|].
  rewrite Hc3, Hw3, Ht3, Ht1, Hc1, <- !app_assoc.
  repeat split; assumption.
Qed.

(** A batch without a failing row, from an idle connection. *)
Lemma insert_employees_df_ok df c :
  idle c ->
  first_failure 0 (committed c) (employee_tuples df) = None ->
  exists c',
    insert_employees_df df c = (Ok tt, c')
    /\ committed c' = run_employees (committed c) (employee_tuples df)
    /\ working c' = committed c'
    /\ failed c' = false
    /\ trace c'
       = trace c ++ map exec_employee (employee_tuples df) ++ [Commit].
Proof.
  intros [Hf Hw] Hff. rewrite insert_employees_df_unfold.
  set (rows := employee_tuples df) in *.
  rewrite <- Hw in Hff.
  destruct (executemany_employee_ok rows c 0 Hf Hff)
    as (c1 & E1 & Hc1 & Hw1 & Hf1 & Ht1).
  unfold bind at 1, try_except. rewrite E1.
  unfold commit. rewrite Hf1. cbn.
  eexists. split; [reflexivity|]. cbn.
  rewrite Hw1, Hw, Ht1, <- app_assoc. repeat split.
Qed.

(** Whatever the state of the connection, a call that raises has
    committed nothing. *)
Lemma insert_employees_df_raise df c e c' :
  insert_employees_df df c = (Raise e, c') -> committed c' = committed c.
Proof.
  rewrite insert_employees_df_unfold.
  set (rows := employee_tuples df).
  unfold bind at 1, try_except.
  pose proof (executemany_committed InsertEmployee rows c) as H1.
  destruct (executemany InsertEmployee rows c) as [[[]|e1] c1]; cbn in H1.
  - unfold commit. discriminate.
  - unfold bind at 1. unfold rollback at 1. cbn.
    set (c2 := {| committed := committed c1; working := committed c1;
                  failed := false; departments_seq := departments_seq c1;
                  projects_seq := projects_seq c1;
                  trace := trace c1 ++ [Rollback] |}).
    assert (H2 : forall rs i c0,
              committed (snd (for_enumerate i rs retry_row c0)) = committed c0).
    { induction rs as [|x rs IH]; intros i c0; [reflexivity|].
      cbn. unfold bind, retry_row at 1, try_except.
      pose proof (execute_committed (InsertEmployee x) c0) as Hx.
      destruct (execute (InsertEmployee x) c0) as [[[]|ex] cx]; cbn in *.
      - rewrite IH. exact Hx.
      - exact Hx. }
    specialize (H2 rows O c2). unfold bind.
    destruct (for_enumerate 0 rows retry_row c2) as [[[]|e3] c3]; cbn in *.
    + unfold raise. intros [= _ <-]. congruence.
    + intros [= _ <-]. congruence.
Qed.

(** *** What [first_failure] finds *)

Lemma first_failure_spec rows :
  forall i0 t i r e,
    first_failure i0 t rows = Some (i, r, e) ->
    (i0 <= i)%nat
    /\ rows !! (i - i0)%nat = Some r
    /\ first_failure i0 t (take (i - i0) rows) = None
    /\ insert_employee (run_employees t (take (i - i0) rows)) r = inl e.
Proof.
  induction rows as [|x rows IH]; intros i0 t i r e H; cbn in H; [discriminate|].
  destruct (insert_employee t x) as [e0|t'] eqn:Hi.
  - injection H as <- <- <-. rewrite Nat.sub_diag. cbn.
    repeat split; [lia | exact Hi].
  - destruct (IH _ _ _ _ _ H) as (Hle & Hr & Hnone & Hfail).
    replace (i - i0)%nat with (S (i - S i0)) by lia.
    cbn. rewrite Hi. repeat split; try assumption; lia.
Qed.

Lemma printed_app tr1 tr2 : printed (tr1 ++ tr2) = printed tr1 ++ printed tr2.
Proof. apply omap_app. Qed.

Lemma printed_exec_employee rows : printed (map exec_employee rows) = [].
Proof. induction rows as [|r rows IH]; [reflexivity | exact IH]. Qed.

(** *** What a successful statement on employees does *)

Lemma int4_Some p z : int4 p = Some z <-> p = PNum z /\ in_int4 z = true.
Proof.
  destruct p as [z'|]; cbn.
  - destruct (in_int4 z') eqn:E; split.
    + intros [= <-]. split; [reflexivity | exact E].
    + intros [[= <-] _]. reflexivity.
    + discriminate.
    + intros [[= <-] H]. congruence.
  - split; [discriminate | intros [[=] _]].
Qed.

Lemma int4_None p : int4 p = None <-> p = PNaN \/ exists z, p = PNum z /\ in_int4 z = false.
Proof.
  destruct p as [z|]; cbn.
  - destruct (in_int4 z) eqn:E; split.
    + discriminate.
    + intros [[=]|(z' & [= <-] & H)]. congruence.
    + intros _. right. exists z. split; [reflexivity | exact E].
    + reflexivity.
  - split; [left; reflexivity | reflexivity].
Qed.

Lemma insert_employee_inr t r t' :
  insert_employee t r = inr t' ->
  exists k s d,
    t_employee_id r = PNum k
    /\ stored r = Some (employee_row k s d r)
    /\ is_nat (t_start_date r) = false
    /\ departments t' = departments t
    /\ projects t' = projects t
    /\ employee_projects t' = employee_projects t
    /\ employees t'
       = match employees t !! k with
         | Some _ => employees t
         | None => <[k := employee_row k s d r]> (employees t)
         end.
Proof.
  unfold insert_employee, stored.
  destruct (is_nat (t_start_date r)); [discriminate|].
  destruct (int4 (t_employee_id r)) as [k|] eqn:Hk; [|discriminate].
  destruct (int4 (t_salary r)) as [s|]; [|discriminate].
  destruct (int4 (t_department_id r)) as [d|]; [|discriminate].
  apply int4_Some in Hk as [Hk _].
  destruct (employees t !! k) as [old|] eqn:Hold.
  - intros [= <-]. exists k, s, d. rewrite Hold. repeat split. exact Hk.
  - destruct (has_department_id t d); [|discriminate].
    intros [= <-]. exists k, s, d. rewrite Hold. repeat split. exact Hk.
Qed.

Lemma run_employees_lookup rows :
  forall i0 t id,
    first_failure i0 t rows = None ->
    employees (run_employees t rows) !! id
    = match employees t !! id with
      | Some old => Some old
      | None => first_with_id id rows
      end.
Proof.
  induction rows as [|r rows IH]; intros i0 t id Hff; cbn in *.
  - destruct (employees t !! id); reflexivity.
  - destruct (insert_employee t r) as [e|t'] eqn:Hi; [discriminate|].
    rewrite (IH _ _ id Hff).
    apply insert_employee_inr in Hi as (k & s & d & Hk & Hs & _ & _ & _ & _ & He).
    rewrite He. unfold first_with_id. cbn [List.find]. rewrite Hk.
    destruct (decide (k = id)) as [->|Hne].
    + rewrite bool_decide_eq_true_2 by reflexivity. cbn. rewrite Hs.
      destruct (employees t !! id) as [old|] eqn:Hold.
      * rewrite Hold. reflexivity.
      * rewrite lookup_insert_eq. reflexivity.
    + rewrite bool_decide_eq_false_2 by congruence.
      destruct (employees t !! k) as [old|] eqn:Hold; [reflexivity|].
      rewrite lookup_insert_ne by exact Hne. reflexivity.
Qed.

Lemma run_employees_others rows :
  forall i0 t,
    first_failure i0 t rows = None ->
    departments (run_employees t rows) = departments t
    /\ projects (run_employees t rows) = projects t
    /\ employee_projects (run_employees t rows) = employee_projects t.
Proof.
  induction rows as [|r rows IH]; intros i0 t Hff; cbn in *.
  - repeat split.
  - destruct (insert_employee t r) as [e|t'] eqn:Hi; [discriminate|].
    destruct (IH _ _ Hff) as (H1 & H2 & H3).
    apply insert_employee_inr in Hi as (k & s & d & _ & _ & _ & E1 & E2 & E3 & _).
    rewrite H1, H2, H3. repeat split; assumption.
Qed.

Lemma run_employees_size rows :
  forall i0 t,
    first_failure i0 t rows = None ->
    (size (employees t) <= size (employees (run_employees t rows))
     <= size (employees t) + length rows)%nat.
Proof.
  induction rows as [|r rows IH]; intros i0 t Hff; cbn in *; [lia|].
  destruct (insert_employee t r) as [e|t'] eqn:Hi; [discriminate|].
  specialize (IH _ _ Hff).
  apply insert_employee_inr in Hi as (k & s & d & _ & _ & _ & _ & _ & _ & He).
  destruct (employees t !! k) as [old|] eqn:Hold.
  - rewrite He in IH. lia.
  - rewrite He, (map_size_insert_None _ _ _ Hold) in IH. lia.
Qed.

(** In a batch that is accepted every tuple has a row to be stored as. *)
Lemma first_failure_stored rows :
  forall i0 t,
    first_failure i0 t rows = None ->
    Forall (fun r => is_Some (stored r)) rows.
Proof.
  induction rows as [|r rows IH]; intros i0 t Hff; cbn in *; [constructor|].
  destruct (insert_employee t r) as [e|t'] eqn:Hi; [discriminate|].
  constructor; [|exact (IH _ _ Hff)].
  apply insert_employee_inr in Hi as (k & s & d & _ & Hs & _). eauto.
Qed.

Lemma first_with_id_Some id rows :
  Forall (fun r => is_Some (stored r)) rows ->
  (is_Some (first_with_id id rows) <-> PNum id ∈ map t_employee_id rows).
Proof.
  unfold first_with_id. induction 1 as [|r rows Hr _ IH]; cbn.
  - split; [intros [x [=]] | intros H; apply elem_of_nil in H as []].
  - destruct (bool_decide (t_employee_id r = PNum id)) eqn:E.
    + apply bool_decide_eq_true in E. rewrite E. cbn.
      split; [intros _; left | intros _; exact Hr].
    + apply bool_decide_eq_false in E. rewrite IH. split.
      * intros H. right. exact H.
      * intros H. apply elem_of_cons in H as [H|H]; [congruence | exact H].
Qed.

(** *** Clamping *)

Lemma clamp_Some z :
  clamp (Some z)
  = Some (if z >? PG_INT_MAX then PG_INT_MAX
          else if z <? PG_INT_MIN then PG_INT_MIN else z).
Proof.
  unfold clamp. destruct (z >? PG_INT_MAX); [reflexivity|].
  destruct (z <? PG_INT_MIN); reflexivity.
Qed.

Lemma clamp_int4_ok c : int4_ok (clamp c) = true.
Proof.
  destruct c as [z|]; [|reflexivity]. rewrite clamp_Some.
  unfold int4_ok, in_int4, PG_INT_MIN, PG_INT_MAX.
  destruct (z >? 2147483647) eqn:E1; [reflexivity|].
  destruct (z <? -2147483648) eqn:E2; [reflexivity|]. lia.
Qed.

(** A clamped cell is accepted as an INTEGER unless it is NaN. *)
Lemma int4_clamp c : int4 (num_param (clamp c)) = clamp c.
Proof.
  pose proof (clamp_int4_ok c) as H.
  destruct (clamp c) as [z|]; cbn in *; [rewrite H|]; reflexivity.
Qed.

(** *** Seeding departments *)

(** A tuple that the department statement accepts: no null, a budget that
    an INTEGER holds. *)
Definition valid_department (d : DepartmentTuple) : Prop :=
  exists n l b, d = (Some n, Some l, Some b) /\ in_int4 b = true.

(** The tables after the department statements of [deps] have all run,
    the sequence standing at [seq]. *)
Fixpoint run_departments (seq : Z) (t : Tables) (deps : list DepartmentTuple)
  : Tables :=
  match deps with
  | [] => t
  | d :: deps' =>
      match upsert_department seq t d with
      | inr t' => run_departments (seq + 1) t' deps'
      | inl _ => t
      end
  end.

(** The location and budget of the last tuple of [deps] named [n]. *)
Fixpoint last_for (n : string) (deps : list DepartmentTuple) : option (string * Z) :=
  match deps with
  | [] => None
  | (dn, l, b) :: deps' =>
      match last_for n deps' with
      | Some x => Some x
      | None =>
          match dn, l, b with
          | Some dn', Some l', Some b' =>
              if decide (dn' = n) then Some (l', b') else None
          | _, _, _ => None
          end
      end
  end.

Lemma upsert_department_valid seq t n l b :
  in_int4 b = true ->
  upsert_department seq t (Some n, Some l, Some b)
  = inr {| departments :=
             <[n := (match departments t !! n with
                     | Some (id, _, _) => id
                     | None => seq
                     end, l, b)]> (departments t);
           employees := employees t;
           projects := projects t;
           employee_projects := employee_projects t |}.
Proof. intros Hb. unfold upsert_department. cbn. rewrite Hb. reflexivity. Qed.

Lemma run_departments_lookup deps :
  Forall valid_department deps ->
  forall seq t,
    employees (run_departments seq t deps) = employees t
    /\ projects (run_departments seq t deps) = projects t
    /\ employee_projects (run_departments seq t deps) = employee_projects t
    /\ forall n,
         match last_for n deps with
         | Some (l, b) =>
             exists id,
               departments (run_departments seq t deps) !! n = Some (id, l, b)
               /\ (forall id0 l0 b0,
                     departments t !! n = Some (id0, l0, b0) -> id = id0)
         | None =>
             departments (run_departments seq t deps) !! n = departments t !! n
         end.
Proof.
  induction 1 as [|d deps (dn & l & b & -> & Hb) _ IH]; intros seq t.
  - cbn. repeat split.
  - cbn [run_departments last_for].
    rewrite (upsert_department_valid seq t dn l b Hb).
    set (t' := {| departments := _ |}).
    destruct (IH (seq + 1) t') as (H1 & H2 & H3 & H4).
    split; [exact H1|]. split; [exact H2|]. split; [exact H3|].
    intros n. specialize (H4 n).
    destruct (last_for n deps) as [[l1 b1]|].
    + destruct H4 as (id & Hid & Hold). exists id. split; [exact Hid|].
      intros id0 l0 b0 Ht. subst t'. cbn in Hold.
      destruct (decide (dn = n)) as [->|Hne].
      * rewrite Ht in Hold. eapply Hold. apply lookup_insert_eq.
      * eapply Hold. rewrite lookup_insert_ne by exact Hne. exact Ht.
    + subst t'. destruct (decide (dn = n)) as [->|Hne].
      * cbn in H4 |- *.
        eexists. split; [etrans; [exact H4 | apply lookup_insert_eq]|].
        intros id0 l0 b0 Ht. rewrite Ht. reflexivity.
      * cbn in H4 |- *. etrans; [exact H4|]. apply lookup_insert_ne. exact Hne.
Qed.

Lemma executemany_departments_ok deps :
  Forall valid_department deps ->
  forall c, failed c = false ->
    exists c', executemany UpsertDepartment deps c = (Ok tt, c')
               /\ committed c' = committed c
               /\ working c' = run_departments (departments_seq c) (working c) deps
               /\ failed c' = false
               /\ trace c'
                  = trace c ++ map (fun r => Execute (UpsertDepartment r)) deps.
Proof.
  induction 1 as [|d deps (dn & l & b & -> & Hb) _ IH]; intros c Hf.
  - exists c. cbn. rewrite app_nil_r. repeat split. exact Hf.
  - cbn [executemany run_departments]. unfold bind, execute, emit.
    cbn -[upsert_department].
    rewrite Hf. rewrite !(upsert_department_valid _ _ dn l b Hb).
    cbn [runs].
    match goal with |- context [executemany _ _ ?c1] =>
      destruct (IH c1 eq_refl) as (c' & E & Hc & Hw & Hf' & Ht) end.
    exists c'. rewrite E. cbn in *. rewrite <- app_assoc in Ht.
    repeat split; assumption.
Qed.

Lemma seed_departments_run (deps : list DepartmentTuple) (c : Conn) :
  idle c -> Forall valid_department deps ->
  exists c',
    seed_departments deps c = (Ok tt, c')
    /\ idle c'
    /\ committed c' = run_departments (departments_seq c) (committed c) deps.
Proof.
  intros [Hf Hw] Hvalid.
  destruct (executemany_departments_ok deps Hvalid c Hf)
    as (c1 & E & Hc1 & Hw1 & Hf1 & _).
  unfold seed_departments, bind. rewrite E. unfold commit. rewrite Hf1.
  eexists. split; [reflexivity|]. cbn.
  split; [split; reflexivity|]. rewrite Hw1, Hw. reflexivity.
Qed.

Definition departments2 : list DepartmentTuple :=
  [ (Some "Security", Some "Toronto", Some 1800000);
    (Some "Cloud", Some "Waterloo", Some 2200000);
    (Some "Security", Some "Ottawa", Some 1900000) ]%string.

Lemma departments2_valid : Forall valid_department departments2.
Proof.
  repeat constructor; eexists _, _, _; (split; [reflexivity | reflexivity]).
Defined.

(** *** Projects *)

(** A row of the projects frame that the statement accepts when the
    column of end dates holds a date: a name, a type, a start date that
    parses and a budget that is a number of the INTEGER range; the end
    date is free. *)
Definition acceptable_project (r : ProjectFrameRow) : Prop :=
  exists n ty sd e b,
    r = (Some n, Some ty, DateVal sd, e, NumVal b) /\ in_int4 b = true.

(** A frame of projects that [insert_projects_df] stores: every row is
    acceptable, and some row has an end date that parses (or the frame has
    no row). *)
Definition acceptable_projects (df : list ProjectFrameRow) : Prop :=
  Forall acceptable_project df
  /\ (df = [] \/ all_nat (map project_end df) = false).

Lemma upsert_project_acceptable seq t ns n ty sd e b :
  in_int4 b = true ->
  upsert_project seq t
    (project_tuple ns false (Some n, Some ty, DateVal sd, e, NumVal b))
  = inr {| departments := departments t;
           employees := employees t;
           projects :=
             <[n := (match projects t !! n with
                     | Some (id, _, _, _, _) => id
                     | None => seq
                     end, ty, sd, to_datetime e, b)]> (projects t);
           employee_projects := employee_projects t |}.
Proof.
  intros Hb. unfold upsert_project, project_tuple, date_param. cbn.
  rewrite Hb. destruct (to_datetime e); reflexivity.
Qed.

Lemma upsert_project_inr_acceptable seq t ns ne r t' :
  upsert_project seq t (project_tuple ns ne r) = inr t' -> acceptable_project r.
Proof.
  destruct r as [[[[n ty] sd] e] b]. unfold upsert_project, project_tuple.
  destruct (is_nat _ || is_nat _); [discriminate|].
  destruct (int4 (num_param (to_numeric b))) as [z|] eqn:Hb; [|discriminate].
  apply int4_Some in Hb as [Hb Hz].
  destruct n as [n|]; [|discriminate].
  destruct ty as [ty|]; [|discriminate].
  unfold date_param.
  destruct sd as [|sd|s]; cbn; try (destruct ns; discriminate).
  destruct b as [|b|s]; cbn in Hb; try discriminate.
  injection Hb as ->.
  intros _. exists n, ty, sd, e, z. split; [reflexivity | exact Hz].
Qed.

(** The tables after the project statements of the rows have all run. *)
Fixpoint run_projects (ns ne : bool) (seq : Z) (t : Tables)
    (rows : list ProjectFrameRow) : Tables :=
  match rows with
  | [] => t
  | r :: rows' =>
      match upsert_project seq t (project_tuple ns ne r) with
      | inr t' => run_projects ns ne (seq + 1) t' rows'
      | inl _ => t
      end
  end.

(** The columns of the last row of the frame named [n]. *)
Fixpoint last_project_for (n : string) (rows : list ProjectFrameRow)
  : option (string * date * option date * Z) :=
  match rows with
  | [] => None
  | r :: rows' =>
      match last_project_for n rows' with
      | Some x => Some x
      | None =>
          match r with
          | (Some n', Some ty, DateVal sd, e, NumVal b) =>
              if decide (n' = n) then Some (ty, sd, to_datetime e, b) else None
          | _ => None
          end
      end
  end.

Lemma run_projects_lookup ns rows :
  Forall acceptable_project rows ->
  forall seq t,
    departments (run_projects ns false seq t rows) = departments t
    /\ employees (run_projects ns false seq t rows) = employees t
    /\ employee_projects (run_projects ns false seq t rows) = employee_projects t
    /\ forall n,
         match last_project_for n rows with
         | Some (ty, sd, e, b) =>
             exists id,
               projects (run_projects ns false seq t rows) !! n
               = Some (id, ty, sd, e, b)
               /\ (forall id0 ty0 sd0 e0 b0,
                     projects t !! n = Some (id0, ty0, sd0, e0, b0) -> id = id0)
         | None =>
             projects (run_projects ns false seq t rows) !! n = projects t !! n
         end.
Proof.
  induction 1 as [|r rows (pn & ty & sd & e & b & -> & Hb) _ IH]; intros seq t.
  - cbn. repeat split.
  - cbn [run_projects last_project_for].
    rewrite (upsert_project_acceptable seq t ns pn ty sd e b Hb).
    set (t' := {| departments := _ |}).
    destruct (IH (seq + 1) t') as (H1 & H2 & H3 & H4).
    split; [exact H1|]. split; [exact H2|]. split; [exact H3|].
    intros n. specialize (H4 n).
    destruct (last_project_for n rows) as [[[[ty1 sd1] e1] b1]|].
    + destruct H4 as (id & Hid & Hold). exists id. split; [exact Hid|].
      intros id0 ty0 sd0 e0 b0 Ht. subst t'. cbn in Hold.
      destruct (decide (pn = n)) as [->|Hne].
      * rewrite Ht in Hold. eapply Hold. apply lookup_insert_eq.
      * eapply Hold. rewrite lookup_insert_ne by exact Hne. exact Ht.
    + subst t'. destruct (decide (pn = n)) as [->|Hne].
      * cbn in H4 |- *.
        eexists. split; [etrans; [exact H4 | apply lookup_insert_eq]|].
        intros id0 ty0 sd0 e0 b0 Ht. rewrite Ht. reflexivity.
      * cbn in H4 |- *. etrans; [exact H4|]. apply lookup_insert_ne. exact Hne.
Qed.

(** The multi-row statement on the rows of a frame whose end dates are
    not all null: it returns when every row is acceptable, and raises
    otherwise. *)
Lemma executemany_projects ns rows :
  forall c, failed c = false ->
    (Forall acceptable_project rows
     /\ exists c',
          executemany UpsertProject (map (project_tuple ns false) rows) c
          = (Ok tt, c')
          /\ committed c' = committed c
          /\ working c' = run_projects ns false (projects_seq c) (working c) rows
          /\ failed c' = false)
    \/ (~ Forall acceptable_project rows
        /\ exists e c',
             executemany UpsertProject (map (project_tuple ns false) rows) c
             = (Raise e, c')).
Proof.
  induction rows as [|r rows IH]; intros c Hf.
  - left. split; [constructor|]. exists c. repeat split. exact Hf.
  - cbn [map executemany run_projects]. unfold bind, execute, emit.
    cbn -[upsert_project project_tuple]. rewrite Hf.
    destruct (upsert_project (projects_seq c) (working c) (project_tuple ns false r))
      as [e|t'] eqn:Hu.
    + right. split; [|eauto].
      intros Hall. apply Forall_cons in Hall as [(pn & ty & sd & e0 & b & -> & Hb) _].
      rewrite (upsert_project_acceptable _ _ ns pn ty sd e0 b Hb) in Hu. discriminate.
    + pose proof (upsert_project_inr_acceptable _ _ _ _ _ _ Hu) as Hacc.
      cbn [runs].
      match goal with |- context [executemany _ _ ?c1] =>
        destruct (IH c1 eq_refl) as [(Hall & c' & E & Hc & Hw & Hf')
                                    |(Hnot & e & c' & E)] end.
      * left. split; [constructor; assumption|].
        exists c'. rewrite E. cbn in *. repeat split; assumption.
      * right. split.
        -- intros Hall. apply Forall_cons in Hall as [_ Hall]. exact (Hnot Hall).
        -- exists e, c'. rewrite E. reflexivity.
Qed.

(** A frame with a row and without any end date: the first statement is
    refused, for the NaT it is given. *)
Lemma executemany_projects_nat ns r rows c :
  failed c = false ->
  to_datetime (project_end r) = None ->
  exists c',
    executemany UpsertProject (map (project_tuple ns true) (r :: rows)) c
    = (Raise (DatabaseError InvalidDatetimeFormat), c').
Proof.
  intros Hf He. destruct r as [[[[n ty] sd] e] b]. cbn in He.
  cbn [map executemany]. unfold bind, execute, emit.
  cbn -[upsert_project project_tuple]. rewrite Hf.
  assert (E : upsert_project (projects_seq c) (working c)
                (project_tuple ns true (n, ty, sd, e, b))
              = inl InvalidDatetimeFormat).
  { unfold upsert_project, project_tuple, date_param at 2. rewrite He. cbn.
    rewrite orb_true_r. reflexivity. }
  rewrite !E. eexists. reflexivity.
Qed.

Lemma all_nat_cons c col : all_nat (c :: col) = true -> to_datetime c = None.
Proof.
  unfold all_nat. cbn. intros H. apply andb_true_iff in H as [H _].
  destruct (to_datetime c); [discriminate | reflexivity].
Qed.

(** What [insert_projects_df] does with an acceptable frame. *)
Lemma insert_projects_df_run (df : list ProjectFrameRow) (c : Conn) :
  idle c -> acceptable_projects df ->
  exists c',
    insert_projects_df df c = (Ok tt, c')
    /\ idle c'
    /\ committed c'
       = run_projects (all_nat (map project_start df)) false
           (projects_seq c) (committed c) df.
Proof.
  intros [Hf Hw] [Hall Hend]. unfold insert_projects_df, project_tuples.
  assert (Ee : df = [] \/ all_nat (map project_end df) = false) by exact Hend.
  destruct Ee as [->|Ee].
  - cbn. unfold bind, try_except, commit. cbn. rewrite Hf. cbn.
    eexists. split; [reflexivity|]. cbn. split; [split; reflexivity | exact Hw].
  - rewrite Ee.
    destruct (executemany_projects (all_nat (map project_start df)) df c Hf)
      as [(_ & c1 & E & Hc1 & Hw1 & Hf1)|(Hnot & _)]; [|destruct (Hnot Hall)].
    unfold bind at 1, try_except. rewrite E. unfold commit. rewrite Hf1.
    eexists. split; [reflexivity|]. cbn.
    split; [split; reflexivity|]. rewrite Hw1, Hw. reflexivity.
Qed.

(** And with any other frame. *)
Lemma insert_projects_df_refused (df : list ProjectFrameRow) (c : Conn) :
  idle c -> ~ acceptable_projects df ->
  exists e c',
    insert_projects_df df c = (Raise e, c')
    /\ idle c' /\ committed c' = committed c.
Proof.
  intros [Hf Hw] Hnot.
  assert (Hraise : exists e c1,
            executemany UpsertProject (project_tuples df) c = (Raise e, c1)).
  { unfold project_tuples.
    destruct (all_nat (map project_end df)) eqn:Ee.
    - destruct df as [|r df].
      + exfalso. apply Hnot. split; [constructor | left; reflexivity].
      + apply all_nat_cons in Ee.
        destruct (executemany_projects_nat (all_nat (map project_start (r :: df)))
                    r df c Hf Ee) as [c1 E].
        eauto.
    - destruct (executemany_projects (all_nat (map project_start df)) df c Hf)
        as [(Hall & _)|(_ & e & c1 & E)]; [|eauto].
      exfalso. apply Hnot. split; [exact Hall | right; exact Ee]. }
  destruct Hraise as (e & c1 & E).
  pose proof (executemany_committed UpsertProject (project_tuples df) c) as Hcm.
  rewrite E in Hcm. cbn in Hcm.
  unfold insert_projects_df, bind at 1, try_except. rewrite E.
  unfold bind, rollback, raise.
  eexists _, _. split; [reflexivity|]. cbn.
  split; [split; reflexivity | exact Hcm].
Qed.

(** *** Assignments *)

(** Every stored assignment refers to a stored employee and a stored
    project: the two foreign keys of employee_projects. *)
Definition assignments_ok (t : Tables) : Prop :=
  forall e p role, employee_projects t !! (e, p) = Some role ->
    is_Some (employees t !! e) /\ has_project_id t p = true.

(** A row of the assignments frame that the statement accepts on [t]:
    both ids are numbers of the INTEGER range, of a stored employee and a
    stored project. *)
Definition acceptable_assignment (t : Tables) (r : AssignmentFrameRow) : Prop :=
  exists e p role,
    r = (NumVal e, NumVal p, role)
    /\ in_int4 e = true /\ in_int4 p = true
    /\ is_Some (employees t !! e) /\ has_project_id t p = true.

Lemma acceptable_assignment_same t t' r :
  employees t' = employees t -> projects t' = projects t ->
  acceptable_assignment t r -> acceptable_assignment t' r.
Proof.
  intros He Hp (e & p & role & -> & H1 & H2 & H3 & H4).
  exists e, p, role. unfold has_project_id in *. rewrite He, Hp.
  repeat split; assumption.
Qed.

Lemma insert_employee_project_acceptable t e p role :
  in_int4 e = true -> in_int4 p = true ->
  is_Some (employees t !! e) -> has_project_id t p = true ->
  insert_employee_project t (assignment_tuple (NumVal e, NumVal p, role))
  = inr match employee_projects t !! (e, p) with
        | Some _ => t
        | None => {| departments := departments t;
                     employees := employees t;
                     projects := projects t;
                     employee_projects := <[(e, p) := role]> (employee_projects t) |}
        end.
Proof.
  intros H1 H2 H3 H4. unfold insert_employee_project. cbn.
  rewrite H1, H2. destruct (employee_projects t !! (e, p)); [reflexivity|].
  rewrite bool_decide_eq_true_2 by exact H3. rewrite H4. reflexivity.
Qed.

Lemma insert_employee_project_inr_acceptable t r t' :
  assignments_ok t ->
  insert_employee_project t (assignment_tuple r) = inr t' ->
  acceptable_assignment t r.
Proof.
  intros Hok. destruct r as [[eid pid] role].
  unfold insert_employee_project, assignment_tuple.
  destruct (int4 (num_param (to_numeric eid))) as [e|] eqn:R1; [|discriminate].
  destruct (int4 (num_param (to_numeric pid))) as [p|] eqn:R2; [|discriminate].
  apply int4_Some in R1 as [R1 He], R2 as [R2 Hp].
  destruct eid as [|e'|s]; cbn in R1; try discriminate. injection R1 as ->.
  destruct pid as [|p'|s]; cbn in R2; try discriminate. injection R2 as ->.
  destruct (employee_projects t !! (e, p)) as [old|] eqn:Hl.
  - intros _. destruct (Hok e p old Hl) as [Hemp Hprj].
    exists e, p, role. repeat split; assumption.
  - destruct (bool_decide (is_Some (employees t !! e))) eqn:Hemp; [|discriminate].
    destruct (has_project_id t p) eqn:Hprj; [|discriminate].
    intros _. apply bool_decide_eq_true_1 in Hemp.
    exists e, p, role. repeat split; assumption.
Qed.

Lemma insert_employee_project_inr t r t' :
  insert_employee_project t r = inr t' ->
  departments t' = departments t /\ projects t' = projects t
  /\ employees t' = employees t.
Proof.
  unfold insert_employee_project. destruct r as [[eid pid] role].
  destruct (int4 eid) as [e|]; [|discriminate].
  destruct (int4 pid) as [p|]; [|discriminate].
  destruct (employee_projects t !! (e, p)); [intros [= <-]; repeat split|].
  repeat (destruct (negb _); [discriminate|]).
  intros [= <-]. repeat split.
Qed.

Lemma assignments_ok_insert t r t' :
  assignments_ok t ->
  insert_employee_project t r = inr t' ->
  assignments_ok t'.
Proof.
  intros Hok. unfold insert_employee_project. destruct r as [[eid pid] role].
  destruct (int4 eid) as [e|]; [|discriminate].
  destruct (int4 pid) as [p|]; [|discriminate].
  destruct (employee_projects t !! (e, p)); [intros [= <-]; exact Hok|].
  destruct (bool_decide (is_Some (employees t !! e))) eqn:He; [|discriminate].
  destruct (has_project_id t p) eqn:Hp; [|discriminate]. cbn.
  intros [= <-].
  intros e' p' role'. cbn. unfold has_project_id. cbn.
  destruct (decide ((e, p) = (e', p'))) as [[= <- <-]|Hne].
  - intros _. apply bool_decide_eq_true_1 in He. split; assumption.
  - rewrite lookup_insert_ne by exact Hne. apply Hok.
Qed.

Fixpoint run_assignments (t : Tables) (rows : list AssignmentFrameRow) : Tables :=
  match rows with
  | [] => t
  | r :: rows' =>
      match insert_employee_project t (assignment_tuple r) with
      | inr t' => run_assignments t' rows'
      | inl _ => t
      end
  end.

(** The role of the first row of the frame for the pair [(e, p)]. *)
Fixpoint first_role (e p : Z) (rows : list AssignmentFrameRow)
  : option (option string) :=
  match rows with
  | [] => None
  | (NumVal e', NumVal p', role) :: rows' =>
      if decide ((e', p') = (e, p)) then Some role else first_role e p rows'
  | _ :: rows' => first_role e p rows'
  end.

Lemma run_assignments_lookup rows :
  forall t,
    Forall (acceptable_assignment t) rows ->
    departments (run_assignments t rows) = departments t
    /\ employees (run_assignments t rows) = employees t
    /\ projects (run_assignments t rows) = projects t
    /\ forall e p,
         employee_projects (run_assignments t rows) !! (e, p)
         = match employee_projects t !! (e, p) with
           | Some old => Some old
           | None => first_role e p rows
           end.
Proof.
  induction rows as [|r rows IH]; intros t Hall.
  - cbn. repeat split. intros e p. destruct (_ !! _); reflexivity.
  - apply Forall_cons in Hall as [(e0 & p0 & role & -> & H1 & H2 & H3 & H4) Hall].
    cbn [run_assignments first_role].
    rewrite (insert_employee_project_acceptable t e0 p0 role H1 H2 H3 H4).
    destruct (employee_projects t !! (e0, p0)) as [old|] eqn:Hl.
    + destruct (IH t Hall) as (G1 & G2 & G3 & G4).
      split; [exact G1|]. split; [exact G2|]. split; [exact G3|].
      intros e p. rewrite G4.
      destruct (decide ((e0, p0) = (e, p))) as [[= <- <-]|Hne]; [|reflexivity].
      rewrite Hl. reflexivity.
    + set (t' := {| departments := _ |}).
      assert (Hall' : Forall (acceptable_assignment t') rows).
      { eapply Forall_impl; [exact Hall|]. intros r.
        apply acceptable_assignment_same; reflexivity. }
      destruct (IH t' Hall') as (G1 & G2 & G3 & G4).
      split; [exact G1|]. split; [exact G2|]. split; [exact G3|].
      intros e p. rewrite G4. subst t'. cbn.
      destruct (decide ((e0, p0) = (e, p))) as [[= <- <-]|Hne].
      * rewrite lookup_insert_eq, Hl. reflexivity.
      * rewrite lookup_insert_ne by exact Hne. reflexivity.
Qed.

Lemma executemany_assignments rows :
  forall c, failed c = false -> assignments_ok (working c) ->
    (Forall (acceptable_assignment (working c)) rows
     /\ exists c',
          executemany InsertEmployeeProject (map assignment_tuple rows) c = (Ok tt, c')
          /\ committed c' = committed c
          /\ working c' = run_assignments (working c) rows
          /\ failed c' = false)
    \/ (~ Forall (acceptable_assignment (working c)) rows
        /\ exists e c',
             executemany InsertEmployeeProject (map assignment_tuple rows) c
             = (Raise e, c')).
Proof.
  induction rows as [|r rows IH]; intros c Hf Hok.
  - left. split; [constructor|]. exists c. repeat split. exact Hf.
  - cbn [map executemany run_assignments]. unfold bind, execute, emit.
    cbn -[insert_employee_project assignment_tuple]. rewrite Hf.
    destruct (insert_employee_project (working c) (assignment_tuple r))
      as [e|t'] eqn:Hu.
    + right. split; [|eauto].
      intros Hall.
      apply Forall_cons in Hall as [(e0 & p0 & role & -> & H1 & H2 & H3 & H4) _].
      rewrite (insert_employee_project_acceptable _ _ _ role H1 H2 H3 H4) in Hu.
      discriminate.
    + pose proof (insert_employee_project_inr_acceptable _ _ _ Hok Hu) as Hacc.
      destruct (insert_employee_project_inr _ _ _ Hu) as (_ & Hp & He).
      pose proof (assignments_ok_insert _ _ _ Hok Hu) as Hok'.
      match goal with |- context [executemany _ _ ?c1] =>
        destruct (IH c1 eq_refl Hok') as [(Hall & c' & E & Hc & Hw & Hf')
                                         |(Hnot & e & c' & E)] end.
      * left. split.
        -- constructor; [exact Hacc|].
           eapply Forall_impl; [exact Hall|]. intros r'. cbn.
           apply acceptable_assignment_same; symmetry; assumption.
        -- exists c'. rewrite E. cbn in *. repeat split; assumption.
      * right. split.
        -- intros Hall. apply Forall_cons in Hall as [_ Hall]. apply Hnot.
           eapply Forall_impl; [exact Hall|]. intros r'. cbn.
           apply acceptable_assignment_same; assumption.
        -- exists e, c'. rewrite E. reflexivity.
Qed.

(** What [insert_employee_projects_df] does with a frame of acceptable
    rows. *)
Lemma insert_employee_projects_df_run (df : list AssignmentFrameRow) (c : Conn) :
  idle c -> assignments_ok (committed c) ->
  Forall (acceptable_assignment (committed c)) df ->
  exists c',
    insert_employee_projects_df df c = (Ok tt, c')
    /\ idle c'
    /\ committed c' = run_assignments (committed c) df.
Proof.
  intros [Hf Hw] Hok Hall. unfold insert_employee_projects_df.
  rewrite <- Hw in Hok, Hall.
  destruct (executemany_assignments df c Hf Hok)
    as [(_ & c1 & E & Hc1 & Hw1 & Hf1)|(Hnot & _)]; [|destruct (Hnot Hall)].
  unfold bind at 1, try_except. rewrite E. unfold commit. rewrite Hf1.
  eexists. split; [reflexivity|]. cbn.
  split; [split; reflexivity|]. rewrite Hw1, Hw. reflexivity.
Qed.

(** And with any other frame. *)
Lemma insert_employee_projects_df_refused (df : list AssignmentFrameRow)
    (c : Conn) :
  idle c -> assignments_ok (committed c) ->
  ~ Forall (acceptable_assignment (committed c)) df ->
  exists e c',
    insert_employee_projects_df df c = (Raise e, c')
    /\ idle c' /\ committed c' = committed c.
Proof.
  intros [Hf Hw] Hok Hnot. unfold insert_employee_projects_df.
  pose proof (executemany_committed InsertEmployeeProject
                (map assignment_tuple df) c) as Hcm.
  rewrite <- Hw in Hok, Hnot.
  destruct (executemany_assignments df c Hf Hok)
    as [(Hall & _)|(_ & e & c1 & E)]; [destruct (Hnot Hall)|].
  rewrite E in Hcm. cbn in Hcm.
  unfold bind at 1, try_except. rewrite E.
  unfold bind, rollback, raise.
  eexists _, _. split; [reflexivity|]. cbn.
  split; [split; reflexivity | exact Hcm].
Qed.

(** *** The stored rows of the examples *)

Lemma tables1_assignments_ok : assignments_ok tables1.
Proof.
  intros e p role H. unfold tables1 in H. cbn in H.
  apply lookup_singleton_Some in H as [[= <- <-] <-].
  split; [eexists; vm_compute; reflexivity | vm_compute; reflexivity].
Defined.

End DbFacts.

(** ** Properties of the loader *)

Module DbSpec.
Import Pandas Db DbFacts.
Local Open Scope db_scope.

(** *** Failure of an employee batch *)

(** C1 (as amended).  When a row of an employee batch violates a storage
    constraint, no row of the batch is committed, the well-formed ones
    included: from an idle connection, [insert_employees_df] raises the
    error of the first row, in batch order, whose statement fails, leaves
    the committed tables as they were, with no transaction open, and
    prints exactly one report, the index of that row and its values.  The
    index is a function of the batch and of the tables. *)
Theorem C1_employee_batch_failure (df : list EmployeeFrameRow) (c : Conn)
    (i : nat) (r : EmployeeTuple) (e : PgError) :
  idle c ->
  first_failure 0 (committed c) (employee_tuples df) = Some (i, r, e) ->
  exists c',
    insert_employees_df df c = (Raise (DatabaseError e), c')
    /\ committed c' = committed c
    /\ count_employees c' = count_employees c
    /\ idle c'
    /\ employee_tuples df !! i = Some r
    /\ printed (trace c')
       = printed (trace c) ++ [BadRowIndex i; BadRowValues r].
Proof.
  intros Hidle Hff.
  destruct (insert_employees_df_fail df c i r e Hidle Hff)
    as (c' & E & Hc & Hw & Hf & Hr & Ht).
  exists c'. split; [exact E|]. split; [exact Hc|].
  split; [unfold count_employees; rewrite Hc; reflexivity|].
  split; [split; [exact Hf | congruence]|].
  split; [exact Hr|].
  rewrite Ht, !printed_app, !printed_exec_employee. reflexivity.
Qed.

(** Ten rows of the stored department, the one at index 5 without a
    key. *)
Definition batch10 : list EmployeeFrameRow :=
  [ employee (NumVal 100) (NumVal 1); employee (NumVal 101) (NumVal 1);
    employee (NumVal 102) (NumVal 1); employee (NumVal 103) (NumVal 1);
    employee (NumVal 104) (NumVal 1); employee NumNull (NumVal 1);
    employee (NumVal 106) (NumVal 1); employee (NumVal 107) (NumVal 1);
    employee (NumVal 108) (NumVal 1); employee (NumVal 109) (NumVal 1) ].

(** The tuple of the row without a key: its employee_id is NaN. *)
Definition no_key : EmployeeTuple := employee_tuple false (employee NumNull (NumVal 1)).

Lemma C1_employee_batch_failure_witness :
  exists c',
    insert_employees_df batch10 (connect seeded)
    = (Raise (DatabaseError NumericValueOutOfRange), c')
    /\ committed c' = seeded
    /\ count_employees c' = O
    /\ idle c'
    /\ employee_tuples batch10 !! 5%nat = Some no_key
    /\ printed (trace c') = [BadRowIndex 5; BadRowValues no_key].
Proof.
  apply (C1_employee_batch_failure batch10 (connect seeded) 5 no_key
           NumericValueOutOfRange).
  - split; reflexivity.
  - vm_compute. reflexivity.
Defined.

(** C1 as stated fails on the batch of the specification.  The nine rows
    other than the one at index 5 are well-formed (alone, they are all
    committed); with the row at index 5 among them the call commits none
    of them: the rows before it are rolled back with it and the rows after
    it are never sent. *)
Lemma C1_counterexample_ten_rows :
  let nine := take 5 batch10 ++ drop 6 batch10 in
  let alone := insert_employees_df nine (connect seeded) in
  let whole := insert_employees_df batch10 (connect seeded) in
  fst alone = Ok tt /\ count_employees (snd alone) = 9%nat
  /\ fst whole = Raise (DatabaseError NumericValueOutOfRange)
  /\ count_employees (snd whole) = O
  /\ trace (snd whole)
     = map exec_employee (take 6 (employee_tuples batch10))
       ++ [Rollback]
       ++ map exec_employee (take 6 (employee_tuples batch10))
       ++ [Rollback; Print (BadRowIndex 5); Print (BadRowValues no_key)].
Proof. repeat split; vm_compute; reflexivity. Qed.

(** *** The algorithm of the loaders *)






(** *** Clamping *)






(** Through the loader: the row with the key 3000000000 is committed
    under the key 2147483647. *)
Example insert_employee_above_max :
  let res := insert_employees_df [employee (NumVal 3000000000) (NumVal 1)]
                                 (connect seeded) in
  fst res = Ok tt
  /\ employees (committed (snd res)) !! 2147483647 = Some (ada 2147483647 1).
Proof. split; vm_compute; reflexivity. Qed.


(** *** Conflicts *)





(** Through the loaders, from the seeded tables: the same department
    twice with two budgets keeps the second budget; the same employee_id
    twice keeps the first row. *)
Example seed_departments_twice :
  let res := (seed_departments [(Some "Security", Some "Toronto", Some 1800000)] ;;
              seed_departments [(Some "Security", Some "Toronto", Some 2500000)])%string
               (connect empty_tables) in
  fst res = Ok tt
  /\ departments (committed (snd res)) !! "Security"%string
     = Some (1, "Toronto"%string, 2500000).
Proof. split; vm_compute; reflexivity. Qed.

Example insert_employee_twice :
  let second :=
    {| df_employee_id := NumVal 100; df_name := Some "Bob"%string;
       df_position := None; df_start_date := DateVal (Date 2020 2 2);
       df_salary := NumVal 90000; df_department_id := NumVal 1;
       df_is_dirty := Some true |} in
  let res := (insert_employees_df [employee (NumVal 100) (NumVal 1)] ;;
              insert_employees_df [second])
               (connect seeded) in
  fst res = Ok tt
  /\ employees (committed (snd res)) = {[ 100 := ada 100 1 ]}.
Proof. split; vm_compute; reflexivity. Qed.

End DbSpec.

(** ** Further properties of [EmployeeCleaner.clean] *)

Module CleaningExtra.
Import Pandas PandasFacts Cleaning CleaningSpec.

(** X1.  [clean] returns one record per row, in the order of the rows, and
    copies the columns employee_id, department_id and is_dirty. *)
Theorem clean_keeps_rows (u : PyStr.Ucd) (df : list RawEmployee) (out : list CleanEmployee) :
  clean u df = Ok out ->
  length out = length df
  /\ forall i r, df !! i = Some r ->
       exists c, out !! i = Some c
                 /\ employee_id c = raw_employee_id r
                 /\ department_id c = raw_department_id r
                 /\ is_dirty c = raw_is_dirty r.
Proof.
  intros Hout. pose proof (clean_length _ _ Hout) as Hlen.
  split; [exact Hlen|]. intros i r Hr.
  destruct (out !! i) as [c|] eqn:Hc.
  - exists c. split; [reflexivity|].
    pose proof (clean_lookup _ _ _ _ _ Hout Hr Hc) as Hrow.
    apply clean_row_Ok in Hrow as (H1 & H2 & H3 & _).
    repeat split; assumption.
  - apply lookup_ge_None in Hc. apply lookup_lt_Some in Hr. lia.
Qed.

Lemma clean_keeps_rows_witness :
  length (cleaned frame_C8) = length frame_C8
  /\ forall i r, frame_C8 !! i = Some r ->
       exists c, cleaned frame_C8 !! i = Some c
                 /\ employee_id c = raw_employee_id r
                 /\ department_id c = raw_department_id r
                 /\ is_dirty c = raw_is_dirty r.
Proof.
  apply (clean_keeps_rows PyStr.excerpt frame_C8 (cleaned frame_C8)).
  vm_compute. reflexivity.
Defined.

(** X2.  The two date flags: [issue_missing_start_date] is true exactly for
    the null dates, [issue_invalid_start_date] exactly for the dates before
    2015-01-01 or after 2024-12-31; a cell that [pd.to_datetime] cannot
    convert carries neither flag and is filled like the flagged ones. *)
Theorem date_flags (u : PyStr.Ucd) (df : list RawEmployee) (out : list CleanEmployee)
    (i : nat) (r : RawEmployee) (c : CleanEmployee) :
  clean u df = Ok out -> df !! i = Some r -> out !! i = Some c ->
  (issue_missing_start_date c = true <-> raw_start_date r = DateNull)
  /\ (issue_invalid_start_date c = true <->
      exists d, raw_start_date r = DateVal d
                /\ (date_ltb d (Date 2015 1 1) = true
                    \/ date_ltb (Date 2024 12 31) d = true))
  /\ (forall s, raw_start_date r = DateText s ->
        issue_missing_start_date c = false
        /\ issue_invalid_start_date c = false
        /\ start_date c = Some (fill_dt df)).
Proof.
  intros Hout Hr Hc.
  pose proof (clean_lookup _ _ _ _ _ Hout Hr Hc) as Hrow.
  apply clean_row_Ok in Hrow
    as (_ & _ & _ & _ & _ & Hd & _ & _ & _ & Hm & _ & _ & Hi & _).
  rewrite Hm, Hi, Hd. unfold masked_start_date.
  destruct (raw_start_date r) as [|d|s]; cbn.
  - split; [split; reflexivity|]. split; [|discriminate].
    split; [discriminate | intros (d & [=] & _)].
  - split; [split; discriminate|]. split; [|discriminate].
    split.
    + intros H. exists d. split; [reflexivity|].
      apply orb_true_iff in H. exact H.
    + intros (d' & [= <-] & H). apply orb_true_iff. exact H.
  - split; [split; discriminate|]. split.
    + split; [discriminate | intros (d & [=] & _)].
    + intros _ _. repeat split.
Qed.

Definition frame_dates : list RawEmployee :=
  map (fun d => row (Some "Ada"%string) (Some "Data Analyst"%string) d (NumVal 70000))
      [DateVal (Date 2016 1 1); DateVal (Date 2030 1 1); DateText "soon"; DateNull].

Lemma date_flags_witness :
  exists c, cleaned frame_dates !! 1%nat = Some c
            /\ issue_invalid_start_date c = true
            /\ issue_missing_start_date c <> true.
Proof.
  pose proof (date_flags PyStr.excerpt frame_dates (cleaned frame_dates) 1
                (row (Some "Ada"%string) (Some "Data Analyst"%string)
                     (DateVal (Date 2030 1 1)) (NumVal 70000))) as H.
  eexists.
  edestruct H as (Hmiss & Hinv & _);
    [vm_compute; reflexivity | reflexivity | reflexivity |].
  split; [reflexivity|]. split.
  - apply Hinv. eexists. split; [reflexivity | right; reflexivity].
  - intros E. apply Hmiss in E. discriminate E.
Defined.

(** X3.  [has_any_issue] is true exactly for the rows with a null name, a
    null position, a null date, a null salary, a salary out of
    [60000, 200000] or a date out of [2015-01-01, 2024-12-31]; cells that
    fail their coercion do not raise it. *)
Theorem has_any_issue_iff (u : PyStr.Ucd) (df : list RawEmployee) (out : list CleanEmployee)
    (i : nat) (r : RawEmployee) (c : CleanEmployee) :
  clean u df = Ok out -> df !! i = Some r -> out !! i = Some c ->
  (has_any_issue c = true <->
   raw_name r = None \/ raw_position r = None
   \/ raw_start_date r = DateNull \/ raw_salary r = NumNull
   \/ (exists z, raw_salary r = NumVal z /\ (z < 60000 \/ 200000 < z))
   \/ (exists d, raw_start_date r = DateVal d
                 /\ (date_ltb d (Date 2015 1 1) = true
                     \/ date_ltb (Date 2024 12 31) d = true))).
Proof.
  intros Hout Hr Hc.
  pose proof (clean_lookup _ _ _ _ _ Hout Hr Hc) as Hrow.
  apply clean_row_Ok in Hrow
    as (_ & _ & _ & _ & _ & _ & _ & H1 & H2 & H3 & H4 & H5 & H6 & Hany).
  rewrite Hany, H1, H2, H3, H4, H5, H6.
  rewrite !orb_true_iff.
  assert (E1 : isna (raw_name r) = true <-> raw_name r = None)
    by (destruct (raw_name r); cbn; split; congruence).
  assert (E2 : isna (raw_position r) = true <-> raw_position r = None)
    by (destruct (raw_position r); cbn; split; congruence).
  assert (E3 : date_isna (raw_start_date r) = true <-> raw_start_date r = DateNull)
    by (destruct (raw_start_date r); cbn; split; congruence).
  assert (E4 : num_isna (raw_salary r) = true <-> raw_salary r = NumNull)
    by (destruct (raw_salary r); cbn; split; congruence).
  assert (E5 : invalid_salary (to_numeric (raw_salary r)) = true <->
               exists z, raw_salary r = NumVal z /\ (z < 60000 \/ 200000 < z)).
  { destruct (raw_salary r) as [|z|s]; cbn.
    - split; [discriminate | intros (z & [=] & _)].
    - split; [intros H; exists z; split; [reflexivity | lia]
             | intros (z' & [= <-] & H); lia].
    - split; [discriminate | intros (z & [=] & _)]. }
  assert (E6 : invalid_start_date (to_datetime (raw_start_date r)) = true <->
               exists d, raw_start_date r = DateVal d
                         /\ (date_ltb d (Date 2015 1 1) = true
                             \/ date_ltb (Date 2024 12 31) d = true)).
  { destruct (raw_start_date r) as [|d|s]; cbn.
    - split; [discriminate | intros (d & [=] & _)].
    - rewrite orb_true_iff.
      split; [intros H; exists d; split; [reflexivity | exact H]
             | intros (d' & [= <-] & H); exact H].
    - split; [discriminate | intros (d & [=] & _)]. }
  rewrite E1, E2, E3, E4, E5, E6. tauto.
Qed.

Lemma has_any_issue_iff_witness :
  exists c, cleaned frame_dates !! 2%nat = Some c /\ has_any_issue c <> true.
Proof.
  pose proof (has_any_issue_iff PyStr.excerpt frame_dates (cleaned frame_dates) 2
                (row (Some "Ada"%string) (Some "Data Analyst"%string)
                     (DateText "soon") (NumVal 70000))) as H.
  eexists.
  edestruct H as (Hif & _);
    [vm_compute; reflexivity | reflexivity | reflexivity |].
  split; [reflexivity|].
  intros E. apply Hif in E.
  destruct E as [E|[E|[E|[E|[(z & E & Hz)|(d & E & _)]]]]];
    try discriminate E.
  injection E as <-. lia.
Defined.



(** X5.  The position of a cleaned record is in normal form when the
    positions of the batch are made of simple characters (those of ASCII
    text among them): stripping it or putting it in title case again
    changes nothing, and it neither starts nor ends with white space. *)
Theorem cleaned_position_normal (u : PyStr.Ucd) (df : list RawEmployee)
    (out : list CleanEmployee) (i : nat) (c : CleanEmployee) :
  clean u df = Ok out -> out !! i = Some c ->
  simple_positions u df ->
  exists p, position c = Some p
            /\ PyStr.strip p = p /\ PyStr.title u p = p
            /\ PyStrFacts.head_ok p = true /\ PyStrFacts.last_ok p = true.
Proof.
  intros Hout Hc Hsimple.
  destruct (df !! i) as [r|] eqn:Hr.
  2:{ apply lookup_ge_None in Hr. apply lookup_lt_Some in Hc.
      rewrite (clean_length _ _ Hout) in Hc. lia. }
  pose proof (clean_lookup _ _ _ _ _ Hout Hr Hc) as Hrow.
  apply clean_row_Ok in Hrow as (_ & _ & _ & _ & Hp & _).
  assert (E : exists s, position c = Some (PyStr.title u (PyStr.strip s))
                        /\ Forall (PyStrFacts.simple u) s).
  { rewrite Hp. destruct (raw_position r) as [p|] eqn:Hraw.
    - exists p. split; [reflexivity|].
      apply (Hsimple r p); [apply list_elem_of_lookup; eauto | exact Hraw].
    - exists (PyStr.of_string "Unknown"). split; [reflexivity|].
      apply PyStrFacts.of_string_simple. reflexivity. }
  destruct E as (s & E & Hs). eexists. split; [exact E|].
  pose proof (PyStrFacts.strip_title_strip u s Hs) as Hstrip.
  split; [exact Hstrip|].
  split; [exact (PyStrFacts.title_title_strip u s Hs)|].
  rewrite <- Hstrip.
  split; [apply PyStrFacts.head_ok_strip | apply PyStrFacts.last_ok_strip].
Qed.

Definition frame_positions : list RawEmployee :=
  [ row (Some "Ada"%string) (Some "  senior DATA  engineer "%string)
        (DateVal (Date 2016 1 1)) (NumVal 70000) ].

Lemma cleaned_position_normal_witness :
  exists c p, cleaned frame_positions !! 0%nat = Some c
              /\ position c = Some p
              /\ PyStr.strip p = p /\ PyStr.title PyStr.excerpt p = p
              /\ PyStrFacts.head_ok p = true /\ PyStrFacts.last_ok p = true.
Proof.
  pose proof (cleaned_position_normal PyStr.excerpt frame_positions
                (cleaned frame_positions) 0) as H.
  eexists.
  edestruct H as (p & Hp); [vm_compute; reflexivity | reflexivity | |].
  - intros r q Hr Hq.
    apply elem_of_cons in Hr as [->|Hr]; [|apply elem_of_nil in Hr as []].
    injection Hq as <-. apply PyStrFacts.of_string_simple. reflexivity.
  - exists p. split; [reflexivity | exact Hp].
Defined.

(** X6.  The salary that fills the holes lies between the smallest and the
    largest valid salary of the batch (whatever bounds [lo] and [hi] the
    valid salaries keep, it keeps them), and every hole of one batch gets
    the same salary. *)
Theorem imputed_salary_span (u : PyStr.Ucd) (df : list RawEmployee) (out : list CleanEmployee)
    (lo hi : Z) :
  clean u df = Ok out ->
  (forall r z, r ∈ df -> raw_salary r = NumVal z -> 60000 <= z <= 200000 ->
               lo <= z <= hi) ->
  (forall i r c, df !! i = Some r -> out !! i = Some c ->
     masked_salary r = None -> lo <= salary c <= hi)
  /\ (forall i j r r' c c',
        df !! i = Some r -> out !! i = Some c ->
        df !! j = Some r' -> out !! j = Some c' ->
        masked_salary r = None -> masked_salary r' = None ->
        salary c = salary c').
Proof.
  intros Hout Hspan.
  assert (Hall : Forall (fun z => lo <= z <= hi) (dropna (map masked_salary df))).
  { apply Forall_forall. intros z Hz.
    apply elem_of_dropna, elem_of_map in Hz as (r & E & Hr).
    symmetry in E. apply masked_salary_Some in E as [Hraw Hok].
    exact (Hspan r z Hr Hraw Hok). }
  assert (Hfill : forall i r c, df !! i = Some r -> out !! i = Some c ->
            masked_salary r = None ->
            exists q, median (map masked_salary df) = Some q /\ salary c = trunc q).
  { intros i r c Hr Hc Hm.
    pose proof (clean_lookup _ _ _ _ _ Hout Hr Hc) as Hrow.
    apply clean_row_Ok in Hrow as (_ & _ & _ & _ & _ & _ & Hs & _).
    rewrite Hm in Hs. exact Hs. }
  split.
  - intros i r c Hr Hc Hm.
    destruct (Hfill i r c Hr Hc Hm) as (q & Hq & ->).
    exact (median_bounds lo hi _ q Hall Hq).
  - intros i j r r' c c' Hr Hc Hr' Hc' Hm Hm'.
    destruct (Hfill i r c Hr Hc Hm) as (q & Hq & ->).
    destruct (Hfill j r' c' Hr' Hc' Hm') as (q' & Hq' & ->).
    congruence.
Qed.

Definition frame_span : list RawEmployee :=
  map (row (Some "Ada"%string) (Some "Data Analyst"%string)
           (DateVal (Date 2016 1 1)))
      [NumVal 90000; NumVal 100000; NumVal 120001; NumVal 5; NumNull].

Lemma imputed_salary_span_witness :
  exists c, cleaned frame_span !! 4%nat = Some c /\ 90000 <= salary c <= 120001.
Proof.
  pose proof (imputed_salary_span PyStr.excerpt frame_span (cleaned frame_span) 90000 120001) as H.
  eexists.
  edestruct H as (Hspan & _); [vm_compute; reflexivity | |].
  - intros r z Hr Hraw Hz.
    repeat (apply elem_of_cons in Hr as [->|Hr];
            [first [injection Hraw as <-; lia | discriminate Hraw]|]).
    apply elem_of_nil in Hr as [].
  - split; [reflexivity|].
    apply (Hspan 4%nat (row (Some "Ada"%string) (Some "Data Analyst"%string)
                            (DateVal (Date 2016 1 1)) NumNull));
      reflexivity.
Defined.

End CleaningExtra.

(** ** Further properties of the loader *)

Module DbExtra.
Import Pandas Db DbFacts.
Local Open Scope db_scope.

(** *** A batch that is stored *)

(** X7.  When no row of an employee batch fails, [insert_employees_df],
    called on an idle connection, returns normally after one pass and one
    commit, and leaves the connection idle.  The committed employees are
    then the ones stored before, unchanged, and for each key that was not
    stored the row of the first tuple of the batch with that key: the
    first writer wins inside a batch as well. *)
Theorem insert_employees_df_stores (df : list EmployeeFrameRow) (c : Conn) :
  idle c ->
  first_failure 0 (committed c) (employee_tuples df) = None ->
  exists c',
    insert_employees_df df c = (Ok tt, c')
    /\ idle c'
    /\ trace c' = trace c ++ map exec_employee (employee_tuples df) ++ [Commit]
    /\ forall id,
         employees (committed c') !! id
         = match employees (committed c) !! id with
           | Some old => Some old
           | None => first_with_id id (employee_tuples df)
           end.
Proof.
  intros Hidle Hff.
  destruct (insert_employees_df_ok df c Hidle Hff)
    as (c' & E & Hc & Hw & Hf & Ht).
  exists c'. split; [exact E|]. split; [split; assumption|].
  split; [exact Ht|].
  intros id. rewrite Hc. exact (run_employees_lookup _ _ _ id Hff).
Qed.

Lemma insert_employees_df_stores_witness :
  exists c',
    insert_employees_df batch_dup (connect tables1) = (Ok tt, c')
    /\ employees (committed c') !! 101 = Some (ada 101 1).
Proof.
  destruct (insert_employees_df_stores batch_dup (connect tables1))
    as (c' & E & _ & _ & Hl);
    [split; reflexivity | vm_compute; reflexivity |].
  exists c'. split; [exact E|]. rewrite Hl. vm_compute. reflexivity.
Defined.

(** X8.  Whatever its outcome, a call of [insert_employees_df] on an idle
    connection never changes or removes a stored employee and never touches
    the departments, the projects or the assignments. *)
Theorem insert_employees_df_monotone (df : list EmployeeFrameRow) (c c' : Conn)
    (res : result unit) :
  idle c ->
  insert_employees_df df c = (res, c') ->
  departments (committed c') = departments (committed c)
  /\ projects (committed c') = projects (committed c)
  /\ employee_projects (committed c') = employee_projects (committed c)
  /\ forall id old,
       employees (committed c) !! id = Some old ->
       employees (committed c') !! id = Some old.
Proof.
  intros Hidle H.
  destruct (first_failure 0 (committed c) (employee_tuples df))
    as [[[i r] e]|] eqn:Hff.
  - destruct (insert_employees_df_fail df c i r e Hidle Hff)
      as (c1 & E & Hc & _).
    rewrite E in H. injection H as _ <-. rewrite Hc.
    repeat split. intros id old Hold. exact Hold.
  - destruct (insert_employees_df_ok df c Hidle Hff)
      as (c1 & E & Hc & _).
    rewrite E in H. injection H as _ <-. rewrite Hc.
    destruct (run_employees_others _ _ _ Hff) as (H1 & H2 & H3).
    split; [exact H1|]. split; [exact H2|]. split; [exact H3|].
    intros id old Hold.
    rewrite (run_employees_lookup _ _ _ id Hff), Hold. reflexivity.
Qed.

Lemma insert_employees_df_monotone_witness :
  employees (committed (snd (insert_employees_df batch_dup (connect tables1))))
    !! 100
  = Some (ada 100 1).
Proof.
  destruct (insert_employees_df_monotone batch_dup (connect tables1)
              (snd (insert_employees_df batch_dup (connect tables1)))
              (fst (insert_employees_df batch_dup (connect tables1))))
    as (_ & _ & _ & H).
  - split; reflexivity.
  - destruct (insert_employees_df batch_dup (connect tables1)); reflexivity.
  - apply H. reflexivity.
Defined.

(** *** Errors of the employee statement *)

(** X9.  The statement of [insert_employees_df] fails on a tuple of the
    frame in three cases only: its start date is NaT (no row of the frame
    has a date that parses), which is no timestamp; or else one of its
    three integer cells is NaN (null or unparseable in the frame), which
    is "integer out of range"; or else its key is new and its
    department_id is that of no stored department, a foreign-key
    violation.  It never fails on a null of a NOT NULL column, nor, the
    cells being clamped, on the size of a number. *)
Theorem employee_statement_errors (t : Tables) (nat : bool)
    (row : EmployeeFrameRow) (e : PgError) :
  let r := employee_tuple nat row in
  insert_employee t r = inl e <->
  (e = InvalidDatetimeFormat /\ t_start_date r = PNaT)
  \/ (e = NumericValueOutOfRange /\ t_start_date r <> PNaT
      /\ (t_employee_id r = PNaN \/ t_salary r = PNaN
          \/ t_department_id r = PNaN))
  \/ (e = ForeignKeyViolation "department_id" /\ t_start_date r <> PNaT
      /\ exists id s d,
           t_employee_id r = PNum id /\ t_salary r = PNum s
           /\ t_department_id r = PNum d
           /\ employees t !! id = None
           /\ has_department_id t d = false).
Proof.
  intros r. unfold insert_employee. subst r.
  cbn [t_employee_id t_salary t_department_id t_start_date employee_tuple].
  rewrite !int4_clamp.
  destruct (date_param nat (df_start_date row)) as [dt| |] eqn:Hdate; cbn [is_nat].
  3:{ split.
      - intros [= <-]. left. split; reflexivity.
      - intros [[-> _]|[(_ & H & _)|(_ & H & _)]]; [reflexivity | | ];
          destruct (H eq_refl). }
  all: destruct (clamp (to_numeric (df_employee_id row))) as [id|];
    [|split;
      [intros [= <-]; right; left;
       split; [reflexivity|]; split; [discriminate | left; reflexivity]
      |intros [[_ [=]]|[(-> & _)|(_ & _ & id & s & d & [=] & _)]]; reflexivity]].
  all: destruct (clamp (to_numeric (df_salary row))) as [s|];
    [|split;
      [intros [= <-]; right; left;
       split; [reflexivity|]; split; [discriminate | right; left; reflexivity]
      |intros [[_ [=]]|[(-> & _)|(_ & _ & id' & s & d & _ & [=] & _)]];
       reflexivity]].
  all: destruct (clamp (to_numeric (df_department_id row))) as [d|];
    [|split;
      [intros [= <-]; right; left;
       split; [reflexivity|]; split; [discriminate | right; right; reflexivity]
      |intros [[_ [=]]|[(-> & _)|(_ & _ & id' & s' & d & _ & _ & [=] & _)]];
       reflexivity]].
  all: cbn [num_param].
  all: destruct (employees t !! id) as [old|] eqn:Hold;
    [split; [discriminate|];
     intros [[_ [=]]|[(_ & _ & [[=]|[[=]|[=]]])
                     |(_ & _ & id' & s' & d' & [= <-] & _ & _ & Hnone & _)]];
     congruence|].
  all: destruct (has_department_id t d) eqn:Hdep;
    [split; [discriminate|];
     intros [[_ [=]]|[(_ & _ & [[=]|[[=]|[=]]])
                     |(_ & _ & id' & s' & d' & _ & _ & [= <-] & _ & Hfalse)]];
     congruence|].
  all: split;
    [intros [= <-]; right; right; split; [reflexivity|];
     split; [discriminate|]; exists id, s, d; repeat split; assumption
    |intros [[_ [=]]|[(_ & _ & [[=]|[[=]|[=]]])|(-> & _)]]; reflexivity].
Qed.

Lemma employee_statement_errors_witness :
  insert_employee tables1 (employee_tuple false (employee (NumVal 7) (NumVal 9)))
  = inl (ForeignKeyViolation "department_id")
  /\ insert_employee tables1 (employee_tuple false (employee (NumVal 7) NumNull))
     = inl NumericValueOutOfRange.
Proof.
  split.
  - apply (employee_statement_errors tables1 false (employee (NumVal 7) (NumVal 9))).
    right. right. split; [reflexivity|]. split; [discriminate|].
    exists 7, 70000, 9. repeat split; vm_compute; reflexivity.
  - apply (employee_statement_errors tables1 false (employee (NumVal 7) NumNull)).
    right. left. split; [reflexivity|]. split; [discriminate|].
    right. right. reflexivity.
Defined.

(** *** Connections in a failed transaction *)

(** X10.  [seed_departments] has no handler: when one of its statements
    fails, the error leaves the call with the transaction still open and
    failed; nothing is committed and neither a rollback nor a commit is
    sent. *)
Theorem seed_departments_leaves_failed (deps : list DepartmentTuple)
    (c c' : Conn) (e : exn) :
  seed_departments deps c = (Raise e, c') ->
  failed c' = true
  /\ committed c' = committed c
  /\ exists k, trace c'
               = trace c ++ map (fun r => Execute (UpsertDepartment r)) (take k deps).
Proof.
  unfold seed_departments, bind.
  pose proof (executemany_committed UpsertDepartment deps c) as Hc.
  destruct (executemany_trace UpsertDepartment deps c) as [k Hk].
  destruct (executemany UpsertDepartment deps c) as [[[]|e1] c1] eqn:Hx;
    cbn in Hc, Hk.
  - unfold commit. discriminate.
  - intros [= _ <-]. split; [exact (executemany_raise_failed _ _ _ _ _ Hx)|].
    split; [exact Hc|]. exists k. exact Hk.
Qed.

Lemma seed_departments_leaves_failed_witness :
  let c' := snd (seed_departments
                   [(Some "Security", Some "Toronto", Some 1800000);
                    (Some "Cloud", None, Some 2200000)]%string
                   (connect empty_tables)) in
  failed c' = true /\ committed c' = empty_tables.
Proof.
  intros c'.
  destruct (seed_departments_leaves_failed
              [(Some "Security", Some "Toronto", Some 1800000);
               (Some "Cloud", None, Some 2200000)]%string
              (connect empty_tables) c'
              (DatabaseError (NotNullViolation "location")))
    as (Hf & Hc & _); [vm_compute; reflexivity|].
  split; [exact Hf | exact Hc].
Defined.

(** X11.  On a connection whose transaction has failed,
    [insert_projects_df] and [insert_employee_projects_df] raise
    InFailedSqlTransaction for every batch with a row, store nothing, and
    leave the connection idle: their rollback clears the failure. *)
Theorem guarded_loaders_on_failed (c : Conn) :
  failed c = true ->
  (forall df, df <> [] ->
     exists c', insert_projects_df df c
                = (Raise (DatabaseError InFailedSqlTransaction), c')
                /\ idle c' /\ committed c' = committed c)
  /\ (forall df, df <> [] ->
        exists c', insert_employee_projects_df df c
                   = (Raise (DatabaseError InFailedSqlTransaction), c')
                   /\ idle c' /\ committed c' = committed c).
Proof.
  intros Hf. split; intros df Hne.
  - destruct df as [|r df]; [congruence|].
    unfold insert_projects_df, project_tuples. cbn [map].
    unfold bind at 1, try_except.
    rewrite (executemany_on_failed UpsertProject _ _ c Hf).
    eexists. split; [reflexivity|]. cbn. repeat split.
  - destruct df as [|r df]; [congruence|].
    unfold insert_employee_projects_df. cbn [map]. unfold bind at 1, try_except.
    rewrite (executemany_on_failed InsertEmployeeProject _ _ c Hf).
    eexists. split; [reflexivity|]. cbn. repeat split.
Qed.

Lemma guarded_loaders_on_failed_witness :
  let c := snd (seed_departments [(Some "Cloud", None, Some 2200000)]%string
                                 (connect tables1)) in
  exists c', insert_projects_df [project "Atlas" (NumVal 1000)] c
             = (Raise (DatabaseError InFailedSqlTransaction), c')
             /\ idle c' /\ committed c' = tables1.
Proof.
  intros c.
  destruct (guarded_loaders_on_failed c) as [H _]; [vm_compute; reflexivity|].
  apply (H [project "Atlas" (NumVal 1000)]). discriminate.
Defined.

(** X12.  On a connection whose transaction has failed,
    [insert_employees_df] called with a batch that has a row and no failing
    row raises InFailedSqlTransaction although every row is accepted one by
    one: after the rollback the rows are sent again and succeed, nothing is
    printed, no commit is sent, and the rows are left pending in the open
    transaction, not committed. *)
Theorem insert_employees_df_on_failed (df : list EmployeeFrameRow) (c : Conn) :
  failed c = true -> df <> [] ->
  first_failure 0 (committed c) (employee_tuples df) = None ->
  exists c',
    insert_employees_df df c = (Raise (DatabaseError InFailedSqlTransaction), c')
    /\ committed c' = committed c
    /\ failed c' = false
    /\ working c' = run_employees (committed c) (employee_tuples df)
    /\ (forall id,
          employees (working c') !! id
          = match employees (committed c) !! id with
            | Some old => Some old
            | None => first_with_id id (employee_tuples df)
            end)
    /\ trace c'
       = trace c ++ map exec_employee (take 1 (employee_tuples df))
         ++ [Rollback] ++ map exec_employee (employee_tuples df).
Proof.
  intros Hf Hne Hff. rewrite insert_employees_df_unfold.
  destruct (employee_tuples df) as [|r0 rows] eqn:Hrows.
  { destruct df; [congruence | discriminate Hrows]. }
  unfold bind at 1, try_except.
  rewrite (executemany_on_failed InsertEmployee r0 rows c Hf).
  unfold bind at 1. unfold rollback at 1. cbn [emit committed working failed
    departments_seq projects_seq trace].
  set (c2 := {| committed := committed c; working := committed c;
                failed := false; departments_seq := departments_seq c;
                projects_seq := projects_seq c;
                trace := (trace c ++ [Execute (InsertEmployee r0)]) ++ [Rollback] |}).
  destruct (retry_loop_ok (r0 :: rows) c2 0 eq_refl Hff)
    as (c3 & E3 & Hc3 & Hw3 & Hf3 & Ht3).
  unfold bind. rewrite E3. unfold raise.
  exists c3. split; [reflexivity|]. cbn in Hc3, Hw3, Ht3.
  split; [exact Hc3|]. split; [exact Hf3|]. split; [exact Hw3|]. split.
  - intros id. rewrite Hw3. exact (run_employees_lookup _ _ _ id Hff).
  - rewrite Ht3. cbn. rewrite take_0, <- !app_assoc. reflexivity.
Qed.

Lemma insert_employees_df_on_failed_witness :
  let c := snd (seed_departments [(Some "Cloud", None, Some 2200000)]%string
                                 (connect seeded)) in
  exists c',
    insert_employees_df [employee (NumVal 100) (NumVal 1)] c
    = (Raise (DatabaseError InFailedSqlTransaction), c')
    /\ committed c' = seeded
    /\ employees (working c') !! 100 = Some (ada 100 1).
Proof.
  intros c.
  destruct (insert_employees_df_on_failed [employee (NumVal 100) (NumVal 1)] c)
    as (c' & E & Hc & _ & _ & Hl & _);
    [vm_compute; reflexivity | discriminate | vm_compute; reflexivity |].
  exists c'. split; [exact E|]. split; [exact Hc|].
  rewrite Hl. vm_compute. reflexivity.
Defined.

(** *** Seeding departments *)

(** X13.  [seed_departments] with tuples that have no null and a budget
    in the INTEGER range, on an idle connection: it returns normally and
    commits; every department named in the list is then stored with the
    location and the budget of the last tuple that names it, under the id
    it had if it was stored before; the other departments and the other
    tables are unchanged. *)
Theorem seed_departments_stores (deps : list DepartmentTuple) (c : Conn) :
  idle c -> Forall valid_department deps ->
  exists c',
    seed_departments deps c = (Ok tt, c')
    /\ idle c'
    /\ employees (committed c') = employees (committed c)
    /\ projects (committed c') = projects (committed c)
    /\ employee_projects (committed c') = employee_projects (committed c)
    /\ forall n,
         match last_for n deps with
         | Some (l, b) =>
             exists id,
               departments (committed c') !! n = Some (id, l, b)
               /\ (forall id0 l0 b0,
                     departments (committed c) !! n = Some (id0, l0, b0) ->
                     id = id0)
         | None =>
             departments (committed c') !! n = departments (committed c) !! n
         end.
Proof.
  intros Hidle Hvalid.
  destruct (seed_departments_run deps c Hidle Hvalid) as (c' & E & Hidle' & Hc).
  exists c'. split; [exact E|]. split; [exact Hidle'|]. rewrite Hc.
  exact (run_departments_lookup deps Hvalid (departments_seq c) (committed c)).
Qed.

Lemma seed_departments_stores_witness :
  exists c' id,
    seed_departments departments2 (connect empty_tables) = (Ok tt, c')
    /\ departments (committed c') !! "Security"%string
       = Some (id, "Ottawa"%string, 1900000).
Proof.
  destruct (seed_departments_stores departments2 (connect empty_tables))
    as (c' & E & _ & _ & _ & _ & H);
    [split; reflexivity | exact departments2_valid |].
  specialize (H "Security"%string). cbn in H. destruct H as (id & Hid & _).
  exists c', id. split; [exact E | exact Hid].
Defined.

(** X14.  [seed_departments] can be run again: seeding the same valid
    list a second time returns normally and leaves every table as the first
    seeding left it (only the sequence of ids moves on). *)
Theorem seed_departments_idempotent (deps : list DepartmentTuple) (c : Conn) :
  idle c -> Forall valid_department deps ->
  exists c1 c2,
    seed_departments deps c = (Ok tt, c1)
    /\ seed_departments deps c1 = (Ok tt, c2)
    /\ departments (committed c2) = departments (committed c1)
    /\ employees (committed c2) = employees (committed c1)
    /\ projects (committed c2) = projects (committed c1)
    /\ employee_projects (committed c2) = employee_projects (committed c1).
Proof.
  intros Hidle Hvalid.
  destruct (seed_departments_run deps c Hidle Hvalid) as (c1 & E1 & Hidle1 & Hc1).
  destruct (seed_departments_run deps c1 Hidle1 Hvalid) as (c2 & E2 & _ & Hc2).
  exists c1, c2. split; [exact E1|]. split; [exact E2|].
  destruct (run_departments_lookup deps Hvalid (departments_seq c) (committed c))
    as (_ & _ & _ & Hd1).
  destruct (run_departments_lookup deps Hvalid (departments_seq c1) (committed c1))
    as (He2 & Hp2 & Ha2 & Hd2).
  rewrite <- Hc1 in Hd1. rewrite <- Hc2 in He2, Hp2, Ha2, Hd2.
  split; [|repeat split; assumption].
  apply map_eq. intros n. specialize (Hd1 n). specialize (Hd2 n).
  destruct (last_for n deps) as [[l b]|]; [|exact Hd2].
  destruct Hd1 as (id1 & Hid1 & _). destruct Hd2 as (id2 & Hid2 & Hsame).
  rewrite (Hsame _ _ _ Hid1) in Hid2.
  exact (eq_trans Hid2 (eq_sym Hid1)).
Qed.

Lemma seed_departments_idempotent_witness :
  exists c1 c2,
    seed_departments departments2 (connect empty_tables) = (Ok tt, c1)
    /\ seed_departments departments2 c1 = (Ok tt, c2)
    /\ departments (committed c2) = departments (committed c1).
Proof.
  destruct (seed_departments_idempotent departments2 (connect empty_tables))
    as (c1 & c2 & E1 & E2 & Hd & _);
    [split; reflexivity | exact departments2_valid |].
  exists c1, c2. repeat split; assumption.
Defined.

(** *** Integrity of the stored rows *)

Lemma has_department_id_iff t d :
  has_department_id t d = true
  <-> exists n l b, departments t !! n = Some (d, l, b).
Proof.
  unfold has_department_id. rewrite existsb_exists. split.
  - intros ([n [[id l] b]] & Hin & Hid). cbn in Hid.
    apply Z.eqb_eq in Hid. subst id.
    apply list_elem_of_In, elem_of_map_to_list in Hin. eauto.
  - intros (n & l & b & H). exists (n, (d, l, b)). split.
    + apply list_elem_of_In, elem_of_map_to_list. exact H.
    + cbn. apply Z.eqb_refl.
Qed.

Lemma has_project_id_iff t p :
  has_project_id t p = true
  <-> exists n ty sd ed b, projects t !! n = Some (p, ty, sd, ed, b).
Proof.
  unfold has_project_id. rewrite existsb_exists. split.
  - intros ([n [[[[id ty] sd] ed] b]] & Hin & Hid). cbn in Hid.
    apply Z.eqb_eq in Hid. subst id.
    apply list_elem_of_In, elem_of_map_to_list in Hin. eauto 6.
  - intros (n & ty & sd & ed & b & H). exists (n, (p, ty, sd, ed, b)). split.
    + apply list_elem_of_In, elem_of_map_to_list. exact H.
    + cbn. apply Z.eqb_refl.
Qed.

(** The constraints of [create_tables] that tie the rows together: an
    employee is stored under its own employee_id, with integers that an
    INTEGER holds and a department_id that is null or the id of a stored
    department; an assignment joins a stored employee to a stored
    project. *)
Definition integrity (t : Tables) : Prop :=
  (forall id r, employees t !! id = Some r ->
     employee_id r = Some id
     /\ int4_ok (employee_id r) = true /\ int4_ok (salary r) = true
     /\ int4_ok (department_id r) = true
     /\ forall d, department_id r = Some d -> has_department_id t d = true)
  /\ (forall e p role, employee_projects t !! (e, p) = Some role ->
        is_Some (employees t !! e) /\ has_project_id t p = true).

Lemma integrity_insert_employee t r t' :
  integrity t -> insert_employee t r = inr t' -> integrity t'.
Proof.
  intros [He Ha] H. unfold insert_employee in H.
  destruct (is_nat (t_start_date r)); [discriminate|].
  destruct (int4 (t_employee_id r)) as [k|] eqn:R1; [|discriminate].
  destruct (int4 (t_salary r)) as [s|] eqn:R2; [|discriminate].
  destruct (int4 (t_department_id r)) as [d|] eqn:R3; [|discriminate].
  apply int4_Some in R1 as [_ R1], R2 as [_ R2], R3 as [_ R3].
  destruct (employees t !! k) as [old|] eqn:Hold.
  { injection H as <-. split; assumption. }
  destruct (has_department_id t d) eqn:Hd; [|discriminate].
  injection H as <-. split; cbn.
  - intros id r' Hl. destruct (decide (k = id)) as [->|Hne].
    + rewrite lookup_insert_eq in Hl. injection Hl as <-. cbn.
      repeat split; try assumption. intros d' [= <-]. exact Hd.
    + rewrite lookup_insert_ne in Hl by exact Hne.
      exact (He id r' Hl).
  - intros e p role Hl. destruct (Ha e p role Hl) as [Hin Hp].
    split; [|exact Hp].
    destruct (decide (k = e)) as [->|Hne].
    + rewrite lookup_insert_eq. eauto.
    + rewrite lookup_insert_ne by exact Hne. exact Hin.
Qed.

Lemma integrity_upsert_department seq t d t' :
  integrity t -> upsert_department seq t d = inr t' -> integrity t'.
Proof.
  intros [He Ha] H. unfold upsert_department in H.
  destruct d as [[dn l] b].
  destruct (negb (int4_ok b)); [discriminate|].
  destruct dn as [dn|]; [|discriminate].
  destruct l as [l|]; [|discriminate].
  destruct b as [b|]; [|discriminate].
  injection H as <-. split; cbn.
  - intros id r Hl. destruct (He id r Hl) as (H1 & H2 & H3 & H4 & H5).
    repeat split; try assumption.
    intros d Hd. specialize (H5 d Hd).
    apply has_department_id_iff in H5 as (n & l0 & b0 & Hn).
    apply has_department_id_iff. cbn.
    destruct (decide (dn = n)) as [->|Hne].
    + exists n, l, b. rewrite lookup_insert_eq, Hn. reflexivity.
    + exists n, l0, b0. rewrite lookup_insert_ne by exact Hne. exact Hn.
  - intros e p role Hl. exact (Ha e p role Hl).
Qed.

Lemma integrity_upsert_project seq t r t' :
  integrity t -> upsert_project seq t r = inr t' -> integrity t'.
Proof.
  intros [He Ha] H. unfold upsert_project in H.
  destruct r as [[[[pn ty] sd] ed] b].
  destruct (is_nat sd || is_nat ed); [discriminate|].
  destruct (int4 b) as [z|]; [|discriminate].
  destruct pn as [pn|]; [|discriminate].
  destruct ty as [ty|]; [|discriminate].
  destruct (date_of sd) as [d|]; [|discriminate].
  injection H as <-. split; cbn.
  - intros id r Hl. exact (He id r Hl).
  - intros e p role Hl. destruct (Ha e p role Hl) as [Hin Hp].
    split; [exact Hin|].
    apply has_project_id_iff in Hp as (n & ty0 & sd0 & ed0 & b0 & Hn).
    apply has_project_id_iff. cbn.
    destruct (decide (pn = n)) as [->|Hne].
    + exists n, ty, d, (date_of ed), z. rewrite lookup_insert_eq, Hn. reflexivity.
    + exists n, ty0, sd0, ed0, b0. rewrite lookup_insert_ne by exact Hne. exact Hn.
Qed.

Lemma integrity_insert_employee_project t r t' :
  integrity t -> insert_employee_project t r = inr t' -> integrity t'.
Proof.
  intros [He Ha] H. unfold insert_employee_project in H.
  destruct r as [[eid pid] role].
  destruct (int4 eid) as [e|]; [|discriminate].
  destruct (int4 pid) as [p|]; [|discriminate].
  destruct (employee_projects t !! (e, p)) as [old|] eqn:Hold.
  { injection H as <-. split; assumption. }
  destruct (bool_decide (is_Some (employees t !! e))) eqn:Hemp; [|discriminate].
  destruct (has_project_id t p) eqn:Hprj; [|discriminate].
  cbn in H. injection H as <-. split; cbn.
  - intros id r Hl. exact (He id r Hl).
  - intros e' p' role' Hl.
    destruct (decide ((e, p) = (e', p'))) as [[= <- <-]|Hne].
    + split; [apply bool_decide_eq_true in Hemp; exact Hemp | exact Hprj].
    + rewrite lookup_insert_ne in Hl by exact Hne. exact (Ha e' p' role' Hl).
Qed.

(** *** Invariants of a connection

    A property of connections that the four primitives of the connection
    keep is kept by every loader, whether it returns or raises. *)

Section Keeping.

Variable I : Conn -> Prop.

Definition keeps {A} (m : M A) : Prop := forall c, I c -> I (snd (m c)).

Hypothesis I_execute : forall q, keeps (execute q).
Hypothesis I_rollback : keeps rollback.
Hypothesis I_commit : keeps commit.
Hypothesis I_print : forall l, keeps (print l).

Lemma keeps_bind {A B} (m : M A) (k : A -> M B) :
  keeps m -> (forall a, keeps (k a)) -> keeps (bind m k).
Proof.
  intros Hm Hk c Hc. unfold bind. specialize (Hm c Hc).
  destruct (m c) as [[a|e] c1]; cbn in *; [apply Hk|]; exact Hm.
Qed.

Lemma keeps_try_except {A} (m : M A) (h : exn -> M A) :
  keeps m -> (forall e, keeps (h e)) -> keeps (try_except m h).
Proof.
  intros Hm Hh c Hc. unfold try_except. specialize (Hm c Hc).
  destruct (m c) as [[a|e] c1]; cbn in *; [|apply Hh]; exact Hm.
Qed.

Lemma keeps_raise {A} e : keeps (@raise A e).
Proof. intros c Hc. exact Hc. Qed.

Lemma keeps_executemany {R} (sql : R -> Sql) rows : keeps (executemany sql rows).
Proof.
  induction rows as [|r rows IH]; cbn.
  - intros c Hc. exact Hc.
  - apply keeps_bind; [apply I_execute | intros _; exact IH].
Qed.

Lemma keeps_for_enumerate {R} (body : nat -> R -> M unit) rows :
  (forall i r, keeps (body i r)) -> forall i, keeps (for_enumerate i rows body).
Proof.
  intros Hb. induction rows as [|r rows IH]; intros i; cbn.
  - intros c Hc. exact Hc.
  - apply keeps_bind; [apply Hb | intros _; apply IH].
Qed.

Lemma keeps_guarded {R} (sql : R -> Sql) rows :
  keeps (try_except (executemany sql rows) (fun e => rollback ;; raise e) ;; commit).
Proof.
  apply keeps_bind; [|intros _; apply I_commit].
  apply keeps_try_except; [apply keeps_executemany|].
  intros e. apply keeps_bind; [apply I_rollback | intros _; apply keeps_raise].
Qed.

Lemma keeps_seed_departments deps : keeps (seed_departments deps).
Proof.
  apply keeps_bind; [apply keeps_executemany | intros _; apply I_commit].
Qed.

Lemma keeps_insert_employees_df df : keeps (insert_employees_df df).
Proof.
  rewrite insert_employees_df_unfold.
  apply keeps_bind; [|intros _; apply I_commit].
  apply keeps_try_except; [apply keeps_executemany|].
  intros e. apply keeps_bind; [apply I_rollback|]. intros _.
  apply keeps_bind; [|intros _; apply keeps_raise].
  apply keeps_for_enumerate. intros i r. unfold retry_row.
  apply keeps_try_except; [apply I_execute|].
  intros e'. repeat (apply keeps_bind; [|intros _]);
    first [apply I_rollback | apply I_print | apply keeps_raise].
Qed.

Lemma keeps_insert_projects_df df : keeps (insert_projects_df df).
Proof. apply keeps_guarded. Qed.

Lemma keeps_insert_employee_projects_df df :
  keeps (insert_employee_projects_df df).
Proof. apply keeps_guarded. Qed.

End Keeping.

(** Both copies of the tables of a connection keep the constraints. *)
Definition sound (c : Conn) : Prop :=
  integrity (committed c) /\ integrity (working c).

Lemma sound_rollback : keeps sound rollback.
Proof. intros c [Hc _]. split; exact Hc. Qed.

Lemma sound_commit : keeps sound commit.
Proof.
  intros c [Hc Hw]. unfold commit. cbn.
  destruct (failed c); split; assumption.
Qed.

Lemma sound_print l : keeps sound (print l).
Proof. intros c Hc. exact Hc. Qed.

Lemma sound_execute q : keeps sound (execute q).
Proof.
  intros c [Hc Hw]. unfold execute, emit. cbn.
  destruct (failed c); [split; assumption|].
  destruct q as [r|r|r|r]; cbn.
  - destruct (insert_employee (working c) r) eqn:H; cbn;
      (split; [exact Hc|]); [exact Hw|].
    exact (integrity_insert_employee _ _ _ Hw H).
  - destruct (upsert_department _ (working c) r) eqn:H; cbn;
      (split; [exact Hc|]); [exact Hw|].
    exact (integrity_upsert_department _ _ _ _ Hw H).
  - destruct (upsert_project _ (working c) r) eqn:H; cbn;
      (split; [exact Hc|]); [exact Hw|].
    exact (integrity_upsert_project _ _ _ _ Hw H).
  - destruct (insert_employee_project (working c) r) eqn:H; cbn;
      (split; [exact Hc|]); [exact Hw|].
    exact (integrity_insert_employee_project _ _ _ Hw H).
Qed.

(** X15.  Every loader keeps the constraints of the schema: if the rows
    of a connection satisfy them before a call of [seed_departments],
    [insert_employees_df], [insert_projects_df] or
    [insert_employee_projects_df], they satisfy them after it, whether the
    call returns or raises: each employee is stored under its own
    employee_id with integers inside the INTEGER range and a department_id
    that is null or stored, each assignment joins a stored employee and a
    stored project. *)
Theorem loaders_keep_integrity (c : Conn) :
  integrity (committed c) -> integrity (working c) ->
  (forall deps, integrity (committed (snd (seed_departments deps c))))
  /\ (forall df, integrity (committed (snd (insert_employees_df df c))))
  /\ (forall df, integrity (committed (snd (insert_projects_df df c))))
  /\ (forall df, integrity (committed (snd (insert_employee_projects_df df c)))).
Proof.
  intros Hc Hw. assert (Hs : sound c) by (split; assumption).
  split; [|split; [|split]]; intros x.
  - exact (proj1 (keeps_seed_departments sound sound_execute sound_commit x c Hs)).
  - exact (proj1 (keeps_insert_employees_df sound sound_execute sound_rollback
                    sound_commit sound_print x c Hs)).
  - exact (proj1 (keeps_insert_projects_df sound sound_execute sound_rollback
                    sound_commit x c Hs)).
  - exact (proj1 (keeps_insert_employee_projects_df sound sound_execute
                    sound_rollback sound_commit x c Hs)).
Qed.

Lemma tables1_integrity : integrity tables1.
Proof.
  split.
  - intros id r H. unfold tables1 in H. cbn in H.
    apply lookup_singleton_Some in H as [<- <-].
    repeat split; try reflexivity.
    intros d [= <-]. vm_compute. reflexivity.
  - exact tables1_assignments_ok.
Defined.

Lemma loaders_keep_integrity_witness :
  integrity (committed (snd (insert_employees_df batch_dup (connect tables1)))).
Proof.
  destruct (loaders_keep_integrity (connect tables1)) as (_ & H & _);
    [exact tables1_integrity | exact tables1_integrity |].
  apply H.
Defined.

(** *** Serial ids *)

(** The primary key of departments: no two departments share an id. *)
Definition unique_department_ids (t : Tables) : Prop :=
  forall n1 n2 id l1 b1 l2 b2,
    departments t !! n1 = Some (id, l1, b1) ->
    departments t !! n2 = Some (id, l2, b2) -> n1 = n2.

(** The primary key of projects. *)
Definition unique_project_ids (t : Tables) : Prop :=
  forall n1 n2 id ty1 s1 e1 b1 ty2 s2 e2 b2,
    projects t !! n1 = Some (id, ty1, s1, e1, b1) ->
    projects t !! n2 = Some (id, ty2, s2, e2, b2) -> n1 = n2.

(** Every stored serial id is below its sequence, and no id is shared. *)
Definition serials_below (sd sp : Z) (t : Tables) : Prop :=
  (forall n id l b, departments t !! n = Some (id, l, b) -> id < sd)
  /\ (forall n id ty s e b, projects t !! n = Some (id, ty, s, e, b) -> id < sp)
  /\ unique_department_ids t /\ unique_project_ids t.

Definition serial (c : Conn) : Prop :=
  serials_below (departments_seq c) (projects_seq c) (committed c)
  /\ serials_below (departments_seq c) (projects_seq c) (working c).

Lemma serials_below_mono sd sp sd' sp' t :
  sd <= sd' -> sp <= sp' -> serials_below sd sp t -> serials_below sd' sp' t.
Proof.
  intros Hd Hp (H1 & H2 & H3 & H4). repeat split; try assumption.
  - intros n id l b H. specialize (H1 n id l b H). lia.
  - intros n id ty s e b H. specialize (H2 n id ty s e b H). lia.
Qed.

Lemma serials_upsert_department sd sp t r t' :
  serials_below sd sp t -> upsert_department sd t r = inr t' ->
  serials_below (sd + 1) sp t'.
Proof.
  intros (H1 & H2 & H3 & H4) H. unfold upsert_department in H.
  destruct r as [[dn l] b].
  destruct (negb (int4_ok b)); [discriminate|].
  destruct dn as [dn|]; [|discriminate].
  destruct l as [l|]; [|discriminate].
  destruct b as [b|]; [|discriminate].
  injection H as <-.
  assert (Hid : match departments t !! dn with
                | Some (id, _, _) => id
                | None => sd
                end < sd + 1).
  { destruct (departments t !! dn) as [[[id0 l0] b0]|] eqn:E; [|lia].
    specialize (H1 dn id0 l0 b0 E). lia. }
  split; [|split; [|split]]; cbn.
  - intros n id l' b' Hl. destruct (decide (dn = n)) as [->|Hne].
    + rewrite lookup_insert_eq in Hl. injection Hl as <- _ _. exact Hid.
    + rewrite lookup_insert_ne in Hl by exact Hne.
      specialize (H1 n id l' b' Hl). lia.
  - exact H2.
  - intros n1 n2 id l1 b1 l2 b2 Hl1 Hl2. cbn in Hl1, Hl2.
    destruct (decide (dn = n1)) as [->|Hne1];
      destruct (decide (n1 = n2)) as [E|Hne2]; try exact E.
    + rewrite lookup_insert_eq in Hl1. injection Hl1 as Hid1 _ _.
      rewrite lookup_insert_ne in Hl2 by exact Hne2.
      destruct (departments t !! n1) as [[[id0 l0] b0]|] eqn:E.
      * subst id0. exact (H3 _ _ _ _ _ _ _ E Hl2).
      * subst id. specialize (H1 _ _ _ _ Hl2). lia.
    + rewrite lookup_insert_ne in Hl1 by exact Hne1.
      destruct (decide (dn = n2)) as [->|Hne3].
      * rewrite lookup_insert_eq in Hl2. injection Hl2 as Hid2 _ _.
        destruct (departments t !! n2) as [[[id0 l0] b0]|] eqn:E.
        -- subst id0. exact (H3 _ _ _ _ _ _ _ Hl1 E).
        -- subst id. specialize (H1 _ _ _ _ Hl1). lia.
      * rewrite lookup_insert_ne in Hl2 by exact Hne3.
        exact (H3 _ _ _ _ _ _ _ Hl1 Hl2).
  - exact H4.
Qed.

Lemma serials_upsert_project sd sp t r t' :
  serials_below sd sp t -> upsert_project sp t r = inr t' ->
  serials_below sd (sp + 1) t'.
Proof.
  intros (H1 & H2 & H3 & H4) H. unfold upsert_project in H.
  destruct r as [[[[pn ty] ps] pe] pb].
  destruct (is_nat ps || is_nat pe); [discriminate|].
  destruct (int4 pb) as [b|]; [|discriminate].
  destruct pn as [pn|]; [|discriminate].
  destruct ty as [ty|]; [|discriminate].
  destruct (date_of ps) as [s|]; [|discriminate].
  set (e := date_of pe) in *.
  injection H as <-.
  assert (Hid : match projects t !! pn with
                | Some (id, _, _, _, _) => id
                | None => sp
                end < sp + 1).
  { destruct (projects t !! pn) as [[[[[id0 ty0] s0] e0] b0]|] eqn:E; [|lia].
    specialize (H2 pn id0 ty0 s0 e0 b0 E). lia. }
  split; [|split; [|split]]; cbn.
  - exact H1.
  - intros n id ty' s' e' b' Hl. destruct (decide (pn = n)) as [->|Hne].
    + rewrite lookup_insert_eq in Hl. injection Hl as <- _ _ _ _. exact Hid.
    + rewrite lookup_insert_ne in Hl by exact Hne.
      specialize (H2 n id ty' s' e' b' Hl). lia.
  - exact H3.
  - intros n1 n2 id ty1 s1 e1 b1 ty2 s2 e2 b2 Hl1 Hl2. cbn in Hl1, Hl2.
    destruct (decide (pn = n1)) as [->|Hne1];
      destruct (decide (n1 = n2)) as [E|Hne2]; try exact E.
    + rewrite lookup_insert_eq in Hl1. injection Hl1 as Hid1 _ _ _ _.
      rewrite lookup_insert_ne in Hl2 by exact Hne2.
      destruct (projects t !! n1) as [[[[[id0 ty0] s0] e0] b0]|] eqn:E.
      * subst id0. exact (H4 _ _ _ _ _ _ _ _ _ _ _ E Hl2).
      * subst id. specialize (H2 _ _ _ _ _ _ Hl2). lia.
    + rewrite lookup_insert_ne in Hl1 by exact Hne1.
      destruct (decide (pn = n2)) as [->|Hne3].
      * rewrite lookup_insert_eq in Hl2. injection Hl2 as Hid2 _ _ _ _.
        destruct (projects t !! n2) as [[[[[id0 ty0] s0] e0] b0]|] eqn:E.
        -- subst id0. exact (H4 _ _ _ _ _ _ _ _ _ _ _ Hl1 E).
        -- subst id. specialize (H2 _ _ _ _ _ _ Hl1). lia.
      * rewrite lookup_insert_ne in Hl2 by exact Hne3.
        exact (H4 _ _ _ _ _ _ _ _ _ _ _ Hl1 Hl2).
Qed.

Lemma serials_same_tables sd sp t t' :
  departments t' = departments t -> projects t' = projects t ->
  serials_below sd sp t -> serials_below sd sp t'.
Proof.
  intros Ed Ep (H1 & H2 & H3 & H4).
  unfold serials_below, unique_department_ids, unique_project_ids.
  rewrite Ed, Ep. repeat split; assumption.
Qed.

Lemma serial_rollback : keeps serial rollback.
Proof. intros c [Hc _]. split; exact Hc. Qed.

Lemma serial_commit : keeps serial commit.
Proof.
  intros c [Hc Hw]. unfold commit. cbn.
  destruct (failed c); split; assumption.
Qed.

Lemma serial_print l : keeps serial (print l).
Proof. intros c Hc. exact Hc. Qed.

Lemma serial_execute q : keeps serial (execute q).
Proof.
  intros c [Hc Hw]. unfold execute, emit. cbn.
  destruct (failed c); [split; assumption|].
  destruct q as [r|r|r|r]; cbn.
  - destruct (insert_employee (working c) r) eqn:H; unfold serial; cbn;
      (split; [exact Hc|]); [exact Hw|].
    apply insert_employee_inr in H as (k & s & d & _ & _ & _ & Ed & Ep & _).
    exact (serials_same_tables _ _ _ _ Ed Ep Hw).
  - destruct (upsert_department _ (working c) r) as [e|t'] eqn:H;
      unfold serial.
    + destruct e; cbn; split;
        first [assumption | eapply serials_below_mono; [| |eassumption]; lia].
    + cbn. split; [eapply serials_below_mono; [| |exact Hc]; lia|].
      exact (serials_upsert_department _ _ _ _ _ Hw H).
  - destruct (upsert_project _ (working c) r) as [e|t'] eqn:H;
      unfold serial.
    + destruct e; cbn; split;
        first [assumption | eapply serials_below_mono; [| |eassumption]; lia].
    + cbn. split; [eapply serials_below_mono; [| |exact Hc]; lia|].
      exact (serials_upsert_project _ _ _ _ _ Hw H).
  - destruct (insert_employee_project (working c) r) eqn:H; unfold serial; cbn;
      (split; [exact Hc|]); [exact Hw|].
    apply insert_employee_project_inr in H as (Ed & Ep & _).
    exact (serials_same_tables _ _ _ _ Ed Ep Hw).
Qed.

(** X16.  The serial ids stay a key: if on a connection every stored
    department_id and project_id is below its sequence and no two
    departments and no two projects share an id, the same holds after every
    call of a loader, whether it returns or raises. *)
Theorem loaders_keep_serial_ids (c : Conn) :
  serials_below (departments_seq c) (projects_seq c) (committed c) ->
  serials_below (departments_seq c) (projects_seq c) (working c) ->
  (forall deps, serial (snd (seed_departments deps c)))
  /\ (forall df, serial (snd (insert_employees_df df c)))
  /\ (forall df, serial (snd (insert_projects_df df c)))
  /\ (forall df, serial (snd (insert_employee_projects_df df c))).
Proof.
  intros Hc Hw. assert (Hs : serial c) by (split; assumption).
  split; [|split; [|split]]; intros x.
  - exact (keeps_seed_departments serial serial_execute serial_commit x c Hs).
  - exact (keeps_insert_employees_df serial serial_execute serial_rollback
             serial_commit serial_print x c Hs).
  - exact (keeps_insert_projects_df serial serial_execute serial_rollback
             serial_commit x c Hs).
  - exact (keeps_insert_employee_projects_df serial serial_execute
             serial_rollback serial_commit x c Hs).
Qed.

Lemma empty_serials : serials_below 1 1 empty_tables.
Proof.
  repeat split.
  - intros n id l b H. cbn in H. rewrite lookup_empty in H. discriminate.
  - intros n id ty s e b H. cbn in H. rewrite lookup_empty in H. discriminate.
  - intros n1 n2 id l1 b1 l2 b2 H. cbn in H. rewrite lookup_empty in H. discriminate.
  - intros n1 n2 id ty1 s1 e1 b1 ty2 s2 e2 b2 H.
    cbn in H. rewrite lookup_empty in H. discriminate.
Defined.

Lemma loaders_keep_serial_ids_witness :
  unique_department_ids
    (committed (snd (seed_departments departments2 (connect empty_tables)))).
Proof.
  destruct (loaders_keep_serial_ids (connect empty_tables)) as (H & _);
    [exact empty_serials | exact empty_serials |].
  destruct (H departments2) as [(_ & _ & Hu & _) _]. exact Hu.
Defined.

(** *** Counting employees *)

(** X17.  After a call of [insert_employees_df] that returns, on an idle
    connection, the stored employee ids are the ones stored before and the
    ids of the batch, so [count_employees] never goes down and grows by at
    most the number of rows of the batch. *)
Theorem count_employees_after_insert (df : list EmployeeFrameRow) (c c' : Conn) :
  idle c ->
  insert_employees_df df c = (Ok tt, c') ->
  (forall id,
     is_Some (employees (committed c') !! id)
     <-> is_Some (employees (committed c) !! id)
         \/ PNum id ∈ map t_employee_id (employee_tuples df))
  /\ (count_employees c <= count_employees c' <= count_employees c + length df)%nat.
Proof.
  intros Hidle H.
  destruct (first_failure 0 (committed c) (employee_tuples df))
    as [[[i r] e]|] eqn:Hff.
  { destruct (insert_employees_df_fail df c i r e Hidle Hff) as (c1 & E & _).
    rewrite E in H. discriminate H. }
  destruct (insert_employees_df_ok df c Hidle Hff) as (c1 & E & Hc & _).
  rewrite E in H. injection H as <-.
  pose proof (first_failure_stored _ _ _ Hff) as Hst.
  split.
  - intros id. rewrite Hc, (run_employees_lookup _ _ _ id Hff).
    rewrite <- (first_with_id_Some id _ Hst).
    destruct (employees (committed c) !! id) as [old|]; split; eauto.
    intros [[x [=]]|H]; exact H.
  - unfold count_employees. rewrite Hc.
    pose proof (run_employees_size _ _ _ Hff) as Hs.
    unfold employee_tuples in Hs. rewrite length_map in Hs. exact Hs.
Qed.

Lemma count_employees_after_insert_witness :
  (count_employees (connect tables1)
   <= count_employees (snd (insert_employees_df batch_dup (connect tables1)))
   <= count_employees (connect tables1) + 3)%nat.
Proof.
  destruct (count_employees_after_insert batch_dup (connect tables1)
              (snd (insert_employees_df batch_dup (connect tables1))))
    as [_ H]; [split; reflexivity | vm_compute; reflexivity |].
  exact H.
Defined.

(** *** The two other loaders *)

(** X18.  [insert_projects_df] is all or nothing.  On an idle connection,
    if every row has a name, a type, a start date that parses and a budget
    that is a number of the INTEGER range, and some row has an end date
    that parses (or the frame has no row), the call returns and commits:
    each project named in the frame is stored with the columns of the last
    row that names it (an end date that is missing or does not parse is
    stored as null), under the id it had if it was stored before, and
    nothing else changes.  For every other frame the call raises and
    commits nothing; a frame with rows none of which has an end date that
    parses is one of them, its end dates being sent as NaT. *)
Theorem insert_projects_df_all_or_nothing (df : list ProjectFrameRow) (c : Conn) :
  idle c ->
  (acceptable_projects df ->
   exists c',
     insert_projects_df df c = (Ok tt, c')
     /\ idle c'
     /\ departments (committed c') = departments (committed c)
     /\ employees (committed c') = employees (committed c)
     /\ employee_projects (committed c') = employee_projects (committed c)
     /\ forall n,
          match last_project_for n df with
          | Some (ty, sd, e, b) =>
              exists id,
                projects (committed c') !! n = Some (id, ty, sd, e, b)
                /\ (forall id0 ty0 sd0 e0 b0,
                      projects (committed c) !! n = Some (id0, ty0, sd0, e0, b0) ->
                      id = id0)
          | None => projects (committed c') !! n = projects (committed c) !! n
          end)
  /\ (~ acceptable_projects df ->
      exists e c',
        insert_projects_df df c = (Raise e, c')
        /\ idle c' /\ committed c' = committed c).
Proof.
  intros Hidle. split.
  - intros Hacc.
    destruct (insert_projects_df_run df c Hidle Hacc) as (c' & E & Hidle' & Hc).
    exists c'. split; [exact E|]. split; [exact Hidle'|]. rewrite Hc.
    exact (run_projects_lookup _ df (proj1 Hacc) (projects_seq c) (committed c)).
  - exact (insert_projects_df_refused df c Hidle).
Qed.

Lemma insert_projects_df_all_or_nothing_witness :
  (exists c',
     insert_projects_df
       [project "Atlas" (NumVal 1000);
        (Some "Atlas", Some "Internal", DateVal (Date 2020 1 1), DateNull,
         NumVal 2000)%string]
       (connect empty_tables) = (Ok tt, c')
     /\ exists id, projects (committed c') !! "Atlas"%string
                   = Some (id, "Internal"%string, Date 2020 1 1, None, 2000))
  /\ (exists e c',
        insert_projects_df
          [(Some "Atlas", Some "Internal", DateVal (Date 2020 1 1), DateNull,
            NumVal 2000)%string]
          (connect empty_tables) = (Raise e, c')
        /\ committed c' = empty_tables).
Proof.
  split.
  - destruct (insert_projects_df_all_or_nothing
                [project "Atlas" (NumVal 1000);
                 (Some "Atlas", Some "Internal", DateVal (Date 2020 1 1), DateNull,
                  NumVal 2000)%string]
                (connect empty_tables)) as [H _]; [split; reflexivity|].
    destruct H as (c' & E & _ & _ & _ & _ & Hl).
    { split; [|right; reflexivity].
      repeat constructor; eexists _, _, _, _, _; split; reflexivity. }
    exists c'. split; [exact E|].
    specialize (Hl "Atlas"%string). cbn in Hl. destruct Hl as (id & Hid & _).
    exists id. exact Hid.
  - destruct (insert_projects_df_all_or_nothing
                [(Some "Atlas", Some "Internal", DateVal (Date 2020 1 1), DateNull,
                  NumVal 2000)%string]
                (connect empty_tables)) as [_ H]; [split; reflexivity|].
    destruct H as (e & c' & E & _ & Hc).
    { intros [_ [H|H]]; discriminate H. }
    exists e, c'. split; [exact E | exact Hc].
Defined.

(** X19.  [insert_employee_projects_df] is all or nothing.  On an idle
    connection whose stored assignments refer to stored employees and
    projects: if in every row both ids are numbers of the INTEGER range
    that name a stored employee and a stored project, the call returns and
    commits; a pair that was assigned keeps its role, a new pair gets the
    role of the first row of the frame for it (ON CONFLICT DO NOTHING),
    and nothing else changes.  If some row is not of that kind the call
    raises and commits nothing. *)
Theorem insert_employee_projects_df_all_or_nothing
  (df : list AssignmentFrameRow) (c : Conn) :
  idle c ->
  assignments_ok (committed c) ->
  (Forall (acceptable_assignment (committed c)) df ->
   exists c',
     insert_employee_projects_df df c = (Ok tt, c')
     /\ idle c'
     /\ departments (committed c') = departments (committed c)
     /\ employees (committed c') = employees (committed c)
     /\ projects (committed c') = projects (committed c)
     /\ forall e p,
          employee_projects (committed c') !! (e, p)
          = match employee_projects (committed c) !! (e, p) with
            | Some old => Some old
            | None => first_role e p df
            end)
  /\ (~ Forall (acceptable_assignment (committed c)) df ->
      exists e c',
        insert_employee_projects_df df c = (Raise e, c')
        /\ idle c' /\ committed c' = committed c).
Proof.
  intros Hidle Hok. split.
  - intros Hall.
    destruct (insert_employee_projects_df_run df c Hidle Hok Hall)
      as (c' & E & Hidle' & Hc).
    exists c'. split; [exact E|]. split; [exact Hidle'|]. rewrite Hc.
    exact (run_assignments_lookup df (committed c) Hall).
  - exact (insert_employee_projects_df_refused df c Hidle Hok).
Qed.

Lemma insert_employee_projects_df_all_or_nothing_witness :
  (exists c',
     insert_employee_projects_df [(NumVal 100, NumVal 1, Some "Tester"%string)]
       (connect tables1) = (Ok tt, c')
     /\ employee_projects (committed c') !! (100, 1) = Some (Some "Lead"%string))
  /\ (exists e c',
        insert_employee_projects_df [(NumVal 100, NumVal 7, None)]
          (connect tables1) = (Raise e, c')
        /\ committed c' = tables1).
Proof.
  split.
  - destruct (insert_employee_projects_df_all_or_nothing
                [(NumVal 100, NumVal 1, Some "Tester"%string)]
                (connect tables1)) as [H _];
      [split; reflexivity | exact tables1_assignments_ok |].
    destruct H as (c' & E & _ & _ & _ & _ & Hl).
    { repeat constructor. exists 100, 1, (Some "Tester"%string).
      repeat split; try reflexivity. eexists. vm_compute. reflexivity. }
    exists c'. split; [exact E|]. rewrite Hl. vm_compute. reflexivity.
  - destruct (insert_employee_projects_df_all_or_nothing
                [(NumVal 100, NumVal 7, None)]
                (connect tables1)) as [_ H];
      [split; reflexivity | exact tables1_assignments_ok |].
    destruct H as (e & c' & E & _ & Hc).
    { intros Hall.
      apply Forall_cons in Hall as [(e & p & role & [= <- <- <-] & _ & _ & _ & Hp) _].
      vm_compute in Hp. discriminate. }
    exists e, c'. split; [exact E | exact Hc].
Defined.

End DbExtra.

(** ** Properties of the read accessors *)

Module QueriesSpec.
Import Pandas Db DbFacts DbExtra Queries.

#[local] Instance by_id_total {A} : Total (@by_id A).
Proof. intros a b. unfold by_id. lia. Qed.

#[local] Instance by_id_trans {A} : Transitive (@by_id A).
Proof. intros a b c. unfold by_id. lia. Qed.

Lemma elem_of_flat_map {A B} (f : A -> list B) l y :
  y ∈ flat_map f l <-> exists x, x ∈ l /\ y ∈ f x.
Proof.
  rewrite list_elem_of_In, in_flat_map. split; intros (x & H1 & H2); exists x.
  - split; apply list_elem_of_In; assumption.
  - split; apply list_elem_of_In; assumption.
Qed.

Lemma elem_of_filter_bool {A} (f : A -> bool) l y :
  y ∈ List.filter f l <-> y ∈ l /\ f y = true.
Proof. rewrite !list_elem_of_In. apply filter_In. Qed.

(** X20.  [fetch_departments] returns the stored departments, each once,
    in ascending order of department_id. *)
Theorem fetch_departments_sorted (t : Tables) :
  Sorted Z.le (map fst (fetch_departments t))
  /\ length (fetch_departments t) = size (departments t)
  /\ forall id n l b,
       (id, (n, l, b)) ∈ fetch_departments t
       <-> departments t !! n = Some (id, l, b).
Proof.
  unfold fetch_departments.
  set (rows := map _ (map_to_list (departments t))).
  split; [|split].
  - pose proof (Sorted_merge_sort by_id rows) as Hs.
    induction Hs as [|x l Hs IH Hhd]; cbn; constructor; [exact IH|].
    destruct Hhd; cbn; constructor. assumption.
  - rewrite merge_sort_Permutation. subst rows.
    rewrite length_map. apply length_map_to_list.
  - intros id n l b. rewrite merge_sort_Permutation. subst rows.
    rewrite list_elem_of_In, in_map_iff. split.
    + intros ([n' [[id' l'] b']] & [= <- <- <- <-] & Hin).
      apply list_elem_of_In, elem_of_map_to_list in Hin. exact Hin.
    + intros H. exists (n, (id, l, b)). split; [reflexivity|].
      apply list_elem_of_In, elem_of_map_to_list. exact H.
Qed.

Lemma departments_of_elem t d kv :
  kv ∈ departments_of t (Some d)
  <-> departments t !! kv.1 = Some kv.2 /\ kv.2.1.1 = d.
Proof.
  unfold departments_of. rewrite elem_of_filter_bool.
  destruct kv as [n row]. rewrite elem_of_map_to_list. cbn.
  rewrite Z.eqb_eq. reflexivity.
Qed.

Lemma departments_of_single t d :
  unique_department_ids t ->
  departments_of t d = [] \/ exists kv, departments_of t d = [kv].
Proof.
  intros Hu. destruct d as [d|]; [|left; reflexivity].
  assert (Hnd : NoDup (departments_of t (Some d))).
  { unfold departments_of. apply NoDup_ListNoDup, List.NoDup_filter,
      NoDup_ListNoDup, NoDup_map_to_list. }
  destruct (departments_of t (Some d)) as [|kv1 [|kv2 rest]] eqn:E;
    [left; reflexivity | right; eexists; reflexivity | exfalso].
  assert (H1 : kv1 ∈ departments_of t (Some d)) by (rewrite E; left).
  assert (H2 : kv2 ∈ departments_of t (Some d)) by (rewrite E; right; left).
  apply departments_of_elem in H1 as [H1 E1], H2 as [H2 E2].
  destruct kv1 as [n1 [[id1 l1] b1]], kv2 as [n2 [[id2 l2] b2]]. cbn in *.
  subst id1 id2. pose proof (Hu _ _ _ _ _ _ _ H1 H2) as ->.
  rewrite H1 in H2. injection H2 as <- <-.
  apply NoDup_cons in Hnd as [Hnot _]. apply Hnot. left.
Qed.

(** The one row that the LEFT JOIN gives an employee when department ids
    are unique. *)
Definition joined_row (t : Tables) (kv : Z * EmployeeRow) : JoinedEmployee :=
  joined kv.1 kv.2 (head (departments_of t (department_id kv.2))).

Lemma join_employee_single t kv :
  unique_department_ids t -> join_employee t kv = [joined_row t kv].
Proof.
  intros Hu. unfold join_employee, joined_row.
  destruct (departments_of_single t (department_id kv.2) Hu) as [E|[d E]];
    rewrite E; reflexivity.
Qed.

Lemma load_employees_joined_map t :
  unique_department_ids t ->
  load_employees_joined t
  = map (joined_row t) (merge_sort by_id (map_to_list (employees t))).
Proof.
  intros Hu. unfold load_employees_joined.
  induction (merge_sort by_id (map_to_list (employees t))) as [|kv l IH];
    [reflexivity|].
  cbn. rewrite (join_employee_single t kv Hu), IH. reflexivity.
Qed.

(** X21.  [load_employees_joined], on tables whose department ids are
    unique (department_id is the primary key): every stored employee gives
    exactly one row, the rows come in ascending order of employee_id, and
    the row of an employee carries its columns and the name, location and
    budget of its department, or three nulls when its department_id is null
    or names no stored department: the LEFT JOIN drops no employee. *)
Theorem load_employees_joined_complete (t : Tables) :
  unique_department_ids t ->
  length (load_employees_joined t) = size (employees t)
  /\ Sorted Z.le (map j_employee_id (load_employees_joined t))
  /\ forall id e,
       employees t !! id = Some e ->
       exists row,
         row ∈ load_employees_joined t
         /\ j_employee_id row = id /\ j_name row = name e
         /\ j_position row = position e /\ j_start_date row = start_date e
         /\ j_salary row = salary e /\ j_is_dirty row = is_dirty e
         /\ (forall d n l b,
               department_id e = Some d ->
               departments t !! n = Some (d, l, b) ->
               j_department_name row = Some n /\ j_location row = Some l
               /\ j_budget row = Some b)
         /\ (department_id e = None
             \/ (exists d, department_id e = Some d
                           /\ has_department_id t d = false) ->
             j_department_name row = None /\ j_location row = None
             /\ j_budget row = None).
Proof.
  intros Hu. rewrite (load_employees_joined_map t Hu).
  split; [|split].
  - rewrite length_map, merge_sort_Permutation. apply length_map_to_list.
  - pose proof (Sorted_merge_sort by_id (map_to_list (employees t))) as Hs.
    rewrite map_map. cbn.
    induction Hs as [|x l Hs IH Hhd]; cbn; constructor; [exact IH|].
    destruct Hhd; cbn; constructor. assumption.
  - intros id e He. exists (joined_row t (id, e)).
    split.
    { apply list_elem_of_In, in_map, list_elem_of_In.
      rewrite merge_sort_Permutation. apply elem_of_map_to_list. exact He. }
    unfold joined_row. cbn.
    repeat (split; [reflexivity|]). split.
    + intros d n l b Hd Hn. rewrite Hd.
      assert (Hin : (n, (d, l, b)) ∈ departments_of t (Some d)).
      { apply departments_of_elem. split; [exact Hn | reflexivity]. }
      destruct (departments_of_single t (Some d) Hu) as [E|[kv E]];
        rewrite E in Hin |- *.
      * apply elem_of_nil in Hin as [].
      * apply list_elem_of_singleton in Hin as <-. repeat split.
    + intros [Hd|(d & Hd & Hno)]; rewrite Hd; [repeat split|].
      destruct (departments_of t (Some d)) as [|kv rest] eqn:E; [repeat split|].
      exfalso.
      assert (Hin : kv ∈ departments_of t (Some d)) by (rewrite E; left).
      apply departments_of_elem in Hin as [Hl Hid].
      destruct kv as [n [[id' l] b]]. cbn in *. subst id'.
      assert (Hyes : has_department_id t d = true)
        by (apply has_department_id_iff; eauto).
      congruence.
Qed.

Lemma tables1_unique : unique_department_ids tables1.
Proof.
  intros n1 n2 id l1 b1 l2 b2 H1 H2. unfold tables1 in *. cbn in *.
  apply lookup_singleton_Some in H1 as [<- _], H2 as [<- _]. reflexivity.
Defined.

Lemma load_employees_joined_complete_witness :
  length (load_employees_joined tables1) = 1%nat
  /\ exists row,
       row ∈ load_employees_joined tables1
       /\ j_employee_id row = 100
       /\ j_department_name row = Some "Security"%string.
Proof.
  destruct (load_employees_joined_complete tables1 tables1_unique)
    as (Hlen & _ & Hrows).
  split; [exact Hlen|].
  destruct (Hrows 100 (ada 100 1) eq_refl)
    as (row & Hin & Hid & _ & _ & _ & _ & _ & Hdep & _).
  exists row. split; [exact Hin|]. split; [exact Hid|].
  apply (Hdep 1 "Security"%string "Toronto"%string 1800000); reflexivity.
Defined.

(** X22.  [load_employee_projects_joined], on tables that keep the
    constraints of the schema: its inner joins lose no assignment (each
    stored assignment gives a row with its employee, its role and a stored
    project of its project_id), and every row it returns comes from a
    stored assignment whose employee and project are stored. *)
Theorem load_employee_projects_joined_complete (t : Tables) :
  integrity t ->
  (forall e p role,
     employee_projects t !! (e, p) = Some role ->
     exists row sd ed,
       row ∈ load_employee_projects_joined t
       /\ a_employee_id row = e /\ a_role_on_project row = role
       /\ projects t !! a_project_name row
          = Some (p, a_project_type row, sd, ed, a_project_budget row))
  /\ (forall row,
        row ∈ load_employee_projects_joined t ->
        exists p emp sd ed,
          employee_projects t !! (a_employee_id row, p)
          = Some (a_role_on_project row)
          /\ employees t !! a_employee_id row = Some emp
          /\ a_name row = name emp /\ a_position row = position emp
          /\ a_start_date row = start_date emp /\ a_salary row = salary emp
          /\ a_is_dirty row = is_dirty emp
          /\ projects t !! a_project_name row
             = Some (p, a_project_type row, sd, ed, a_project_budget row)).
Proof.
  intros [_ Ha]. split.
  - intros e p role Hl. destruct (Ha e p role Hl) as [[emp Hemp] Hp].
    apply has_project_id_iff in Hp as (pn & ty & sd & ed & b & Hpn).
    assert (Hpin : (pn, (p, ty, sd, ed, b)) ∈ projects_with_id t p).
    { unfold projects_with_id. apply elem_of_filter_bool. split.
      - apply elem_of_map_to_list. exact Hpn.
      - cbn. apply Z.eqb_refl. }
    assert (Hdn : exists dn, dn ∈ department_names t (department_id emp)).
    { unfold department_names.
      destruct (departments_of t (department_id emp)) as [|kv ds];
        eexists; left. }
    destruct Hdn as [dn Hdn].
    eexists _, sd, ed. split.
    + unfold load_employee_projects_joined. apply elem_of_flat_map.
      exists (e, p, role). split; [apply elem_of_map_to_list; exact Hl|].
      cbn. rewrite Hemp. apply elem_of_flat_map. exists dn. split; [exact Hdn|].
      apply list_elem_of_In, in_map, list_elem_of_In. exact Hpin.
    + cbn. repeat split. exact Hpn.
  - intros row Hrow. unfold load_employee_projects_joined in Hrow.
    apply elem_of_flat_map in Hrow as ([[e p] role] & Hin & Hrow).
    apply elem_of_map_to_list in Hin. cbn in Hrow.
    destruct (employees t !! e) as [emp|] eqn:Hemp;
      [|apply elem_of_nil in Hrow as []].
    apply elem_of_flat_map in Hrow as (dn & _ & Hrow).
    apply list_elem_of_In, in_map_iff in Hrow as ([pn prow] & <- & Hpin).
    apply list_elem_of_In in Hpin. unfold projects_with_id in Hpin.
    apply elem_of_filter_bool in Hpin as [Hpin Hid].
    apply elem_of_map_to_list in Hpin.
    destruct prow as [[[[id ty] sd] ed] b]. cbn in Hid.
    apply Z.eqb_eq in Hid. subst id. cbn.
    exists p, emp, sd, ed. repeat split; assumption.
Qed.

Lemma load_employee_projects_joined_complete_witness :
  exists row,
    row ∈ load_employee_projects_joined tables1
    /\ a_employee_id row = 100 /\ a_role_on_project row = Some "Lead"%string.
Proof.
  destruct (load_employee_projects_joined_complete tables1 tables1_integrity)
    as [H _].
  destruct (H 100 1 (Some "Lead"%string) eq_refl)
    as (row & _ & _ & Hin & Hid & Hrole & _).
  exists row. repeat split; assumption.
Defined.

End QueriesSpec.

(** ** From the cleaner to the loader *)

Module Pipeline.
Import Pandas PandasFacts.

(** The row that [insert_employees_df] reads in the frame returned by
    [clean]: [df2[required]] takes the seven columns of the table and
    leaves the [issue_*] columns and [has_any_issue] aside. *)
Definition loader_row (c : Cleaning.CleanEmployee) : Db.EmployeeFrameRow :=
  {| Db.df_employee_id := Cleaning.employee_id c;
     Db.df_name := Cleaning.name c;
     Db.df_position := Cleaning.position c;
     Db.df_start_date :=
       match Cleaning.start_date c with
       | Some d => DateVal d
       | None => DateNull
       end;
     Db.df_salary := NumVal (Cleaning.salary c);
     Db.df_department_id := Cleaning.department_id c;
     Db.df_is_dirty := Cleaning.is_dirty c |}.

(** No statement of a batch raises when every tuple carries a date or
    [None], three integers that the server accepts, and the id of a
    stored department. *)
Lemma first_failure_none rows :
  forall i0 t,
    (forall r, r ∈ rows ->
       Db.is_nat (Db.t_start_date r) = false
       /\ is_Some (Db.int4 (Db.t_employee_id r))
       /\ is_Some (Db.int4 (Db.t_salary r))
       /\ exists d, Db.int4 (Db.t_department_id r) = Some d
                    /\ Db.has_department_id t d = true) ->
    DbFacts.first_failure i0 t rows = None.
Proof.
  induction rows as [|r rows IH]; intros i0 t Hall; [reflexivity|].
  cbn. destruct (Hall r) as (Hn & [id Hid] & [s Hs] & d & Hd & Hdep); [left|].
  assert (E : exists t', Db.insert_employee t r = inr t'
                         /\ Db.departments t' = Db.departments t).
  { unfold Db.insert_employee. rewrite Hn, Hid, Hs, Hd.
    destruct (Db.employees t !! id); [eexists; split; reflexivity|].
    rewrite Hdep. eexists; split; reflexivity. }
  destruct E as (t' & -> & Edep). apply IH.
  intros r' Hr'.
  destruct (Hall r') as (H1 & H2 & H3 & d' & H4 & H5); [right; exact Hr'|].
  repeat split; try assumption. exists d'. split; [exact H4|].
  unfold Db.has_department_id in *. rewrite Edep. exact H5.
Qed.

(** X23.  A frame returned by [clean] goes through the loader unchanged
    where it was cleaned: the tuple of a cleaned record carries its salary
    as it is (the clamp finds it in range), its start date and its
    non-null name and position.  If moreover every employee_id of the
    batch is a number and every department_id is a number that, once
    clamped, is the id of a stored department, [insert_employees_df] on
    an idle connection stores the cleaned frame without error. *)
Theorem cleaned_frame_loads (u : PyStr.Ucd) (df : list Cleaning.RawEmployee)
    (out : list Cleaning.CleanEmployee) (c : Db.Conn) :
  Cleaning.clean u df = Ok out ->
  DbFacts.idle c ->
  (forall r, r ∈ df ->
     (exists z, Cleaning.raw_employee_id r = NumVal z)
     /\ exists d,
          Db.clamp (to_numeric (Cleaning.raw_department_id r)) = Some d
          /\ Db.has_department_id (Db.committed c) d = true) ->
  (forall i x, out !! i = Some x ->
     exists t d,
       Db.employee_tuples (map loader_row out) !! i = Some t
       /\ Db.t_salary t = Db.PNum (Cleaning.salary x)
       /\ Cleaning.start_date x = Some d
       /\ Db.t_start_date t = Db.PDate d
       /\ Db.t_name t = Cleaning.name x
       /\ Db.t_position t = Cleaning.position x
       /\ is_Some (Db.t_name t)
       /\ is_Some (Db.t_position t))
  /\ exists c',
       Db.insert_employees_df (map loader_row out) c = (Ok tt, c')
       /\ DbFacts.idle c'.
Proof.
  intros Hout Hidle Hids.
  assert (Hrow : forall i x, out !! i = Some x ->
            exists r, r ∈ df
              /\ Cleaning.clean_row u (median (map Cleaning.masked_salary df))
                   (Cleaning.fill_dt df) r = Ok x
              /\ CleaningSpec.salary_ok (Cleaning.salary x)).
  { intros i x Hx. destruct (df !! i) as [r|] eqn:Hr.
    - exists r. split; [apply list_elem_of_lookup; eauto|].
      split; [exact (CleaningSpec.clean_lookup _ _ _ _ _ Hout Hr Hx)|].
      exact (CleaningSpec.cleaned_salary_ok _ _ _ _ _ Hout Hr Hx).
    - apply lookup_ge_None in Hr. apply lookup_lt_Some in Hx.
      rewrite (CleaningSpec.clean_length _ _ Hout) in Hx. lia. }
  assert (Hsal : forall x, CleaningSpec.salary_ok (Cleaning.salary x) ->
            Db.clamp (Some (Cleaning.salary x)) = Some (Cleaning.salary x)).
  { intros x [H1 H2]. rewrite DbFacts.clamp_Some.
    unfold Db.PG_INT_MAX, Db.PG_INT_MIN.
    destruct (Cleaning.salary x >? 2147483647) eqn:E1; [lia|].
    destruct (Cleaning.salary x <? -2147483648) eqn:E2; [lia|]. reflexivity. }
  set (nat := Db.all_nat (map Db.df_start_date (map loader_row out))).
  assert (Htup : forall i x, out !! i = Some x ->
            exists r d, r ∈ df
              /\ Db.employee_tuples (map loader_row out) !! i
                 = Some (Db.employee_tuple nat (loader_row x))
              /\ Cleaning.employee_id x = Cleaning.raw_employee_id r
              /\ Cleaning.department_id x = Cleaning.raw_department_id r
              /\ Cleaning.start_date x = Some d
              /\ Db.t_start_date (Db.employee_tuple nat (loader_row x))
                 = Db.PDate d
              /\ Db.t_salary (Db.employee_tuple nat (loader_row x))
                 = Db.PNum (Cleaning.salary x)
              /\ is_Some (Cleaning.name x) /\ is_Some (Cleaning.position x)).
  { intros i x Hx. destruct (Hrow i x Hx) as (r & Hr & Hclean & Hok).
    apply CleaningSpec.clean_row_Ok in Hclean
      as (He & Hdep & _ & Hn & Hp & Hd & _).
    exists r, (default (Cleaning.fill_dt df) (Cleaning.masked_start_date r)).
    split; [exact Hr|]. split.
    { unfold Db.employee_tuples. fold nat.
      rewrite !list_lookup_fmap, Hx. reflexivity. }
    split; [exact He|]. split; [exact Hdep|]. split; [exact Hd|].
    cbn. unfold Db.date_param. rewrite Hd, (Hsal x Hok). cbn.
    split; [reflexivity|]. split; [reflexivity|].
    rewrite Hn, Hp.
    split; [destruct (Cleaning.raw_name r) | destruct (Cleaning.raw_position r)];
      cbn; eauto. }
  split.
  - intros i x Hx.
    destruct (Htup i x Hx) as (r & d & _ & Et & _ & _ & Hd & Hdate & Hs & Hn & Hp).
    exists (Db.employee_tuple nat (loader_row x)), d.
    split; [exact Et|]. split; [exact Hs|]. split; [exact Hd|].
    split; [exact Hdate|]. cbn. repeat split; assumption.
  - assert (Hff : DbFacts.first_failure 0 (Db.committed c)
                    (Db.employee_tuples (map loader_row out)) = None).
    { apply first_failure_none. intros tup Hin.
      apply list_elem_of_lookup in Hin as [i Hi].
      assert (Hx : exists x, out !! i = Some x).
      { apply lookup_lt_Some in Hi. unfold Db.employee_tuples in Hi.
        rewrite !length_map in Hi. apply lookup_lt_is_Some in Hi. exact Hi. }
      destruct Hx as [x Hx].
      destruct (Htup i x Hx)
        as (r & d & Hr & Et & He & Hdep & _ & Hdate & Hs & _).
      rewrite Et in Hi. injection Hi as <-.
      destruct (Hids r Hr) as ([z Hz] & dep & Hclamp & Hknown).
      rewrite Hdate, Hs.
      split; [reflexivity|]. split.
      { cbn [Db.t_employee_id Db.employee_tuple loader_row Db.df_employee_id].
        rewrite DbFacts.int4_clamp, He, Hz. cbn [to_numeric].
        rewrite DbFacts.clamp_Some. eauto. }
      split.
      { destruct (Hrow i x Hx) as (_ & _ & _ & [H1 H2]).
        exists (Cleaning.salary x). apply DbFacts.int4_Some.
        split; [reflexivity|].
        unfold Db.in_int4, Db.PG_INT_MIN, Db.PG_INT_MAX.
        apply andb_true_iff; split; apply Z.leb_le; lia. }
      exists dep. split; [|exact Hknown].
      cbn [Db.t_department_id Db.employee_tuple loader_row Db.df_department_id].
      rewrite DbFacts.int4_clamp, Hdep. exact Hclamp. }
    destruct (DbFacts.insert_employees_df_ok _ c Hidle Hff)
      as (c' & E & _ & Hw & Hf & _).
    exists c'. split; [exact E|]. split; assumption.
Qed.

Definition raw_batch : list Cleaning.RawEmployee :=
  [ {| Cleaning.raw_employee_id := NumVal 100;
       Cleaning.raw_name := Some "Ada"%string;
       Cleaning.raw_position := Some (PyStr.of_string " data engineer");
       Cleaning.raw_start_date := DateVal (Date 2016 1 1);
       Cleaning.raw_salary := NumVal 70000;
       Cleaning.raw_department_id := NumVal 1;
       Cleaning.raw_is_dirty := Some false |};
    {| Cleaning.raw_employee_id := NumVal 101;
       Cleaning.raw_name := None;
       Cleaning.raw_position := None;
       Cleaning.raw_start_date := DateVal (Date 2030 1 1);
       Cleaning.raw_salary := NumVal 2000000;
       Cleaning.raw_department_id := NumVal 1;
       Cleaning.raw_is_dirty := Some true |} ].

Lemma cleaned_frame_loads_witness :
  exists c',
    Db.insert_employees_df (map loader_row (CleaningSpec.cleaned raw_batch))
      (Db.connect DbFacts.seeded) = (Ok tt, c')
    /\ DbFacts.idle c'
    /\ Db.count_employees c' = 2%nat.
Proof.
  destruct (cleaned_frame_loads PyStr.excerpt raw_batch
              (CleaningSpec.cleaned raw_batch)
              (Db.connect DbFacts.seeded)) as [_ (c' & E & Hidle)].
  - vm_compute. reflexivity.
  - split; reflexivity.
  - intros r Hr.
    apply elem_of_cons in Hr as [->|Hr];
      [|apply elem_of_cons in Hr as [->|Hr]; [|apply elem_of_nil in Hr as []]].
    + split; [eexists; reflexivity|]. exists 1. split; vm_compute; reflexivity.
    + split; [eexists; reflexivity|]. exists 1. split; vm_compute; reflexivity.
  - exists c'. split; [exact E|]. split; [exact Hidle|].
    vm_compute in E. injection E as <-. vm_compute. reflexivity.
Defined.

End Pipeline.
